(** * SimplePMM: statistical market making on many pairs, one exchange

    A shallow embedding of [SimplePMM.on_tick]
    (scripts/multiple_pairs_on_one_exchange_using_external_source.py) and of
    the class body that initialises its rate-limit dictionaries, and of
    the reference feed [MarketMakingParamsDataFeed]
    (hummingbot/data_feed/market_making_api_feed.py), in the module of
    that name.

    Modelling conventions.
    - A [Decimal] is a rational ([Q]) or the quiet NaN.  [Decimal(x)] is
      exact, and every product, sum and quotient of decimals is rounded to
      28 significant digits, ties to even, as the default context of the
      decimal module does ([round28]).
    - A float is the rational it stands for.  A float literal is the
      binary64 number nearest to the decimal numeral ([fl]), and so is the
      result of [1 - ratio] and [1 + ratio].  The sum
      [last_order_time + time_between_orders_for_trading_pair] of the
      debounce test is taken exactly.
    - The exponent ranges of the two formats are not modelled: there is no
      overflow and no underflow, and infinities are left out.
    - Python dictionaries that are only looked up and assigned are [gmap]s;
      a failed subscript raises [KeyError].  The per-side order dictionaries
      are iterated, so they are insertion-ordered lists.
    - [time.time()] reads the next value of a clock, a function from the
      number of readings made so far to the reading.
    - The calls that leave the process ([self.cancel], [self.buy],
      [self.sell], [market_making_api.start]) and the log lines that name a
      cancellation, a proposal or a rejected reference price are recorded,
      in order, in the [events] of the state.
    - An exception keeps the mutations made before it, as in Python. *)

From Stdlib Require Import QArith Qabs Qpower Lqa Ascii String.
From stdpp Require Import gmap strings list.

Open Scope Q_scope.

(* stdpp's solvers clear hypotheses that destructuring already removed. *)
Set Warnings "-clear-no-such-hyp".

(** ** Numbers *)


(** The number of digits of [p] in base [b]. *)
Fixpoint digits_fuel (fuel : nat) (b p : Z) : Z :=
  match fuel with
  | O => 0
  | S fuel => if (p <? b)%Z then 1 else 1 + digits_fuel fuel b (p / b)
  end%Z.

Definition digits (b p : Z) : Z :=
  digits_fuel (S (Z.to_nat (Z.log2 p))) b p.

(** The exponent [e] of the leading digit of [x] in base [b]:
    [b ^ e <= |x| < b ^ (e + 1)]. *)
Definition magnitude (b : Z) (x : Q) : Z :=
  let e := (digits b (Z.abs (Qnum x)) - digits b (Zpos (Qden x)))%Z in
  if Qle_bool (inject_Z b ^ e) (Qabs x) then e else (e - 1)%Z.

(** The integer nearest to [n / d], the even one of two that are equally
    near. *)
Definition round_half_even (n : Z) (d : positive) : Z :=
  let q := (n / Zpos d)%Z in
  let r := (n mod Zpos d)%Z in
  match (2 * r ?= Zpos d)%Z with
  | Lt => q
  | Gt => (q + 1)%Z
  | Eq => if Z.even q then q else (q + 1)%Z
  end.

(** [x] rounded to [prec] significant digits in base [b], ties to even. *)
Definition round_to (b prec : Z) (x : Q) : Q :=
  if Qeq_bool x 0 then 0
  else
    let ulp := inject_Z b ^ (magnitude b x - (prec - 1)) in
    let y := x / ulp in
    Qred (inject_Z (round_half_even (Qnum y) (Qden y)) * ulp).

(** The result of an operation of the decimal module in its default
    context: 28 significant digits. *)
Definition round28 : Q → Q := round_to 10 28.

(** Half a unit in the 28th digit, relative to the leading digit: the most
    that an operation of the decimal module moves its exact result. *)
Definition eps28 : Q := (1 # 2) * inject_Z 10 ^ (1 - 28).

(** The binary64 number nearest to [x]: what a float literal denotes. *)
Definition fl : Q → Q := round_to 2 53.

(** [x + y] and [x - y] on floats. *)
Definition float_add (x y : Q) : Q := fl (x + y).
Definition float_sub (x y : Q) : Q := fl (x - y).

(** A number of the reference feed, as [json.loads] delivers it: an int,
    a float or the float NaN. *)
Inductive jnum : Type :=
  | JNum (q : Q)
  | JNaN.

(** A [decimal.Decimal]. *)
Inductive dec : Type :=
  | Fin (q : Q)
  | NaN.

Inductive exn : Type :=
  | KeyError (key : string)
  | ValueError
  | JSONDecodeError
  | InvalidOperation
  | DivisionByZero.

Inductive res (A : Type) : Type :=
  | Ok (a : A)
  | Raise (e : exn).
Arguments Ok {A} a.
Arguments Raise {A} e.

Definition Qlt_bool (x y : Q) : bool := negb (Qle_bool y x).

(** [Decimal(x)] for a JSON number. *)
Definition Decimal (x : jnum) : dec :=
  match x with JNum q => Fin q | JNaN => NaN end.

(** [x <= 0] on a JSON number: a float NaN compares false. *)
Definition jnum_le0 (x : jnum) : bool :=
  match x with JNum q => Qle_bool q 0 | JNaN => false end.

(** [a * b] on decimals: a quiet NaN propagates. *)
Definition dec_mul (a b : dec) : dec :=
  match a, b with
  | Fin x, Fin y => Fin (round28 (x * y))
  | _, _ => NaN
  end.

(** [a == a], false exactly on NaN. *)
Definition dec_is_number (a : dec) : bool :=
  match a with Fin _ => true | NaN => false end.

(** [a > b] and [a < b] on decimals: an ordering comparison that involves a
    NaN signals InvalidOperation, which the default context traps. *)
Definition dec_gt (a b : dec) : res bool :=
  match a, b with
  | Fin x, Fin y => Ok (Qlt_bool y x)
  | _, _ => Raise InvalidOperation
  end.

Definition dec_lt (a b : dec) : res bool := dec_gt b a.

(** The finite operand of an ordering comparison with a number: a NaN
    signals InvalidOperation. *)
Definition compared (a : dec) : res Q :=
  match a with Fin x => Ok x | NaN => Raise InvalidOperation end.

(** [a / b] on finite decimals. *)
Definition dec_div (a b : Q) : res Q :=
  if Qeq_bool b 0
  then if Qeq_bool a 0 then Raise InvalidOperation else Raise DivisionByZero
  else Ok (round28 (a / b)).

(** ** Data *)

Inductive TradeType : Type := BUY | SELL.

(** An entry of the reference feed: [{"bid": ..., "ask": ...}]. *)
Record bid_ask : Type := BidAsk { bid : jnum; ask : jnum }.

(** An open order, as [get_active_orders] returns it. *)
Record order : Type := Order {
  o_trading_pair : string;
  o_is_buy : bool;
  o_client_order_id : string;
  o_price : Q
}.

(** An [OrderCandidate]; [is_maker] is always true and the type LIMIT. *)
Record OrderCandidate : Type := Candidate {
  c_trading_pair : option string;
  c_order_side : TradeType;
  c_amount : Q;
  c_price : Q
}.

Inductive reason : Type := Unprofitable | Outbid.

Inductive event : Type :=
  | EvStart
  | EvCancel (r : reason) (tp : string) (client_order_id : string)
  | EvBadReference (tp : string)
  | EvProposal (side : TradeType) (tp : string) (price amount : Q)
  | EvPlace (c : OrderCandidate).

(** The cached payload of the feed, seen through [json.loads]: an object
    that is not text (the initial [{}]) raises TypeError, text that is not
    JSON raises JSONDecodeError, anything else parses. *)
Inductive payload : Type :=
  | PayloadNotText
  | PayloadBadText
  | PayloadJSON (d : gmap string bid_ask).

(** The class attributes that configure the strategy. *)
Record config : Type := Config {
  buy_place_ratio : Q;
  buy_place_max_distance : Q;
  buy_cancel_unprofitable_ratio : Q;
  buy_cancel_outbid_ratio : Q;
  sell_place_ratio : Q;
  sell_place_max_distance : Q;
  sell_cancel_unprofitable_ratio : Q;
  sell_cancel_outbid_ratio : Q;
  time_between_orders_for_trading_pair : Q;
  trading_pairs : list string;
  quote_curs : gmap string Q;
  size_multiple : Q
}.

(** What the collaborators answer during one cycle. *)
Record world : Type := World {
  clock : nat → Q;
  bid_ask_markets_json : payload;
  get_active_orders : list order;
  get_price : string → bool → dec;
  get_available_balance : string → Q;
  adjust_candidates : list OrderCandidate → list OrderCandidate
}.

(** The strategy object together with the effects made so far. *)
Record state : Type := State {
  started : bool;
  bid_ask_markets_dict : gmap string bid_ask;
  orders : gmap string (list order * list order);
  orderbook_bid : gmap string dec;
  orderbook_ask : gmap string dec;
  trading_pair : option string;
  last_cancel_time : gmap string Q;
  last_order_time : gmap string Q;
  ticks : nat;
  events : list event
}.

(** The counters of Part Three. *)
Record proposals : Type := Proposals {
  num_orders : nat;
  skip_proposal_for_count : nat;
  skip_proposal_for_time : nat;
  skip_proposal_for_distance : nat;
  skip_proposal_for_balance : nat
}.

(** What the two summary lines of a completed cycle report. *)
Record summary : Type := Summary {
  num_cancels_unprofitable : nat;
  num_cancels_outbid : nat;
  proposed : proposals
}.

(** ** State and exception monad *)

Definition M (A : Type) : Type := state → res A * state.

Definition ret {A} (a : A) : M A := λ s, (Ok a, s).

Definition bind {A B} (m : M A) (f : A → M B) : M B :=
  λ s, match m s with
       | (Ok a, s') => f a s'
       | (Raise e, s') => (Raise e, s')
       end.

Definition raise {A} (e : exn) : M A := λ s, (Raise e, s).

Definition read {A} (f : state → A) : M A := λ s, (Ok (f s), s).

Definition modify (f : state → state) : M unit := λ s, (Ok tt, f s).

Definition lift {A} (r : res A) : M A := λ s, (r, s).

#[export] Instance M_ret : MRet M := @ret.
#[export] Instance M_bind : MBind M := λ A B f m, bind m f.

(** [d[k]] *)
Definition getitem {V} (d : gmap string V) (k : string) : M V :=
  match d !! k with
  | Some v => ret v
  | None => raise (KeyError k)
  end.

(** [for x in l: acc = body(x, acc)] *)
Fixpoint for_each {X A} (l : list X) (body : X → A → M A) (a : A) : M A :=
  match l with
  | [] => ret a
  | x :: l' => a' ← body x a; for_each l' body a'
  end.

(** Field updates. *)
Definition set_started (b : bool) (s : state) : state :=
  State b (bid_ask_markets_dict s) (orders s) (orderbook_bid s)
    (orderbook_ask s) (trading_pair s) (last_cancel_time s)
    (last_order_time s) (ticks s) (events s).

Definition set_bid_ask_markets_dict (d : gmap string bid_ask) (s : state) : state :=
  State (started s) d (orders s) (orderbook_bid s)
    (orderbook_ask s) (trading_pair s) (last_cancel_time s)
    (last_order_time s) (ticks s) (events s).

Definition set_orders (o : gmap string (list order * list order)) (s : state) : state :=
  State (started s) (bid_ask_markets_dict s) o (orderbook_bid s)
    (orderbook_ask s) (trading_pair s) (last_cancel_time s)
    (last_order_time s) (ticks s) (events s).

Definition set_orderbook_bid (o : gmap string dec) (s : state) : state :=
  State (started s) (bid_ask_markets_dict s) (orders s) o
    (orderbook_ask s) (trading_pair s) (last_cancel_time s)
    (last_order_time s) (ticks s) (events s).

Definition set_orderbook_ask (o : gmap string dec) (s : state) : state :=
  State (started s) (bid_ask_markets_dict s) (orders s) (orderbook_bid s)
    o (trading_pair s) (last_cancel_time s)
    (last_order_time s) (ticks s) (events s).

Definition set_trading_pair (tp : string) (s : state) : state :=
  State (started s) (bid_ask_markets_dict s) (orders s) (orderbook_bid s)
    (orderbook_ask s) (Some tp) (last_cancel_time s)
    (last_order_time s) (ticks s) (events s).

Definition set_last_cancel_time (tp : string) (t : Q) (s : state) : state :=
  State (started s) (bid_ask_markets_dict s) (orders s) (orderbook_bid s)
    (orderbook_ask s) (trading_pair s) (<[tp := t]> (last_cancel_time s))
    (last_order_time s) (ticks s) (events s).

Definition set_last_order_time (tp : string) (t : Q) (s : state) : state :=
  State (started s) (bid_ask_markets_dict s) (orders s) (orderbook_bid s)
    (orderbook_ask s) (trading_pair s) (last_cancel_time s)
    (<[tp := t]> (last_order_time s)) (ticks s) (events s).

Definition tick (s : state) : state :=
  State (started s) (bid_ask_markets_dict s) (orders s) (orderbook_bid s)
    (orderbook_ask s) (trading_pair s) (last_cancel_time s)
    (last_order_time s) (S (ticks s)) (events s).

Definition record (e : event) (s : state) : state :=
  State (started s) (bid_ask_markets_dict s) (orders s) (orderbook_bid s)
    (orderbook_ask s) (trading_pair s) (last_cancel_time s)
    (last_order_time s) (ticks s) (events s ++ [e]).

Definition emit (e : event) : M unit := modify (record e).

(** [time.time()] *)
Definition time_time (w : world) : M Q :=
  λ s, (Ok (clock w (ticks s)), tick s).

(** [d[o.client_order_id] = o] on an insertion-ordered dictionary. *)
Fixpoint dict_set (d : list order) (o : order) : list order :=
  match d with
  | [] => [o]
  | o' :: d' =>
      if String.eqb (o_client_order_id o') (o_client_order_id o)
      then o :: d'
      else o' :: dict_set d' o
  end.

(** [s.split(sep)] *)
Fixpoint split (sep : ascii) (s : string) : list string :=
  match s with
  | EmptyString => [EmptyString]
  | String c s' =>
      if Ascii.eqb c sep then EmptyString :: split sep s'
      else match split sep s' with
           | [] => [String c EmptyString]
           | part :: parts => String c part :: parts
           end
  end.

(** [base_cur, quote_cur = trading_pair.split("-")] *)
Definition split_pair (tp : string) : M (string * string) :=
  match split "-"%char tp with
  | [base_cur; quote_cur] => ret (base_cur, quote_cur)
  | _ => raise ValueError
  end.

Definition incr_count (c : proposals) : proposals :=
  Proposals (num_orders c) (S (skip_proposal_for_count c))
    (skip_proposal_for_time c) (skip_proposal_for_distance c)
    (skip_proposal_for_balance c).

Definition incr_time (c : proposals) : proposals :=
  Proposals (num_orders c) (skip_proposal_for_count c)
    (S (skip_proposal_for_time c)) (skip_proposal_for_distance c)
    (skip_proposal_for_balance c).

Definition incr_distance (c : proposals) : proposals :=
  Proposals (num_orders c) (skip_proposal_for_count c)
    (skip_proposal_for_time c) (S (skip_proposal_for_distance c))
    (skip_proposal_for_balance c).

Definition incr_balance (c : proposals) : proposals :=
  Proposals (num_orders c) (skip_proposal_for_count c)
    (skip_proposal_for_time c) (skip_proposal_for_distance c)
    (S (skip_proposal_for_balance c)).

Definition incr_orders (c : proposals) : proposals :=
  Proposals (S (num_orders c)) (skip_proposal_for_count c)
    (skip_proposal_for_time c) (skip_proposal_for_distance c)
    (skip_proposal_for_balance c).

Definition no_proposals : proposals := Proposals 0 0 0 0 0.

(** ** The cycle *)

Section SimplePMM.

Variable cfg : config.
Variable w : world.

(** The body shared by the four cancellation branches: the cancel call and
    its log line, the counter, the time stamp. *)
Definition cancel (r : reason) (tp : string) (o : order) (n : nat) : M nat :=
  emit (EvCancel r tp (o_client_order_id o));;
  t ← time_time w;
  modify (set_last_cancel_time tp t);;
  mret (S n).

(** [if order.price > threshold: cancel] and [if order.price < threshold: cancel] *)
Definition cancel_if_above (r : reason) (tp : string) (threshold : dec)
    (o : order) (n : nat) : M nat :=
  c ← lift (dec_gt (Fin (o_price o)) threshold);
  if c : bool then cancel r tp o n else mret n.

Definition cancel_if_below (r : reason) (tp : string) (threshold : dec)
    (o : order) (n : nat) : M nat :=
  c ← lift (dec_lt (Fin (o_price o)) threshold);
  if c : bool then cancel r tp o n else mret n.

(** Part One, the body of the loop over trading pairs. *)
Definition part_one_pair (tp : string) (n : nat) : M nat :=
  modify (set_trading_pair tp);;
  d ← read bid_ask_markets_dict;
  bid_ask_dict ← getitem d tp;
  ob ← read orderbook_bid;
  _ ← getitem ob tp;
  oa ← read orderbook_ask;
  _ ← getitem oa tp;
  let ref_price_buy := bid bid_ask_dict in
  let ref_price_sell := ask bid_ask_dict in
  if jnum_le0 ref_price_buy || jnum_le0 ref_price_sell then mret n
  else
    os ← read orders;
    sides ← getitem os tp;
    n ← for_each sides.1
          (cancel_if_above Unprofitable tp
             (dec_mul (Decimal ref_price_buy)
                (Fin (float_sub 1 (buy_cancel_unprofitable_ratio cfg))))) n;
    os ← read orders;
    sides ← getitem os tp;
    for_each sides.2
      (cancel_if_below Unprofitable tp
         (dec_mul (Decimal ref_price_sell)
            (Fin (float_add 1 (sell_cancel_unprofitable_ratio cfg))))) n.

(** Part Two, the body of the loop over trading pairs. *)
Definition part_two_pair (tp : string) (n : nat) : M nat :=
  modify (set_trading_pair tp);;
  d ← read bid_ask_markets_dict;
  bid_ask_dict ← getitem d tp;
  let ref_price_buy := bid bid_ask_dict in
  let ref_price_sell := ask bid_ask_dict in
  ob ← read orderbook_bid;
  ob_bid ← getitem ob tp;
  oa ← read orderbook_ask;
  ob_ask ← getitem oa tp;
  if jnum_le0 ref_price_buy || jnum_le0 ref_price_sell then mret n
  else
    os ← read orders;
    sides ← getitem os tp;
    n ← for_each sides.1
          (cancel_if_below Outbid tp
             (dec_mul ob_bid
                (Fin (float_sub 1 (buy_cancel_outbid_ratio cfg))))) n;
    os ← read orders;
    sides ← getitem os tp;
    for_each sides.2
      (cancel_if_above Outbid tp
         (dec_mul ob_ask
            (Fin (float_add 1 (sell_cancel_outbid_ratio cfg))))) n.

(** The price of a buy and of a sell proposal: the sum and the half are
    both rounded. *)
Definition buy_price (buy_price_max ob_bid : Q) : Q :=
  if Qlt_bool ob_bid buy_price_max
  then round28 (round28 (buy_price_max + ob_bid) / 2)
  else buy_price_max.

Definition sell_price (sell_price_min ob_ask : Q) : Q :=
  if Qlt_bool sell_price_min ob_ask
  then round28 (round28 (sell_price_min + ob_ask) / 2)
  else sell_price_min.

(** Part Three, the buy side of one trading pair. *)
Definition propose_buy (tp quote_cur : string) (buy_price_max : Q)
    (orderbook_bid : dec) (c : proposals) (proposal : list OrderCandidate)
    : M (proposals * list OrderCandidate) :=
  os ← read orders;
  sides ← getitem os tp;
  if (length sides.1 =? 0)%nat && negb (String.eqb tp "IRIS-BTC") then
    ob_bid ← lift (compared orderbook_bid);
    if Qlt_bool
         (round28 (buy_price_max * float_add 1 (buy_place_max_distance cfg)))
         ob_bid
    then mret (incr_distance c, proposal)
    else
      let price := buy_price buy_price_max ob_bid in
      size_in_quote_units ← getitem (quote_curs cfg) quote_cur;
      order_amount ←
        lift (dec_div (round28 (size_in_quote_units * size_multiple cfg)) price);
      let available_to_buy_in_quote := get_available_balance w quote_cur in
      available_to_buy_in_base ← lift (dec_div available_to_buy_in_quote price);
      if Qlt_bool order_amount (round28 (available_to_buy_in_base * fl 0.99)) then
        emit (EvProposal BUY tp price order_amount);;
        self_trading_pair ← read trading_pair;
        let buy_order := Candidate self_trading_pair BUY order_amount price in
        t ← time_time w;
        modify (set_last_order_time tp t);;
        mret (incr_orders c, proposal ++ [buy_order])
      else mret (incr_balance c, proposal)
  else mret (c, proposal).

(** Part Three, the sell side of one trading pair. *)
Definition propose_sell (tp base_cur quote_cur : string)
    (sell_price_min : Q) (orderbook_ask : dec)
    (c : proposals) (proposal : list OrderCandidate)
    : M (proposals * list OrderCandidate) :=
  os ← read orders;
  sides ← getitem os tp;
  if (length sides.2 =? 0)%nat then
    ob_ask ← lift (compared orderbook_ask);
    if Qlt_bool ob_ask
         (round28 (sell_price_min * float_sub 1 (sell_place_max_distance cfg)))
    then mret (incr_distance c, proposal)
    else
      let price := sell_price sell_price_min ob_ask in
      let available_to_sell_in_base := get_available_balance w base_cur in
      let order_amount := available_to_sell_in_base in
      size_in_quote_units ← getitem (quote_curs cfg) quote_cur;
      if Qle_bool size_in_quote_units order_amount then
        emit (EvProposal SELL tp price order_amount);;
        self_trading_pair ← read trading_pair;
        let sell_order := Candidate self_trading_pair SELL order_amount price in
        t ← time_time w;
        modify (set_last_order_time tp t);;
        mret (incr_orders c, proposal ++ [sell_order])
      else mret (incr_balance c, proposal)
  else mret (c, proposal).

Definition adjust_proposal_to_budget (proposal : list OrderCandidate)
    : list OrderCandidate :=
  adjust_candidates w proposal.

(** [self.buy] or [self.sell], by the side of the candidate. *)
Definition place_order (c : OrderCandidate) : M unit := emit (EvPlace c).

Definition place_orders (proposal : list OrderCandidate) : M unit :=
  for_each proposal (λ c _, place_order c) tt.

(** Part Three, the body of the loop over trading pairs. *)
Definition part_three_pair (tp : string) (c : proposals) : M proposals :=
  if (0 <? num_orders c)%nat then mret (incr_count c)
  else
    now ← time_time w;
    lot ← read last_order_time;
    last ← getitem lot tp;
    if Qlt_bool now (last + time_between_orders_for_trading_pair cfg)
    then mret (incr_time c)
    else
      modify (set_trading_pair tp);;
      d ← read bid_ask_markets_dict;
      bid_ask_dict ← getitem d tp;
      let ref_price_buy := bid bid_ask_dict in
      let ref_price_sell := ask bid_ask_dict in
      let buy_price_max :=
        dec_mul (Decimal ref_price_buy)
          (Fin (float_sub 1 (buy_place_ratio cfg))) in
      let sell_price_min :=
        dec_mul (Decimal ref_price_sell)
          (Fin (float_add 1 (sell_place_ratio cfg))) in
      ob ← read orderbook_bid;
      ob_bid ← getitem ob tp;
      oa ← read orderbook_ask;
      ob_ask ← getitem oa tp;
      match buy_price_max, sell_price_min with
      | NaN, _ | _, NaN => emit (EvBadReference tp);; mret c
      | Fin buy_price_max, Fin sell_price_min =>
          cur ← split_pair tp;
          let base_cur := cur.1 in
          let quote_cur := cur.2 in
          r ← propose_buy tp quote_cur buy_price_max ob_bid c [];
          r ← propose_sell tp base_cur quote_cur sell_price_min ob_ask r.1 r.2;
          place_orders (adjust_proposal_to_budget r.2);;
          mret r.1
      end.

(** The three loops over [self.trading_pairs]. *)
Definition part_one : M nat := for_each (trading_pairs cfg) part_one_pair 0%nat.
Definition part_two : M nat := for_each (trading_pairs cfg) part_two_pair 0%nat.
Definition part_three : M proposals :=
  for_each (trading_pairs cfg) part_three_pair no_proposals.

(** "Fetch open orders once and store": the per-pair dictionaries are
    emptied, then every active order is filed under its pair and side. *)
Definition reset_orders (tp : string) (_ : unit) : M unit :=
  os ← read orders;
  _ ← getitem os tp;
  modify (set_orders (<[tp := ([], [])]> os)).

Definition file_order (o : order) (_ : unit) : M unit :=
  os ← read orders;
  sides ← getitem os (o_trading_pair o);
  let sides' :=
    if o_is_buy o then (dict_set sides.1 o, sides.2)
    else (sides.1, dict_set sides.2 o) in
  modify (set_orders (<[o_trading_pair o := sides']> os)).

(** "Fetch orderbooks once and store". *)
Definition fetch_orderbook (tp : string) (_ : unit) : M unit :=
  modify (λ s, set_orderbook_bid (<[tp := get_price w tp false]> (orderbook_bid s)) s);;
  modify (λ s, set_orderbook_ask (<[tp := get_price w tp true]> (orderbook_ask s)) s).

Definition snapshot : M unit :=
  for_each (trading_pairs cfg) reset_orders tt;;
  for_each (get_active_orders w) file_order tt;;
  for_each (trading_pairs cfg) fetch_orderbook tt.

(** The three parts and the summary, once the snapshots are taken. *)
Definition reconcile : M summary :=
  let cancels_in_progress := 0%nat in
  num_cancels_unprofitable ← part_one;
  let cancels_in_progress :=
    if (0 <? num_cancels_unprofitable)%nat then 1%nat else cancels_in_progress in
  num_cancels_outbid ←
    (if (cancels_in_progress =? 0)%nat then part_two else mret 0%nat);
  let cancels_in_progress :=
    if (0 <? num_cancels_outbid)%nat then 1%nat else cancels_in_progress in
  p ← (if (cancels_in_progress =? 0)%nat then part_three else mret no_proposals);
  _ ← time_time w;
  mret (Summary num_cancels_unprofitable num_cancels_outbid p).

(** [on_tick]: [None] is the early [return []]. *)
Definition on_tick : M (option summary) :=
  is_started ← read started;
  if negb is_started then
    emit EvStart;;
    modify (set_started true);;
    mret None
  else
    match bid_ask_markets_json w with
    | PayloadNotText => mret None
    | PayloadBadText => raise JSONDecodeError
    | PayloadJSON d =>
        modify (set_bid_ask_markets_dict d);;
        snapshot;;
        r ← reconcile;
        mret (Some r)
    end.

(** The class body: the dictionaries of the last cancel and order time and
    of the open orders, filled by three loops over [trading_pairs] whose
    loop variable is the class attribute [trading_pair]. *)
Definition empty_state : state :=
  {| started := false;
     bid_ask_markets_dict := ∅;
     orders := ∅;
     orderbook_bid := ∅;
     orderbook_ask := ∅;
     trading_pair := None;
     last_cancel_time := ∅;
     last_order_time := ∅;
     ticks := 0;
     events := [] |}.

Definition init_last_cancel_time (tp : string) (_ : unit) : M unit :=
  modify (set_trading_pair tp);;
  modify (set_last_cancel_time tp 0).

Definition init_last_order_time (tp : string) (_ : unit) : M unit :=
  modify (set_trading_pair tp);;
  t ← time_time w;
  modify (set_last_order_time tp t).

Definition init_orders (tp : string) (_ : unit) : M unit :=
  modify (set_trading_pair tp);;
  modify (λ s, set_orders (<[tp := ([], [])]> (orders s)) s).

Definition class_body : M unit :=
  for_each (trading_pairs cfg) init_last_cancel_time tt;;
  for_each (trading_pairs cfg) init_last_order_time tt;;
  for_each (trading_pairs cfg) init_orders tt;;
  for_each (trading_pairs cfg) (λ tp _, modify (set_trading_pair tp)) tt.

(** The strategy object when the first cycle starts. *)
Definition startup : state := (class_body empty_state).2.

End SimplePMM.

(** The class attributes of the source, for a given iteration order of the
    set [trading_pairs]; the ratios and the sizes are float literals. *)
Definition default_config (pairs : list string) : config :=
  {| buy_place_ratio := fl 0.0050;
     buy_place_max_distance := fl 0.02;
     buy_cancel_unprofitable_ratio := fl 0.0025;
     buy_cancel_outbid_ratio := fl 0.0300;
     sell_place_ratio := fl 0.0005;
     sell_place_max_distance := fl 0.02;
     sell_cancel_unprofitable_ratio := fl (-0.0005);
     sell_cancel_outbid_ratio := fl 0.0300;
     time_between_orders_for_trading_pair := 5;
     trading_pairs := pairs;
     quote_curs :=
       list_to_map [("USD", fl 5.0); ("USDT", fl 5.0); ("BTC", fl 0.000138);
                    ("ETH", fl 0.00178)]%string;
     size_multiple := fl 1.10 |}.

(** The events that a run adds to those of its initial state. *)
Definition new_events {A} (m : M A) (s : state) : list event :=
  drop (length (events s)) (events (m s).2).

Definition is_cancel (r : reason) (e : event) : bool :=
  match e, r with
  | EvCancel Unprofitable _ _, Unprofitable => true
  | EvCancel Outbid _ _, Outbid => true
  | _, _ => false
  end.

(** The events that only Part Three makes. *)
Definition is_part_three (e : event) : bool :=
  match e with
  | EvProposal _ _ _ _ | EvPlace _ | EvBadReference _ => true
  | _ => false
  end.

(** The side and pair of a proposal accepted in Part Three. *)
Definition accepted (e : event) : option (TradeType * string) :=
  match e with
  | EvProposal side tp _ _ => Some (side, tp)
  | _ => None
  end.

(** The state after the orders [l] of [tp] were cancelled one by one. *)
Definition cancelled (w : world) (r : reason) (tp : string) (l : list order)
    (s : state) : state :=
  {| started := started s;
     bid_ask_markets_dict := bid_ask_markets_dict s;
     orders := orders s;
     orderbook_bid := orderbook_bid s;
     orderbook_ask := orderbook_ask s;
     trading_pair := trading_pair s;
     last_cancel_time :=
       match l with
       | [] => last_cancel_time s
       | _ :: _ => <[tp := clock w (ticks s + length l - 1)]> (last_cancel_time s)
       end;
     last_order_time := last_order_time s;
     ticks := ticks s + length l;
     events := events s ++ ((λ o, EvCancel r tp (o_client_order_id o)) <$> l) |}.

#[export] Instance Qlt_decision (x y : Q) : Decision (x < y) :=
  match Qlt_le_dec x y with
  | left H => left H
  | right H => right (Qle_not_lt _ _ H)
  end.

#[export] Instance Qle_decision (x y : Q) : Decision (x <= y) :=
  match Qlt_le_dec y x with
  | left H => right (Qlt_not_le _ _ H)
  | right H => left H
  end.

(** The four thresholds of the cancellation branches, as the program
    computes them. *)
Definition unprofitable_buy_threshold (cfg : config) (ref_bid : Q) : Q :=
  round28 (ref_bid * float_sub 1 (buy_cancel_unprofitable_ratio cfg)).

Definition unprofitable_sell_threshold (cfg : config) (ref_ask : Q) : Q :=
  round28 (ref_ask * float_add 1 (sell_cancel_unprofitable_ratio cfg)).

Definition outbid_buy_threshold (cfg : config) (top_bid : Q) : Q :=
  round28 (top_bid * float_sub 1 (buy_cancel_outbid_ratio cfg)).

Definition outbid_sell_threshold (cfg : config) (top_ask : Q) : Q :=
  round28 (top_ask * float_add 1 (sell_cancel_outbid_ratio cfg)).

(** The two bounds of the distance checks of Part Three, as the program
    computes them. *)
Definition buy_distance_bound (cfg : config) (buy_price_max : Q) : Q :=
  round28 (buy_price_max * float_add 1 (buy_place_max_distance cfg)).

Definition sell_distance_bound (cfg : config) (sell_price_min : Q) : Q :=
  round28 (sell_price_min * float_sub 1 (sell_place_max_distance cfg)).

(** The orders of a pair that Part One cancels, in the order of the calls. *)
Definition unprofitable (cfg : config) (ref_bid ref_ask : Q)
    (sides : list order * list order) : list order :=
  filter (λ o, unprofitable_buy_threshold cfg ref_bid < o_price o) sides.1
  ++ filter (λ o, o_price o < unprofitable_sell_threshold cfg ref_ask) sides.2.

(** The orders of a pair that Part Two cancels, in the order of the calls. *)
Definition outbid (cfg : config) (top_bid top_ask : Q)
    (sides : list order * list order) : list order :=
  filter (λ o, o_price o < outbid_buy_threshold cfg top_bid) sides.1
  ++ filter (λ o, outbid_sell_threshold cfg top_ask < o_price o) sides.2.


(** ** Concrete inputs *)

Definition scenario_c_state : state :=
  {| started := true;
     bid_ask_markets_dict := {[ "X-BTC"%string := BidAsk (JNum (fl 0.0010)) (JNum (fl 0.0011)) ]};
     orders :=
       {[ "X-BTC"%string :=
            ([Order "X-BTC" true "buy-1" 0.00105; Order "X-BTC" true "buy-2" 0.0009],
             [Order "X-BTC" false "sell-1" 0.0012]) ]};
     orderbook_bid := {[ "X-BTC"%string := Fin 0.00105 ]};
     orderbook_ask := {[ "X-BTC"%string := Fin 0.00125 ]};
     trading_pair := None;
     last_cancel_time := {[ "X-BTC"%string := 0 ]};
     last_order_time := {[ "X-BTC"%string := 0 ]};
     ticks := 7;
     events := [] |}.

Definition quiet_world (now : Q) : world :=
  {| clock := λ _, now;
     bid_ask_markets_json := PayloadNotText;
     get_active_orders := [];
     get_price := λ _ _, Fin 0;
     get_available_balance := λ _, 0;
     adjust_candidates := λ l, l |}.


(** ** Properties of runs *)

(** Every run of [m] relates the state before to the state after by [R],
    whether it returns or raises. *)
Definition sat {A} (R : state → state → Prop) (m : M A) : Prop :=
  ∀ s, R s (m s).2.

(** Nothing is sent and no clock reading is made; the time stamps stay. *)
Definition quiet (s s' : state) : Prop :=
  events s' = events s ∧ ticks s' = ticks s
  ∧ last_order_time s' = last_order_time s
  ∧ last_cancel_time s' = last_cancel_time s
  ∧ started s' = started s.

(** Only cancellations for the reason [r] are made, one clock reading for
    each; [last_order_time] stays. *)
Definition cancelling (r : reason) (s s' : state) : Prop :=
  ∃ new,
    events s' = events s ++ new
    ∧ Forall (λ e, is_cancel r e = true) new
    ∧ ticks s' = (ticks s + length new)%nat
    ∧ last_order_time s' = last_order_time s
    ∧ started s' = started s.

(** Only events of Part Three are made; [last_cancel_time] stays. *)
Definition proposing (s s' : state) : Prop :=
  ∃ new,
    events s' = events s ++ new
    ∧ Forall (λ e, is_part_three e = true) new
    ∧ last_cancel_time s' = last_cancel_time s
    ∧ started s' = started s.

(** A loop of cancellations returns its counter plus the number of events
    it made. *)
Definition counted (n : nat) (m : M nat) : Prop :=
  ∀ s n', (m s).1 = Ok n' →
    ∃ new, events (m s).2 = events s ++ new ∧ n' = (n + length new)%nat.

(** Two states that differ at most in [last_cancel_time]. *)
Definition agree (s1 s2 : state) : Prop :=
  started s1 = started s2
  ∧ bid_ask_markets_dict s1 = bid_ask_markets_dict s2
  ∧ orders s1 = orders s2
  ∧ orderbook_bid s1 = orderbook_bid s2
  ∧ orderbook_ask s1 = orderbook_ask s2
  ∧ trading_pair s1 = trading_pair s2
  ∧ last_order_time s1 = last_order_time s2
  ∧ ticks s1 = ticks s2
  ∧ events s1 = events s2.

(** [m] does not look at [last_cancel_time]. *)
Definition blind {A} (m : M A) : Prop :=
  ∀ s1 s2, agree s1 s2 →
    (m s1).1 = (m s2).1 ∧ agree (m s1).2 (m s2).2.

(** A running strategy and a world with a well-behaved exchange: the clock
    reads 0 while the class body runs and 1000 afterwards, the top of the
    book is 0.00098 / 0.00112 for every pair and every balance is 1. *)
Definition scenario_world (pairs : list string) (feed : payload)
    (active : list order) : world :=
  {| clock := λ k, if (k <? length pairs)%nat then 0 else 1000;
     bid_ask_markets_json := feed;
     get_active_orders := active;
     get_price := λ _ is_buy, Fin (if is_buy : bool then 0.00112 else 0.00098);
     get_available_balance := λ _, 1;
     adjust_candidates := λ l, l |}.

Definition running (cfg : config) (w : world) : state :=
  set_started true (startup cfg w).

Definition fair : bid_ask := BidAsk (JNum (fl 0.0010)) (JNum (fl 0.0011)).

(** The sides and pairs of the proposals accepted among some events. *)
Definition accepts (new : list event) : list (TradeType * string) :=
  omap accepted new.

(** Scenario A of the specification: pair X-BTC without open orders,
    reference 0.0010 / 0.0011, best bid 0.00105 (and best ask 0.00112). *)
Definition scenario_a_world : world :=
  {| clock := λ k, if (k <? 1)%nat then 0 else 1000;
     bid_ask_markets_json := PayloadJSON {[ "X-BTC"%string := fair ]};
     get_active_orders := [];
     get_price := λ _ is_buy, Fin (if is_buy : bool then 0.00112 else 0.00105);
     get_available_balance := λ _, 1;
     adjust_candidates := λ l, l |}.

Definition scenario_a_config : config := default_config ["X-BTC"%string].

(** The pair X-BTC without open orders, snapshots taken. *)
Definition scenario_b_state : state :=
  {| started := true;
     bid_ask_markets_dict := {[ "X-BTC"%string := fair ]};
     orders := {[ "X-BTC"%string := ([], []) ]};
     orderbook_bid := {[ "X-BTC"%string := Fin 0.00098 ]};
     orderbook_ask := {[ "X-BTC"%string := Fin 0.00112 ]};
     trading_pair := None;
     last_cancel_time := {[ "X-BTC"%string := 0 ]};
     last_order_time := {[ "X-BTC"%string := 0 ]};
     ticks := 1;
     events := [] |}.

(** The feed marks X-BTC as stale: reference bid and ask are 0. *)
Definition stale_world : world :=
  scenario_world ["X-BTC"%string]
    (PayloadJSON {[ "X-BTC"%string := BidAsk (JNum 0) (JNum 0) ]}) [].

(** Two pairs with a fair reference and no open order. *)
Definition two_sided_world : world :=
  scenario_world ["X-BTC"; "Y-BTC"]%string
    (PayloadJSON (list_to_map [("X-BTC", fair); ("Y-BTC", fair)]%string)) [].

(** Scenario D: A-BTC and B-BTC each hold an unprofitable buy order. *)
Definition scenario_d_world : world :=
  scenario_world ["A-BTC"; "B-BTC"; "C-BTC"]%string
    (PayloadJSON
       (list_to_map [("A-BTC", fair); ("B-BTC", fair); ("C-BTC", fair)]%string))
    [Order "A-BTC" true "a1" 0.00105; Order "B-BTC" true "b1" 0.00105].

(** The feed knows B-BTC only; B-BTC holds an unprofitable buy order. *)
Definition missing_pair_world : world :=
  scenario_world ["A-BTC"; "B-BTC"]%string
    (PayloadJSON {[ "B-BTC"%string := fair ]})
    [Order "B-BTC" true "b1" 0.00105].

Definition b_alone_world : world :=
  scenario_world ["B-BTC"%string]
    (PayloadJSON {[ "B-BTC"%string := fair ]})
    [Order "B-BTC" true "b1" 0.00105].

(** Two seconds after startup: the class body reads the clock at 1000 for
    both pairs and every later reading is 1002; the pairs have a fair
    reference, no open order and enough balance. *)
Definition early_world : world :=
  {| clock := λ k, if (k <? 2)%nat then 1000 else 1002;
     bid_ask_markets_json :=
       PayloadJSON (list_to_map [("X-BTC", fair); ("Y-BTC", fair)]%string);
     get_active_orders := [];
     get_price := λ _ is_buy, Fin (if is_buy : bool then 0.00112 else 0.00098);
     get_available_balance := λ _, 1;
     adjust_candidates := λ l, l |}.

(** * MarketMakingParamsDataFeed

    hummingbot/data_feed/market_making_api_feed.py: the feed object whose
    [bid_ask_markets_json] the strategy parses in every cycle.  What the
    HTTP server and the event loop do is an input: a [reply] is the outcome
    of one [client.request], and tasks are numbered in the order in which
    [safe_ensure_future] creates them. *)
Module MarketMakingParamsDataFeed.

(** The value of [_bid_ask_markets_dict]: the dictionary [{}] that
    [__init__] assigns, or the text of a reply. *)
Inductive cached : Type :=
  | EmptyDict
  | Text (body : string).

(** One [client.request("GET", url)]: a response with its status, its
    [text()] and its [json()] (absent when [json()] raises), an exception
    of the client, or a cancellation thrown into the await. *)
Inductive reply : Type :=
  | Reply (status : Z) (text : string) (json : option (gmap string Q))
  | Failed
  | Cancelled.

(** What a fetch raises: the cancellation, the [Exception] of the status
    check, or whatever the client raised. *)
Inductive error : Type :=
  | CancelledError
  | ServerError
  | ClientError.

Record feed : Type := Feed {
  _api_url : string;
  _trading_pair : string;
  _shared_client : bool;
  _ready_event : bool;
  _bid_ask_markets_dict : cached;
  _prices_dict : gmap string Q;
  _update_interval : Q;
  _fetch_price_task : option nat;
  _fetch_bid_ask_task : option nat;
  (* the event loop, the server and the log *)
  created : nat;
  cancelled : list nat;
  requested : list string;
  slept : list Q;
  network_warnings : nat
}.

(** [__init__(api_url, trading_pair, update_interval)] *)
Definition __init__ (api_url trading_pair : string) (update_interval : Q) : feed :=
  {| _api_url := api_url;
     _trading_pair := trading_pair;
     _shared_client := false;
     _ready_event := false;
     _bid_ask_markets_dict := EmptyDict;
     _prices_dict := ∅;
     _update_interval := update_interval;
     _fetch_price_task := None;
     _fetch_bid_ask_task := None;
     created := 0;
     cancelled := [];
     requested := [];
     slept := [];
     network_warnings := 0 |}.

Definition name (f : feed) : string := "price_api".

Definition health_check_endpoint (f : feed) : string := _api_url f.

Definition prices_dict (f : feed) : gmap string Q := _prices_dict f.

Definition bid_ask_markets_json (f : feed) : cached := _bid_ask_markets_dict f.

(** [self.prices_dict.get(trading_pair)] *)
Definition get_price (f : feed) (trading_pair : string) : option Q :=
  prices_dict f !! trading_pair.

(** [_http_client]: the session is created on first use. *)
Definition _http_client (f : feed) : feed :=
  if _shared_client f then f
  else
    {| _api_url := _api_url f; _trading_pair := _trading_pair f;
       _shared_client := true; _ready_event := _ready_event f;
       _bid_ask_markets_dict := _bid_ask_markets_dict f;
       _prices_dict := _prices_dict f; _update_interval := _update_interval f;
       _fetch_price_task := _fetch_price_task f;
       _fetch_bid_ask_task := _fetch_bid_ask_task f;
       created := created f; cancelled := cancelled f;
       requested := requested f; slept := slept f;
       network_warnings := network_warnings f |}.

Definition request (url : string) (f : feed) : feed :=
  {| _api_url := _api_url f; _trading_pair := _trading_pair f;
     _shared_client := _shared_client f; _ready_event := _ready_event f;
     _bid_ask_markets_dict := _bid_ask_markets_dict f;
     _prices_dict := _prices_dict f; _update_interval := _update_interval f;
     _fetch_price_task := _fetch_price_task f;
     _fetch_bid_ask_task := _fetch_bid_ask_task f;
     created := created f; cancelled := cancelled f;
     requested := requested f ++ [url]; slept := slept f;
     network_warnings := network_warnings f |}.

(** [self._bid_ask_markets_dict = resp_dict; self._ready_event.set()] *)
Definition store_bid_ask (body : string) (f : feed) : feed :=
  {| _api_url := _api_url f; _trading_pair := _trading_pair f;
     _shared_client := _shared_client f; _ready_event := true;
     _bid_ask_markets_dict := Text body;
     _prices_dict := _prices_dict f; _update_interval := _update_interval f;
     _fetch_price_task := _fetch_price_task f;
     _fetch_bid_ask_task := _fetch_bid_ask_task f;
     created := created f; cancelled := cancelled f;
     requested := requested f; slept := slept f;
     network_warnings := network_warnings f |}.

(** [self._prices_dict = resp_dict; self._ready_event.set()] *)
Definition store_prices (d : gmap string Q) (f : feed) : feed :=
  {| _api_url := _api_url f; _trading_pair := _trading_pair f;
     _shared_client := _shared_client f; _ready_event := true;
     _bid_ask_markets_dict := _bid_ask_markets_dict f;
     _prices_dict := d; _update_interval := _update_interval f;
     _fetch_price_task := _fetch_price_task f;
     _fetch_bid_ask_task := _fetch_bid_ask_task f;
     created := created f; cancelled := cancelled f;
     requested := requested f; slept := slept f;
     network_warnings := network_warnings f |}.

(** [self.logger().network(...)] *)
Definition warn (f : feed) : feed :=
  {| _api_url := _api_url f; _trading_pair := _trading_pair f;
     _shared_client := _shared_client f; _ready_event := _ready_event f;
     _bid_ask_markets_dict := _bid_ask_markets_dict f;
     _prices_dict := _prices_dict f; _update_interval := _update_interval f;
     _fetch_price_task := _fetch_price_task f;
     _fetch_bid_ask_task := _fetch_bid_ask_task f;
     created := created f; cancelled := cancelled f;
     requested := requested f; slept := slept f;
     network_warnings := S (network_warnings f) |}.

(** [await asyncio.sleep(self._update_interval)] *)
Definition sleep (f : feed) : feed :=
  {| _api_url := _api_url f; _trading_pair := _trading_pair f;
     _shared_client := _shared_client f; _ready_event := _ready_event f;
     _bid_ask_markets_dict := _bid_ask_markets_dict f;
     _prices_dict := _prices_dict f; _update_interval := _update_interval f;
     _fetch_price_task := _fetch_price_task f;
     _fetch_bid_ask_task := _fetch_bid_ask_task f;
     created := created f; cancelled := cancelled f;
     requested := requested f; slept := slept f ++ [_update_interval f];
     network_warnings := network_warnings f |}.

(** [fetch_bid_ask]: the text of a reply is cached when its status is 200. *)
Definition fetch_bid_ask (r : reply) (f : feed) : option error * feed :=
  let f := _http_client f in
  let url := (_api_url f ++ _trading_pair f)%string in
  let f := request url f in
  match r with
  | Cancelled => (Some CancelledError, f)
  | Failed => (Some ClientError, f)
  | Reply status text _ =>
      if negb (status =? 200)%Z then (Some ServerError, f)
      else (None, store_bid_ask text f)
  end.

(** [fetch_price]: the JSON of a reply is cached when its status is 200. *)
Definition fetch_price (r : reply) (f : feed) : option error * feed :=
  let f := _http_client f in
  let url := (_api_url f ++ "/price/" ++ "?markets=" ++ _trading_pair f)%string in
  let f := request url f in
  match r with
  | Cancelled => (Some CancelledError, f)
  | Failed => (Some ClientError, f)
  | Reply status text None => (Some ClientError, f)
  | Reply status text (Some resp_dict) =>
      if negb (status =? 200)%Z then (Some ServerError, f)
      else (None, store_prices resp_dict f)
  end.

(** [fetch_bid_ask_loop], for as long as the schedule lasts: a turn of the
    loop is the reply to its request and whether the sleep that follows is
    cancelled.  [None]: the loop is still running. *)
Fixpoint fetch_bid_ask_loop (schedule : list (reply * bool)) (f : feed)
    : option error * feed :=
  match schedule with
  | [] => (None, f)
  | (r, cancelled_asleep) :: schedule =>
      match fetch_bid_ask r f with
      | (Some CancelledError, f) => (Some CancelledError, f)
      | (outcome, f) =>
          let f := match outcome with Some _ => warn f | None => f end in
          if cancelled_asleep : bool then (Some CancelledError, f)
          else fetch_bid_ask_loop schedule (sleep f)
      end
  end.

(** [fetch_price_loop], likewise. *)
Fixpoint fetch_price_loop (schedule : list (reply * bool)) (f : feed)
    : option error * feed :=
  match schedule with
  | [] => (None, f)
  | (r, cancelled_asleep) :: schedule =>
      match fetch_price r f with
      | (Some CancelledError, f) => (Some CancelledError, f)
      | (outcome, f) =>
          let f := match outcome with Some _ => warn f | None => f end in
          if cancelled_asleep : bool then (Some CancelledError, f)
          else fetch_price_loop schedule (sleep f)
      end
  end.

Definition set_tasks (price bid_ask : option nat) (n : nat) (c : list nat)
    (f : feed) : feed :=
  {| _api_url := _api_url f; _trading_pair := _trading_pair f;
     _shared_client := _shared_client f; _ready_event := _ready_event f;
     _bid_ask_markets_dict := _bid_ask_markets_dict f;
     _prices_dict := _prices_dict f; _update_interval := _update_interval f;
     _fetch_price_task := price;
     _fetch_bid_ask_task := bid_ask;
     created := n; cancelled := c;
     requested := requested f; slept := slept f;
     network_warnings := network_warnings f |}.

(** [stop_network]: each task that is set is cancelled and forgotten. *)
Definition stop_network (f : feed) : feed :=
  let f :=
    match _fetch_price_task f with
    | Some t => set_tasks None (_fetch_bid_ask_task f) (created f) (cancelled f ++ [t]) f
    | None => f
    end in
  match _fetch_bid_ask_task f with
  | Some t => set_tasks (_fetch_price_task f) None (created f) (cancelled f ++ [t]) f
  | None => f
  end.

(** [start_network]: only the bid-ask loop is scheduled; the line that
    schedules [fetch_price_loop] is commented out. *)
Definition start_network (f : feed) : feed :=
  let f := stop_network f in
  set_tasks (_fetch_price_task f) (Some (created f)) (S (created f)) (cancelled f) f.

(** What the event loop may do to a feed. *)
Inductive operation : Type :=
  | StartNetwork
  | StopNetwork
  | RunBidAskLoop (schedule : list (reply * bool)).

Definition perform (f : feed) (op : operation) : feed :=
  match op with
  | StartNetwork => start_network f
  | StopNetwork => stop_network f
  | RunBidAskLoop schedule =>
      match _fetch_bid_ask_task f with
      | Some _ => (fetch_bid_ask_loop schedule f).2
      | None => f
      end
  end.

(** The tasks that were created and not cancelled. *)
Definition live (f : feed) : list nat :=
  filter (λ t, t ∉ cancelled f) (seq 0 (created f)).

(** The texts of the replies with status 200, in the order of the turns. *)
Definition good_bodies (schedule : list (reply * bool)) : list string :=
  omap (λ turn, match turn.1 with
                | Reply status text _ => if (status =? 200)%Z then Some text else None
                | _ => None
                end) schedule.

(** No turn of the schedule is cancelled. *)
Definition uncancelled (schedule : list (reply * bool)) : Prop :=
  Forall (λ turn, turn.1 ≠ Cancelled ∧ turn.2 = false) schedule.

End MarketMakingParamsDataFeed.

(** [json.loads(self.market_making_api.bid_ask_markets_json)]: a dictionary
    is not text and raises TypeError; a text goes through the parser. *)
Definition json_loads (parse : string → option (gmap string bid_ask))
    (c : MarketMakingParamsDataFeed.cached) : payload :=
  match c with
  | MarketMakingParamsDataFeed.EmptyDict => PayloadNotText
  | MarketMakingParamsDataFeed.Text body =>
      match parse body with
      | Some d => PayloadJSON d
      | None => PayloadBadText
      end
  end.

(** The world of a cycle that reads its payload from a feed. *)
Definition fed_by (parse : string → option (gmap string bid_ask))
    (f : MarketMakingParamsDataFeed.feed) (w : world) : world :=
  {| clock := clock w;
     bid_ask_markets_json :=
       json_loads parse (MarketMakingParamsDataFeed.bid_ask_markets_json f);
     get_active_orders := get_active_orders w;
     get_price := get_price w;
     get_available_balance := get_available_balance w;
     adjust_candidates := adjust_candidates w |}.

(** What a fetch leaves alone: the prices, the tasks and the interval. *)
Definition fetch_frame (f f' : MarketMakingParamsDataFeed.feed) : Prop :=
  MarketMakingParamsDataFeed._prices_dict f'
  = MarketMakingParamsDataFeed._prices_dict f
  ∧ MarketMakingParamsDataFeed._fetch_price_task f'
    = MarketMakingParamsDataFeed._fetch_price_task f
  ∧ MarketMakingParamsDataFeed._fetch_bid_ask_task f'
    = MarketMakingParamsDataFeed._fetch_bid_ask_task f
  ∧ MarketMakingParamsDataFeed.created f' = MarketMakingParamsDataFeed.created f
  ∧ MarketMakingParamsDataFeed.cancelled f'
    = MarketMakingParamsDataFeed.cancelled f
  ∧ MarketMakingParamsDataFeed._update_interval f'
    = MarketMakingParamsDataFeed._update_interval f
  ∧ MarketMakingParamsDataFeed._api_url f' = MarketMakingParamsDataFeed._api_url f
  ∧ MarketMakingParamsDataFeed._trading_pair f'
    = MarketMakingParamsDataFeed._trading_pair f.

(** The feed after one turn of [fetch_bid_ask_loop] that is not cancelled:
    the fetch, the warning if it raised, the sleep. *)
Definition turn (r : MarketMakingParamsDataFeed.reply)
    (f : MarketMakingParamsDataFeed.feed) : MarketMakingParamsDataFeed.feed :=
  let f1 := (MarketMakingParamsDataFeed.fetch_bid_ask r f).2 in
  MarketMakingParamsDataFeed.sleep
    (match (MarketMakingParamsDataFeed.fetch_bid_ask r f).1 with
     | Some _ => MarketMakingParamsDataFeed.warn f1
     | None => f1
     end).

(** The tasks of a feed are in order: no price task and no price, the live
    tasks are the one that [_fetch_bid_ask_task] refers to, and only
    tasks that were created are cancelled. *)
Definition tasks_ok (f : MarketMakingParamsDataFeed.feed) : Prop :=
  MarketMakingParamsDataFeed._fetch_price_task f = None
  ∧ MarketMakingParamsDataFeed._prices_dict f = ∅
  ∧ MarketMakingParamsDataFeed.live f
    = option_list (MarketMakingParamsDataFeed._fetch_bid_ask_task f)
  ∧ ∀ t, t ∈ MarketMakingParamsDataFeed.cancelled f
         → (t < MarketMakingParamsDataFeed.created f)%nat.

(** The reference prices of the cycle stay as they are. *)
Definition keeps_reference (s s' : state) : Prop :=
  bid_ask_markets_dict s' = bid_ask_markets_dict s.

(** The snapshots of the cycle stay as they are: the reference prices, the
    open orders and the two sides of the order books. *)
Definition keeps_snapshots (s s' : state) : Prop :=
  bid_ask_markets_dict s' = bid_ask_markets_dict s
  ∧ orders s' = orders s
  ∧ orderbook_bid s' = orderbook_bid s
  ∧ orderbook_ask s' = orderbook_ask s
  ∧ started s' = started s.

(** What Part Three checks before it accepts a proposal, read off the
    event and the snapshot [os] of the open orders: the side of the pair is
    empty (and the pair is not IRIS-BTC for a buy); the amount of a buy is
    the order size of the quote currency over the price and less than
    [Decimal(0.99)] of what the available quote balance buys, each product
    and quotient rounded; the amount of a sell is the
    whole available base balance and at least the order size. *)
Definition sound (cfg : config) (w : world)
    (os : gmap string (list order * list order)) (e : event) : Prop :=
  match e with
  | EvProposal BUY tp price amount =>
      tp ≠ "IRIS-BTC"%string
      ∧ (∃ sells, os !! tp = Some ([], sells))
      ∧ ∃ base_cur quote_cur size_in_quote_units,
          split "-" tp = [base_cur; quote_cur]
          ∧ quote_curs cfg !! quote_cur = Some size_in_quote_units
          ∧ ¬ price == 0
          ∧ amount
            = round28 (round28 (size_in_quote_units * size_multiple cfg) / price)
          ∧ amount
            < round28 (round28 (get_available_balance w quote_cur / price)
                       * fl 0.99)
  | EvProposal SELL tp price amount =>
      (∃ buys, os !! tp = Some (buys, []))
      ∧ ∃ base_cur quote_cur size_in_quote_units,
          split "-" tp = [base_cur; quote_cur]
          ∧ quote_curs cfg !! quote_cur = Some size_in_quote_units
          ∧ amount = get_available_balance w base_cur
          ∧ size_in_quote_units <= amount
  | _ => True
  end.

(** The snapshot of the open orders stays, every new event is [sound], and
    the last order time of a pair is either what it was or a clock reading
    of this run, made for a proposal of the pair that was accepted. *)
Definition proposing_soundly (cfg : config) (w : world) (s s' : state) : Prop :=
  orders s' = orders s
  ∧ (ticks s ≤ ticks s')%nat
  ∧ ∃ new,
      events s' = events s ++ new
      ∧ Forall (sound cfg w (orders s)) new
      ∧ ∀ tp,
          last_order_time s' !! tp = last_order_time s !! tp
          ∨ ∃ side k,
              (side, tp) ∈ accepts new
              ∧ (ticks s ≤ k < ticks s')%nat
              ∧ last_order_time s' !! tp = Some (clock w k).

(** The dictionary that filing the orders of [active] with pair [tp] and
    side [is_buy] one by one into [d] gives. *)
Definition filed (tp : string) (is_buy : bool) (active : list order)
    (d : list order) : list order :=
  foldl dict_set d
    (filter (λ o, o_trading_pair o = tp ∧ o_is_buy o = is_buy) active).

(** The number of occurrences of [sep] in [s]. *)
Fixpoint occurrences (sep : ascii) (s : string) : nat :=
  match s with
  | EmptyString => 0
  | String c s' => (if Ascii.eqb c sep then 1 else 0) + occurrences sep s'
  end.

(** X-BTC with the stale marker 0 as reference and a best bid of 0. *)
Definition zero_bid_state : state :=
  {| started := true;
     bid_ask_markets_dict := {[ "X-BTC"%string := BidAsk (JNum 0) (JNum 0) ]};
     orders := {[ "X-BTC"%string := ([], []) ]};
     orderbook_bid := {[ "X-BTC"%string := Fin 0 ]};
     orderbook_ask := {[ "X-BTC"%string := Fin 0.00112 ]};
     trading_pair := None;
     last_cancel_time := {[ "X-BTC"%string := 0 ]};
     last_order_time := {[ "X-BTC"%string := 0 ]};
     ticks := 1;
     events := [] |}.

(** The world with another budget checker. *)
Definition with_budget_checker
    (adjust : list OrderCandidate → list OrderCandidate) (w : world) : world :=
  {| clock := clock w;
     bid_ask_markets_json := bid_ask_markets_json w;
     get_active_orders := get_active_orders w;
     get_price := get_price w;
     get_available_balance := get_available_balance w;
     adjust_candidates := adjust |}.

Definition is_place (e : event) : bool :=
  match e with EvPlace _ => true | _ => false end.

(** Two states that differ at most in the orders that were placed. *)
Definition same_but_placed (s1 s2 : state) : Prop :=
  started s1 = started s2
  ∧ bid_ask_markets_dict s1 = bid_ask_markets_dict s2
  ∧ orders s1 = orders s2
  ∧ orderbook_bid s1 = orderbook_bid s2
  ∧ orderbook_ask s1 = orderbook_ask s2
  ∧ trading_pair s1 = trading_pair s2
  ∧ last_cancel_time s1 = last_cancel_time s2
  ∧ last_order_time s1 = last_order_time s2
  ∧ ticks s1 = ticks s2
  ∧ filter (λ e, is_place e = false) (events s1)
    = filter (λ e, is_place e = false) (events s2).

(** Two programs that return the same and keep two states related when
    they start from related states. *)
Definition sim {A} (R : state → state → Prop) (m1 m2 : M A) : Prop :=
  ∀ s1 s2, R s1 s2 →
    (m1 s1).1 = (m2 s2).1 ∧ R (m1 s1).2 (m2 s2).2.

(** The trading pair that an event is about. *)
Definition pair_of (e : event) : option string :=
  match e with
  | EvCancel _ tp _ | EvBadReference tp | EvProposal _ tp _ _ => Some tp
  | EvStart | EvPlace _ => None
  end.

(** Only the pair [tp] is touched: the events are about [tp] (or place
    orders) and the time stamps of every other pair stay. *)
Definition touching (tp : string) (s s' : state) : Prop :=
  (ticks s ≤ ticks s')%nat
  ∧ (∀ tp', tp' ≠ tp →
       last_order_time s' !! tp' = last_order_time s !! tp'
       ∧ last_cancel_time s' !! tp' = last_cancel_time s !! tp')
  ∧ ∃ new,
      events s' = events s ++ new
      ∧ Forall (λ e, ∀ tp', pair_of e = Some tp' → tp' = tp) new.

(** While the last order of [tp] was made at [t] and the clock stays
    within the debounce interval after [t], no proposal of [tp] is
    accepted and its last order time stays. *)
Definition debounced (cfg : config) (w : world) (tp : string) (t : Q)
    (s s' : state) : Prop :=
  (ticks s ≤ ticks s')%nat
  ∧ ∃ new,
      events s' = events s ++ new
      ∧ (last_order_time s !! tp = Some t →
         (∀ k, (ticks s ≤ k)%nat →
               clock w k < t + time_between_orders_for_trading_pair cfg) →
         last_order_time s' !! tp = Some t
         ∧ ∀ side, (side, tp) ∉ accepts new).

(** The reference of a pair is marked stale: its bid or its ask is not
    positive. *)
Definition stale (d : gmap string bid_ask) (tp : string) : Prop :=
  ∃ bid_ask_dict,
    d !! tp = Some bid_ask_dict
    ∧ jnum_le0 (bid bid_ask_dict) || jnum_le0 (ask bid_ask_dict) = true.

(** The reference prices stay, and while [tp] is marked stale none of its
    orders is cancelled. *)
Definition sparing (tp : string) (s s' : state) : Prop :=
  bid_ask_markets_dict s' = bid_ask_markets_dict s
  ∧ ∃ new,
      events s' = events s ++ new
      ∧ (stale (bid_ask_markets_dict s) tp →
         Forall (λ e, ∀ r id, e ≠ EvCancel r tp id) new).

(** X-BTC holds a buy order while the feed marks it stale. *)
Definition stale_order_world : world :=
  scenario_world ["X-BTC"%string]
    (PayloadJSON {[ "X-BTC"%string := BidAsk (JNum 0) (JNum 0) ]})
    [Order "X-BTC" true "b1" 0.00105].

(** X-BTC holds a buy order while its reference bid is NaN. *)
Definition nan_state : state :=
  {| started := true;
     bid_ask_markets_dict := {[ "X-BTC"%string := BidAsk JNaN (JNum (fl 0.0011)) ]};
     orders := {[ "X-BTC"%string := ([Order "X-BTC" true "buy-1" 0.00105], []) ]};
     orderbook_bid := {[ "X-BTC"%string := Fin 0.00098 ]};
     orderbook_ask := {[ "X-BTC"%string := Fin 0.00112 ]};
     trading_pair := None;
     last_cancel_time := {[ "X-BTC"%string := 0 ]};
     last_order_time := {[ "X-BTC"%string := 0 ]};
     ticks := 1;
     events := [] |}.

(** No entry of the dictionaries that are keyed by trading pair is lost. *)
Definition keeps_pairs (s s' : state) : Prop :=
  ∀ tp,
    (is_Some (orders s !! tp) → is_Some (orders s' !! tp))
    ∧ (is_Some (last_order_time s !! tp) → is_Some (last_order_time s' !! tp))
    ∧ (is_Some (last_cancel_time s !! tp) → is_Some (last_cancel_time s' !! tp)).

(** Every trading pair has the entries that the class body gives it. *)
Definition tracked (cfg : config) (s : state) : Prop :=
  ∀ tp, tp ∈ trading_pairs cfg →
    is_Some (orders s !! tp)
    ∧ is_Some (last_order_time s !! tp)
    ∧ is_Some (last_cancel_time s !! tp).

(** The inputs of a cycle are in order: the payload parses to [d]; every
    trading pair has a positive reference bid and ask in [d], a name
    base-quote whose quote currency has an order size, a best bid and a
    best ask that are numbers, and a best bid that is not negative; every
    active order is of a trading pair; the buy place ratio is below 1. *)
Definition well_formed (cfg : config) (w : world) (d : gmap string bid_ask)
    : Prop :=
  bid_ask_markets_json w = PayloadJSON d
  ∧ (∀ tp, tp ∈ trading_pairs cfg →
       (∃ ref_bid ref_ask,
          d !! tp = Some (BidAsk (JNum ref_bid) (JNum ref_ask))
          ∧ 0 < ref_bid ∧ 0 < ref_ask)
       ∧ (∃ base_cur quote_cur,
            split "-" tp = [base_cur; quote_cur]
            ∧ is_Some (quote_curs cfg !! quote_cur))
       ∧ (∃ top_bid top_ask,
            get_price w tp false = Fin top_bid
            ∧ get_price w tp true = Fin top_ask
            ∧ 0 <= top_bid))
  ∧ (∀ o, o ∈ get_active_orders w → o_trading_pair o ∈ trading_pairs cfg)
  ∧ buy_place_ratio cfg < 1.

(** The snapshots of a cycle with the payload [d] are taken. *)
Definition ready (cfg : config) (w : world) (d : gmap string bid_ask)
    (s : state) : Prop :=
  bid_ask_markets_dict s = d
  ∧ ∀ tp, tp ∈ trading_pairs cfg →
      is_Some (orders s !! tp)
      ∧ orderbook_bid s !! tp = Some (get_price w tp false)
      ∧ orderbook_ask s !! tp = Some (get_price w tp true)
      ∧ is_Some (last_order_time s !! tp).

(** X-BTC with a fair reference, no open order, a best bid of 0.00098 and
    an empty ask side of the order book: the best ask is NaN. *)
Definition empty_book_world : world :=
  {| clock := λ k, if (k <? 1)%nat then 0 else 1000;
     bid_ask_markets_json := PayloadJSON {[ "X-BTC"%string := fair ]};
     get_active_orders := [];
     get_price := λ _ is_buy, if is_buy : bool then NaN else Fin 0.00098;
     get_available_balance := λ _, 1;
     adjust_candidates := λ l, l |}.

(** ** The cancellations and the prices of a cycle *)

(** The open orders of a pair as the snapshot of a cycle files them: the
    buy orders and the sell orders. *)
Definition open_orders (w : world) (tp : string) : list order * list order :=
  (filed tp true (get_active_orders w) [],
   filed tp false (get_active_orders w) []).

(** The snapshots of a cycle with the payload [d] are taken: the reference
    prices, and for every trading pair its open orders and the two sides
    of its order book. *)
Definition snapshots_taken (cfg : config) (w : world) (d : gmap string bid_ask)
    (s : state) : Prop :=
  bid_ask_markets_dict s = d
  ∧ ∀ tp, tp ∈ trading_pairs cfg →
      orders s !! tp = Some (open_orders w tp)
      ∧ orderbook_bid s !! tp = Some (get_price w tp false)
      ∧ orderbook_ask s !! tp = Some (get_price w tp true).

(** The orders of [tp] that Part One cancels when the reference prices are
    [d]: none when the reference of the pair is marked stale. *)
Definition part_one_cancels (cfg : config) (w : world) (d : gmap string bid_ask)
    (tp : string) : list order :=
  match d !! tp with
  | Some (BidAsk (JNum ref_bid) (JNum ref_ask)) =>
      if Qle_bool ref_bid 0 || Qle_bool ref_ask 0 then []
      else unprofitable cfg ref_bid ref_ask (open_orders w tp)
  | _ => []
  end.

(** The orders of [tp] that Part Two cancels. *)
Definition part_two_cancels (cfg : config) (w : world) (d : gmap string bid_ask)
    (tp : string) : list order :=
  match d !! tp, get_price w tp false, get_price w tp true with
  | Some (BidAsk (JNum ref_bid) (JNum ref_ask)), Fin top_bid, Fin top_ask =>
      if Qle_bool ref_bid 0 || Qle_bool ref_ask 0 then []
      else outbid cfg top_bid top_ask (open_orders w tp)
  | _, _, _ => []
  end.

(** The cancel calls for the orders [hits tp] of the pairs [tp] of [l], in
    the order of the loop. *)
Definition cancel_events (r : reason) (hits : string → list order)
    (l : list string) : list event :=
  concat ((λ tp, (λ o, EvCancel r tp (o_client_order_id o)) <$> hits tp) <$> l).

(** The state after the loop over the pairs [l] cancelled the orders
    [hits tp] of each of them. *)
Definition cancel_all (w : world) (r : reason) (hits : string → list order)
    (l : list string) (s : state) : state :=
  foldl (λ s tp, cancelled w r tp (hits tp) (set_trading_pair tp s)) s l.

(** X-BTC with the reference 0.999 / 1.0 and one open sell order at
    0.9995. *)
Definition boundary_world : world :=
  scenario_world ["X-BTC"%string]
    (PayloadJSON {[ "X-BTC"%string := BidAsk (JNum (fl 0.999)) (JNum 1) ]})
    [Order "X-BTC" false "sell-1" 0.9995].

(** Scenario C of the specification, with a clock that counts its
    readings: X-BTC has a fair reference, two open buy orders and two open
    sell orders; Y-BTC is marked stale and has an open buy order. *)
Definition scenario_c_world : world :=
  {| clock := λ k, inject_Z (Z.of_nat k);
     bid_ask_markets_json :=
       PayloadJSON
         (list_to_map [("X-BTC", fair);
                       ("Y-BTC", BidAsk (JNum 0) (JNum 0))]%string);
     get_active_orders :=
       [Order "X-BTC" true "buy-1" 0.00105; Order "X-BTC" true "buy-2" 0.0009;
        Order "X-BTC" false "sell-1" 0.0012; Order "X-BTC" false "sell-2" 0.00109;
        Order "Y-BTC" true "y-1" 0.00105];
     get_price := λ _ is_buy, Fin (if is_buy : bool then 0.00112 else 0.00098);
     get_available_balance := λ _, 1;
     adjust_candidates := λ l, l |}.

(** X-BTC with the reference 1.0 / 1.1, the best bid 1 and the best ask
    1.2, one open buy order, and nothing to sell. *)
Definition outbid_world (price : Q) : world :=
  {| clock := λ k, if (k <? 1)%nat then 0 else 1000;
     bid_ask_markets_json :=
       PayloadJSON {[ "X-BTC"%string := BidAsk (JNum 1) (JNum (fl 1.1)) ]};
     get_active_orders := [Order "X-BTC" true "buy-1" price];
     get_price := λ _ is_buy, Fin (if is_buy : bool then 1.2 else 1);
     get_available_balance := λ _, 0;
     adjust_candidates := λ l, l |}.

(** The class attributes with another [buy_cancel_outbid_ratio]. *)
Definition with_buy_cancel_outbid_ratio (ratio : Q) (cfg : config) : config :=
  {| buy_place_ratio := buy_place_ratio cfg;
     buy_place_max_distance := buy_place_max_distance cfg;
     buy_cancel_unprofitable_ratio := buy_cancel_unprofitable_ratio cfg;
     buy_cancel_outbid_ratio := ratio;
     sell_place_ratio := sell_place_ratio cfg;
     sell_place_max_distance := sell_place_max_distance cfg;
     sell_cancel_unprofitable_ratio := sell_cancel_unprofitable_ratio cfg;
     sell_cancel_outbid_ratio := sell_cancel_outbid_ratio cfg;
     time_between_orders_for_trading_pair :=
       time_between_orders_for_trading_pair cfg;
     trading_pairs := trading_pairs cfg;
     quote_curs := quote_curs cfg;
     size_multiple := size_multiple cfg |}.

(** Two pairs with a fair reference, a best bid of 0.00098 and a best ask
    of 0.00112, and a clock that counts its readings: X-BTC has two open
    buy orders and two open sell orders, Y-BTC has none. *)
Definition scenario_outbid_world : world :=
  {| clock := λ k, inject_Z (Z.of_nat k);
     bid_ask_markets_json :=
       PayloadJSON (list_to_map [("X-BTC", fair); ("Y-BTC", fair)]%string);
     get_active_orders :=
       [Order "X-BTC" true "buy-1" 0.00097; Order "X-BTC" true "buy-2" 0.0009;
        Order "X-BTC" false "sell-1" 0.0012; Order "X-BTC" false "sell-2" 0.00113];
     get_price := λ _ is_buy, Fin (if is_buy : bool then 0.00112 else 0.00098);
     get_available_balance := λ _, 1;
     adjust_candidates := λ l, l |}.

(** [buy_price_max] and [sell_price_min] of Part Three for a reference
    price that is a number. *)
Definition buy_price_max (cfg : config) (ref_price_buy : Q) : Q :=
  round28 (ref_price_buy * float_sub 1 (buy_place_ratio cfg)).

Definition sell_price_min (cfg : config) (ref_price_sell : Q) : Q :=
  round28 (ref_price_sell * float_add 1 (sell_place_ratio cfg)).

(** What Part Three computed for a proposal, read off the event and the
    snapshots of [s]: the pair is a trading pair, its reference bid and
    ask are numbers, the best price of its side is a number within the
    distance bound, and the price is [buy_price] or [sell_price]. *)
Definition priced (cfg : config) (s : state) (e : event) : Prop :=
  match e with
  | EvProposal BUY tp price _ =>
      tp ∈ trading_pairs cfg
      ∧ ∃ ref_bid ref_ask top_bid,
          bid_ask_markets_dict s !! tp
          = Some (BidAsk (JNum ref_bid) (JNum ref_ask))
          ∧ orderbook_bid s !! tp = Some (Fin top_bid)
          ∧ top_bid <= buy_distance_bound cfg (buy_price_max cfg ref_bid)
          ∧ price = buy_price (buy_price_max cfg ref_bid) top_bid
  | EvProposal SELL tp price _ =>
      tp ∈ trading_pairs cfg
      ∧ ∃ ref_bid ref_ask top_ask,
          bid_ask_markets_dict s !! tp
          = Some (BidAsk (JNum ref_bid) (JNum ref_ask))
          ∧ orderbook_ask s !! tp = Some (Fin top_ask)
          ∧ sell_distance_bound cfg (sell_price_min cfg ref_ask) <= top_ask
          ∧ price = sell_price (sell_price_min cfg ref_ask) top_ask
  | _ => True
  end.

(** The reference prices and the order books stay, and every new event is
    [priced]. *)
Definition pricing (cfg : config) (s s' : state) : Prop :=
  bid_ask_markets_dict s' = bid_ask_markets_dict s
  ∧ orderbook_bid s' = orderbook_bid s
  ∧ orderbook_ask s' = orderbook_ask s
  ∧ ∃ new, events s' = events s ++ new ∧ Forall (priced cfg s) new.


(** X-BTC with a fair reference, an open buy order at 0.00099 that is
    neither unprofitable nor outbid, and a best bid of 0.00102. *)
Definition held_buy_world : world :=
  {| clock := λ k, if (k <? 1)%nat then 0 else 1000;
     bid_ask_markets_json := PayloadJSON {[ "X-BTC"%string := fair ]};
     get_active_orders := [Order "X-BTC" true "buy-1" 0.00099];
     get_price := λ _ is_buy, Fin (if is_buy : bool then 0.00112 else 0.00102);
     get_available_balance := λ _, 1;
     adjust_candidates := λ l, l |}.
(** ** Rounding *)

Lemma digits_fuel_spec fuel : ∀ b p,
  (2 ≤ b)%Z → (0 < p)%Z → (p < 2 ^ Z.of_nat fuel)%Z →
  (1 ≤ digits_fuel fuel b p
   ∧ b ^ (digits_fuel fuel b p - 1) ≤ p < b ^ digits_fuel fuel b p)%Z.
Proof.
  induction fuel as [|fuel IH]; intros b p Hb Hp Hlt.
  - change (2 ^ Z.of_nat 0)%Z with 1%Z in Hlt. lia.
  - cbn [digits_fuel]. destruct (Z.ltb_spec p b) as [Hs|Hs].
    + change (1 - 1)%Z with 0%Z. rewrite Z.pow_0_r, Z.pow_1_r. lia.
    + assert (0 < p / b)%Z as Hq by (apply Z.div_str_pos; lia).
      assert (p / b < 2 ^ Z.of_nat fuel)%Z as Hq'.
      { apply Z.div_lt_upper_bound; [lia|].
        rewrite Nat2Z.inj_succ, Z.pow_succ_r in Hlt by lia. nia. }
      destruct (IH b (p / b)%Z Hb Hq Hq') as (H1 & H2 & H3).
      set (k := digits_fuel fuel b (p / b)) in *.
      replace (1 + k - 1)%Z with (Z.succ (k - 1)) by lia.
      replace (1 + k)%Z with (Z.succ k) by lia.
      rewrite !Z.pow_succ_r by lia.
      pose proof (Z.mul_div_le p b ltac:(lia)).
      pose proof (Z.mul_succ_div_gt p b ltac:(lia)).
      split; [lia|]. split; nia.
Qed.

Lemma digits_spec b p :
  (2 ≤ b)%Z → (0 < p)%Z →
  (1 ≤ digits b p ∧ b ^ (digits b p - 1) ≤ p < b ^ digits b p)%Z.
Proof.
  intros Hb Hp. apply digits_fuel_spec; [done..|].
  rewrite Nat2Z.inj_succ, Z2Nat.id by apply Z.log2_nonneg.
  by apply Z.log2_spec.
Qed.

Lemma base_positive b : (2 ≤ b)%Z → 0 < inject_Z b.
Proof. intros Hb. change 0 with (inject_Z 0). rewrite <- Zlt_Qlt. lia. Qed.

Lemma Qabs_quotient x :
  Qabs x == inject_Z (Z.abs (Qnum x)) / inject_Z (Zpos (Qden x)).
Proof.
  destruct x as [n d]. cbn [Qnum Qden Qabs].
  rewrite (Qmake_Qdiv (Z.abs n) d). reflexivity.
Qed.

(** The leading digit of [x] is at the exponent [magnitude b x]. *)
Lemma magnitude_le b x :
  (2 ≤ b)%Z → ¬ x == 0 → inject_Z b ^ magnitude b x <= Qabs x.
Proof.
  intros Hb Hx. unfold magnitude.
  set (n := Z.abs (Qnum x)). set (d := Zpos (Qden x)).
  destruct (Qle_bool _ (Qabs x)) eqn:E; [by apply Qle_bool_iff|].
  assert (0 < n)%Z as Hn.
  { subst n. destruct x as [[|p|p] q]; [|done..]. by destruct Hx. }
  destruct (digits_spec b n Hb Hn) as (Hn1 & Hn2 & _).
  destruct (digits_spec b d Hb ltac:(done)) as (Hd1 & _ & Hd2).
  assert (0 < inject_Z b) as HB.
  { change 0 with (inject_Z 0). rewrite <- Zlt_Qlt. lia. }
  assert (¬ inject_Z b == 0) as HB' by (intros E'; rewrite E' in HB; done).
  replace (digits b n - digits b d - 1)%Z
    with ((digits b n - 1) + - digits b d)%Z by lia.
  rewrite Qpower_plus, Qpower_opp by done.
  rewrite <- !Zpower_Qpower by lia.
  rewrite (Qabs_quotient x). fold n d.
  assert (0 < inject_Z d) as Hd0 by done.
  assert (0 < inject_Z (b ^ digits b d)) as Hp0.
  { change 0 with (inject_Z 0). rewrite <- Zlt_Qlt. lia. }
  rewrite Zle_Qle in Hn2. rewrite Zlt_Qlt in Hd2.
  unfold Qdiv.
  apply Qle_trans with (inject_Z n * / inject_Z (b ^ digits b d)).
  - apply Qmult_le_compat_r; [done|]. apply Qlt_le_weak, Qinv_lt_0_compat, Hp0.
  - apply Qmult_le_l.
    + change 0 with (inject_Z 0). rewrite <- Zlt_Qlt. done.
    + apply Qlt_le_weak.
      apply -> Qinv_lt_contravar; done.
Qed.

Lemma magnitude_lt b x :
  (2 ≤ b)%Z → ¬ x == 0 → Qabs x < inject_Z b ^ (magnitude b x + 1).
Proof.
  intros Hb Hx. unfold magnitude.
  set (n := Z.abs (Qnum x)). set (d := Zpos (Qden x)).
  destruct (Qle_bool _ (Qabs x)) eqn:E; cycle 1.
  { replace (digits b n - digits b d - 1 + 1)%Z with (digits b n - digits b d)%Z
      by lia.
    apply Qnot_le_lt. intros H. apply Qle_bool_iff in H. congruence. }
  assert (0 < n)%Z as Hn.
  { subst n. destruct x as [[|p|p] q]; [|done..]. by destruct Hx. }
  destruct (digits_spec b n Hb Hn) as (Hn1 & _ & Hn2).
  destruct (digits_spec b d Hb ltac:(done)) as (Hd1 & Hd2 & _).
  pose proof (base_positive b Hb) as HB.
  assert (¬ inject_Z b == 0) as HB' by (intros E'; rewrite E' in HB; done).
  replace (digits b n - digits b d + 1)%Z
    with (digits b n + - (digits b d - 1))%Z by lia.
  rewrite Qpower_plus, Qpower_opp by done.
  rewrite <- !Zpower_Qpower by lia.
  rewrite (Qabs_quotient x). fold n d.
  assert (0 < inject_Z d) as Hd0 by done.
  assert (0 < inject_Z (b ^ (digits b d - 1))) as Hp0.
  { change 0 with (inject_Z 0). rewrite <- Zlt_Qlt. apply Z.pow_pos_nonneg; lia. }
  rewrite Zlt_Qlt in Hn2. rewrite Zle_Qle in Hd2.
  unfold Qdiv.
  apply Qlt_le_trans with (inject_Z (b ^ digits b n) * / inject_Z d).
  - apply Qmult_lt_compat_r; [by apply Qinv_lt_0_compat | done].
  - apply Qmult_le_l.
    + change 0 with (inject_Z 0). rewrite <- Zlt_Qlt. apply Z.pow_pos_nonneg; lia.
    + by apply Qle_shift_inv_l; [|rewrite Qmult_comm; apply Qle_shift_div_r; [done|];
        rewrite Qmult_1_l].
Qed.


(** Rounding to the nearest integer moves by at most one half. *)
Lemma round_half_even_near n d :
  Qabs (inject_Z (round_half_even n d) - (n # d)) <= 1 # 2.
Proof.
  apply Qabs_Qle_condition.
  unfold round_half_even.
  pose proof (Z.div_mod n (Zpos d) ltac:(done)) as E.
  pose proof (Z.mod_pos_bound n (Zpos d) ltac:(done)) as Hr.
  set (q := (n / Zpos d)%Z) in *. set (r := (n mod Zpos d)%Z) in *.
  assert (∀ m, (2 * Z.abs (m * Zpos d - n) ≤ Zpos d)%Z →
               - (1 # 2) <= inject_Z m - (n # d) <= 1 # 2) as Hm.
  { intros m H. unfold Qle, Qminus, Qplus, Qopp, inject_Z. cbn. split; lia. }
  destruct (Z.compare_spec (2 * r) (Zpos d)); [destruct (Z.even q)|..];
    apply Hm; lia.
Qed.


(** Rounding moves a number by at most half a unit of its last digit. *)
Lemma round_to_near b prec x :
  (2 ≤ b)%Z →
  Qabs (round_to b prec x - x)
  <= Qabs x * ((1 # 2) * inject_Z b ^ (1 - prec)).
Proof.
  intros Hb. pose proof (base_positive b Hb) as HB.
  assert (¬ inject_Z b == 0) as HB' by (intros E'; rewrite E' in HB; done).
  unfold round_to. destruct (Qeq_bool x 0) eqn:E.
  - apply Qeq_bool_iff in E. rewrite E. done.
  - apply Qeq_bool_neq in E.
    set (e := (magnitude b x - (prec - 1))%Z).
    assert (0 < inject_Z b ^ e) as Hulp by (by apply Qpower_0_lt).
    assert (¬ inject_Z b ^ e == 0) as Hulp' by (intros E'; rewrite E' in Hulp; done).
    cbv zeta. rewrite Qred_correct.
    remember (x / inject_Z b ^ e) as y eqn:Ey.
    assert (x == y * inject_Z b ^ e) as Ex by (subst y; field; done).
    pose proof (round_half_even_near (Qnum y) (Qden y)) as Hm.
    replace (Qnum y # Qden y) with y in Hm by (by destruct y).
    set (m := inject_Z (round_half_even (Qnum y) (Qden y))) in *.
    assert (m * inject_Z b ^ e - x == (m - y) * inject_Z b ^ e) as ->
      by (rewrite Ex; ring).
    rewrite Qabs_Qmult, (Qabs_pos (inject_Z b ^ e)) by (by apply Qlt_le_weak).
    apply Qle_trans with ((1 # 2) * inject_Z b ^ e).
    { apply Qmult_le_compat_r; [done|]. by apply Qlt_le_weak. }
    assert (inject_Z b ^ e == inject_Z b ^ magnitude b x * inject_Z b ^ (1 - prec))
      as ->.
    { rewrite <- Qpower_plus by done. by replace e with (magnitude b x + (1 - prec))%Z by lia. }
    pose proof (magnitude_le b x Hb E) as Hmag.
    assert (0 < inject_Z b ^ (1 - prec)) as Hp by (by apply Qpower_0_lt).
    rewrite (Qmult_comm (Qabs x)), <- Qmult_assoc.
    apply Qmult_le_l; [done|].
    rewrite (Qmult_comm _ (Qabs x)).
    apply Qmult_le_compat_r; [done|]. by apply Qlt_le_weak.
Qed.

(** Rounding keeps the sign. *)
Lemma round_to_positive b prec x :
  (2 ≤ b)%Z → (1 ≤ prec)%Z → 0 < x → 0 < round_to b prec x.
Proof.
  intros Hb Hprec Hx. pose proof (base_positive b Hb) as HB.
  pose proof (round_to_near b prec x Hb) as H.
  apply Qabs_Qle_condition in H as [H _].
  rewrite (Qabs_pos x) in H by (by apply Qlt_le_weak).
  assert (inject_Z b ^ (1 - prec) <= 1) as Hp.
  { replace (1 - prec)%Z with (- (prec - 1))%Z by lia.
    rewrite Qpower_opp.
    assert (1 <= inject_Z b ^ (prec - 1)) as H1.
    { apply Qpower_1_le; [|lia]. change 1 with (inject_Z 1).
      rewrite <- Zle_Qle. lia. }
    apply Qle_shift_inv_r; [lra|]. lra. }
  nra.
Qed.

Lemma round_to_zero b prec x : x == 0 → round_to b prec x = 0.
Proof.
  intros E. unfold round_to. by rewrite (proj2 (Qeq_bool_iff x 0) E).
Qed.

Lemma eps28_value : eps28 == 5 # 10000000000000000000000000000.
Proof. by vm_compute. Qed.

(** The relative error of an operation of the decimal module. *)
Lemma round28_near x : Qabs (round28 x - x) <= Qabs x * eps28.
Proof. apply (round_to_near 10 28 x). lia. Qed.

Lemma round28_bounds x :
  x - Qabs x * eps28 <= round28 x <= x + Qabs x * eps28.
Proof.
  pose proof (round28_near x) as H. apply Qabs_Qle_condition in H. lra.
Qed.

Lemma round28_zero x : x == 0 → round28 x = 0.
Proof. apply round_to_zero. Qed.

Lemma round28_positive x : 0 < x → 0 < round28 x.
Proof. apply round_to_positive; lia. Qed.

Lemma round28_nonnegative x : 0 <= x → 0 <= round28 x.
Proof.
  intros H. pose proof (round28_bounds x) as [B _].
  rewrite (Qabs_pos x H), eps28_value in B. nra.
Qed.

Lemma round28_nonzero x : ¬ x == 0 → ¬ round28 x == 0.
Proof.
  intros Hx E. pose proof (round28_near x) as H. rewrite E in H.
  assert (Qabs (0 - x) == Qabs x) as Ea.
  { rewrite <- (Qabs_opp x). apply Qabs_wd. ring. }
  rewrite Ea in H. pose proof (Qabs_nonneg x) as H0.
  rewrite eps28_value in H.
  assert (Qabs x == 0) as Z by nra.
  assert (Qabs x <= 0) as L by lra.
  apply Qabs_Qle_condition in L. apply Hx. lra.
Qed.

Lemma round28_is_zero x : Qeq_bool (round28 x) 0 = Qeq_bool x 0.
Proof.
  destruct (Qeq_bool x 0) eqn:E.
  - apply Qeq_bool_iff in E. by rewrite (round28_zero x E).
  - apply Qeq_bool_neq in E. apply round28_nonzero in E.
    destruct (Qeq_bool (round28 x) 0) eqn:E'; [|done].
    by apply Qeq_bool_iff in E'.
Qed.

Lemma fl_positive x : 0 < x → 0 < fl x.
Proof. apply round_to_positive; lia. Qed.

Lemma fl_zero x : x == 0 → fl x = 0.
Proof. apply round_to_zero. Qed.

(** ** Reasoning about runs *)

Lemma Qlt_bool_decide (x y : Q) : Qlt_bool x y = bool_decide (x < y).
Proof.
  unfold Qlt_bool. destruct (Qle_bool y x) eqn:E; simpl.
  - apply Qle_bool_iff in E. rewrite bool_decide_eq_false_2; [done|].
    by apply Qle_not_lt.
  - rewrite bool_decide_eq_true_2; [done|].
    apply Qnot_le_lt. intros H. apply Qle_bool_iff in H. congruence.
Qed.

Lemma Qlt_bool_true (x y : Q) : Qlt_bool x y = true ↔ x < y.
Proof. rewrite Qlt_bool_decide. apply bool_decide_eq_true. Qed.

Lemma Qlt_bool_false (x y : Q) : Qlt_bool x y = false ↔ y <= x.
Proof.
  rewrite Qlt_bool_decide, bool_decide_eq_false. split.
  - apply Qnot_lt_le.
  - apply Qle_not_lt.
Qed.

Lemma Qle_bool_decide (x y : Q) : Qle_bool x y = bool_decide (x <= y).
Proof.
  destruct (Qle_bool x y) eqn:E.
  - apply Qle_bool_iff in E. by rewrite bool_decide_eq_true_2.
  - rewrite bool_decide_eq_false_2; [done|].
    intros H. apply Qle_bool_iff in H. congruence.
Qed.

Lemma jnum_le0_positive (q : Q) : 0 < q → jnum_le0 (JNum q) = false.
Proof.
  intros H. simpl. rewrite Qle_bool_decide.
  apply bool_decide_eq_false_2. by apply Qlt_not_le.
Qed.

Lemma run_bind {A B} (m : M A) (f : A → M B) (s : state) :
  (m ≫= f) s =
  match m s with (Ok a, s') => f a s' | (Raise e, s') => (Raise e, s') end.
Proof. reflexivity. Qed.

Lemma run_bind_ok {A B} (m : M A) (f : A → M B) s a s' :
  m s = (Ok a, s') → (m ≫= f) s = f a s'.
Proof. intros H. by rewrite run_bind, H. Qed.

Lemma run_bind_raise {A B} (m : M A) (f : A → M B) s e s' :
  m s = (Raise e, s') → (m ≫= f) s = (Raise e, s').
Proof. intros H. by rewrite run_bind, H. Qed.

Lemma run_getitem {V B} (d : gmap string V) k v (f : V → M B) s :
  d !! k = Some v → (getitem d k ≫= f) s = f v s.
Proof. intros H. unfold getitem. by rewrite H. Qed.

Lemma run_getitem_none {V B} (d : gmap string V) k (f : V → M B) s :
  d !! k = None → (getitem d k ≫= f) s = (Raise (KeyError k), s).
Proof. intros H. unfold getitem. by rewrite H. Qed.

Lemma for_each_app {X A} (l1 l2 : list X) (body : X → A → M A) a s :
  for_each (l1 ++ l2) body a s = (for_each l1 body a ≫= for_each l2 body) s.
Proof.
  revert a s. induction l1 as [|x l1 IH]; intros a s; [done|].
  simpl. rewrite !run_bind.
  destruct (body x a s) as [[a'|e] s']; [|done].
  by rewrite IH, run_bind.
Qed.


Lemma run_read {A B} (f : state → A) (k : A → M B) s :
  (read f ≫= k) s = k (f s) s.
Proof. reflexivity. Qed.

Lemma run_modify {B} (f : state → state) (k : unit → M B) s :
  (modify f ≫= k) s = k tt (f s).
Proof. reflexivity. Qed.

Lemma run_emit {B} (e : event) (k : unit → M B) s :
  (emit e ≫= k) s = k tt (record e s).
Proof. reflexivity. Qed.

Lemma run_ret {A B} (a : A) (k : A → M B) s : (mret a ≫= k) s = k a s.
Proof. reflexivity. Qed.

Lemma run_lift {A B} (r : res A) (k : A → M B) s :
  (lift r ≫= k) s =
  match r with Ok a => k a s | Raise e => (Raise e, s) end.
Proof. by destruct r. Qed.

Lemma run_time_time {B} w (k : Q → M B) s :
  (time_time w ≫= k) s = k (clock w (ticks s)) (tick s).
Proof. reflexivity. Qed.

(** *** Cancellation loops *)

Lemma cancelled_nil w r tp s : cancelled w r tp [] s = s.
Proof.
  destruct s. unfold cancelled. simpl.
  by rewrite Nat.add_0_r, app_nil_r.
Qed.

Lemma cancelled_app w r tp l1 l2 s :
  cancelled w r tp l2 (cancelled w r tp l1 s) = cancelled w r tp (l1 ++ l2) s.
Proof.
  destruct l2 as [|o2 l2].
  { by rewrite cancelled_nil, app_nil_r. }
  unfold cancelled. simpl.
  rewrite length_app, fmap_app, <- !app_assoc, Nat.add_assoc. simpl.
  f_equal.
  destruct l1 as [|o1 l1]; simpl.
  - done.
  - by rewrite insert_insert_eq.
Qed.

Lemma cancel_run w r tp o n s :
  cancel w r tp o n s = (Ok (S n), cancelled w r tp [o] s).
Proof.
  unfold cancel, cancelled. simpl.
  unfold mbind, M_bind, bind, emit, modify, time_time, mret, M_ret, ret. simpl.
  replace (ticks s + 1 - 1)%nat with (ticks s) by lia.
  by replace (ticks s + 1)%nat with (S (ticks s)) by lia.
Qed.

Lemma cancel_if_above_run w r tp thr o n s :
  cancel_if_above w r tp (Fin thr) o n s =
  if decide (thr < o_price o)
  then (Ok (S n), cancelled w r tp [o] s)
  else (Ok n, s).
Proof.
  unfold cancel_if_above. rewrite run_bind. unfold lift. simpl.
  rewrite Qlt_bool_decide.
  case_bool_decide; [rewrite decide_True by done | rewrite decide_False by done];
    [apply cancel_run | done].
Qed.

Lemma cancel_if_below_run w r tp thr o n s :
  cancel_if_below w r tp (Fin thr) o n s =
  if decide (o_price o < thr)
  then (Ok (S n), cancelled w r tp [o] s)
  else (Ok n, s).
Proof.
  unfold cancel_if_below. rewrite run_bind. unfold lift. simpl.
  rewrite Qlt_bool_decide.
  case_bool_decide; [rewrite decide_True by done | rewrite decide_False by done];
    [apply cancel_run | done].
Qed.

Lemma cancel_loop_above w r tp thr l n s :
  for_each l (cancel_if_above w r tp (Fin thr)) n s =
  let hit := filter (λ o, thr < o_price o) l in
  (Ok (n + length hit)%nat, cancelled w r tp hit s).
Proof.
  revert n s. induction l as [|o l IH]; intros n s; simpl.
  { by rewrite Nat.add_0_r, cancelled_nil. }
  rewrite run_bind, cancel_if_above_run, filter_cons.
  destruct (decide _); rewrite IH; simpl; [|done].
  rewrite (cancelled_app w r tp [o]). simpl. do 2 f_equal. lia.
Qed.

Lemma cancel_loop_below w r tp thr l n s :
  for_each l (cancel_if_below w r tp (Fin thr)) n s =
  let hit := filter (λ o, o_price o < thr) l in
  (Ok (n + length hit)%nat, cancelled w r tp hit s).
Proof.
  revert n s. induction l as [|o l IH]; intros n s; simpl.
  { by rewrite Nat.add_0_r, cancelled_nil. }
  rewrite run_bind, cancel_if_below_run, filter_cons.
  destruct (decide _); rewrite IH; simpl; [|done].
  rewrite (cancelled_app w r tp [o]). simpl. do 2 f_equal. lia.
Qed.

Lemma part_one_pair_run cfg w tp n s ref_bid ref_ask top_bid top_ask sides :
  bid_ask_markets_dict s !! tp = Some (BidAsk (JNum ref_bid) (JNum ref_ask)) →
  orderbook_bid s !! tp = Some top_bid →
  orderbook_ask s !! tp = Some top_ask →
  orders s !! tp = Some sides →
  0 < ref_bid → 0 < ref_ask →
  part_one_pair cfg w tp n s =
  let hit := unprofitable cfg ref_bid ref_ask sides in
  (Ok (n + length hit)%nat,
   cancelled w Unprofitable tp hit (set_trading_pair tp s)).
Proof.
  intros Hd Hb Ha Ho Hpb Hps. unfold part_one_pair.
  rewrite run_modify, run_read, (run_getitem _ _ _ _ _ Hd).
  rewrite run_read, (run_getitem _ _ _ _ _ Hb).
  rewrite run_read, (run_getitem _ _ _ _ _ Ha).
  cbn [bid ask]. rewrite !jnum_le0_positive by done. cbn [orb].
  rewrite run_read, (run_getitem _ _ _ _ _ Ho).
  cbn [dec_mul Decimal]. rewrite run_bind, cancel_loop_above. cbv zeta.
  cbv beta iota. rewrite run_read.
  rewrite (run_getitem _ _ sides) by done.
  rewrite cancel_loop_below. cbv zeta.
  rewrite cancelled_app. unfold unprofitable.
  by rewrite length_app, Nat.add_assoc.
Qed.

Lemma part_two_pair_run cfg w tp n s ref_bid ref_ask top_bid top_ask sides :
  bid_ask_markets_dict s !! tp = Some (BidAsk (JNum ref_bid) (JNum ref_ask)) →
  orderbook_bid s !! tp = Some (Fin top_bid) →
  orderbook_ask s !! tp = Some (Fin top_ask) →
  orders s !! tp = Some sides →
  0 < ref_bid → 0 < ref_ask →
  part_two_pair cfg w tp n s =
  let hit := outbid cfg top_bid top_ask sides in
  (Ok (n + length hit)%nat,
   cancelled w Outbid tp hit (set_trading_pair tp s)).
Proof.
  intros Hd Hb Ha Ho Hpb Hps. unfold part_two_pair.
  rewrite run_modify, run_read, (run_getitem _ _ _ _ _ Hd).
  rewrite run_read, (run_getitem _ _ _ _ _ Hb).
  rewrite run_read, (run_getitem _ _ _ _ _ Ha).
  cbn [bid ask]. rewrite !jnum_le0_positive by done. cbn [orb].
  rewrite run_read, (run_getitem _ _ _ _ _ Ho).
  cbn [dec_mul]. rewrite run_bind, cancel_loop_below. cbv zeta.
  cbv beta iota. rewrite run_read.
  rewrite (run_getitem _ _ sides) by done.
  rewrite cancel_loop_above. cbv zeta.
  rewrite cancelled_app. unfold outbid.
  by rewrite length_app, Nat.add_assoc.
Qed.

(** A pair whose reference bid or ask is not positive is left alone by
    Part One and by Part Two. *)
Lemma part_one_pair_stale cfg w tp n s e top_bid top_ask :
  bid_ask_markets_dict s !! tp = Some e →
  orderbook_bid s !! tp = Some top_bid →
  orderbook_ask s !! tp = Some top_ask →
  jnum_le0 (bid e) || jnum_le0 (ask e) = true →
  part_one_pair cfg w tp n s = (Ok n, set_trading_pair tp s).
Proof.
  intros Hd Hb Ha Hle. unfold part_one_pair.
  rewrite run_modify, run_read, (run_getitem _ _ _ _ _ Hd).
  rewrite run_read, (run_getitem _ _ _ _ _ Hb).
  rewrite run_read, (run_getitem _ _ _ _ _ Ha).
  by rewrite Hle.
Qed.

Lemma part_two_pair_stale cfg w tp n s e top_bid top_ask :
  bid_ask_markets_dict s !! tp = Some e →
  orderbook_bid s !! tp = Some top_bid →
  orderbook_ask s !! tp = Some top_ask →
  jnum_le0 (bid e) || jnum_le0 (ask e) = true →
  part_two_pair cfg w tp n s = (Ok n, set_trading_pair tp s).
Proof.
  intros Hd Hb Ha Hle. unfold part_two_pair.
  rewrite run_modify, run_read, (run_getitem _ _ _ _ _ Hd).
  rewrite run_read, (run_getitem _ _ _ _ _ Hb).
  rewrite run_read, (run_getitem _ _ _ _ _ Ha).
  by rewrite Hle.
Qed.

(** *** Relations kept by every run *)

Section sat.
Context (R : state → state → Prop) `{!Reflexive R, !Transitive R}.

Lemma sat_ret {A} (a : A) : sat R (mret a).
Proof. intros s. simpl. reflexivity. Qed.

Lemma sat_raise {A} (e : exn) : sat R (@raise A e).
Proof. intros s. simpl. reflexivity. Qed.

Lemma sat_read {A} (f : state → A) : sat R (read f).
Proof. intros s. simpl. reflexivity. Qed.

Lemma sat_lift {A} (r : res A) : sat R (lift r).
Proof. intros s. simpl. reflexivity. Qed.

Lemma sat_getitem {V} (d : gmap string V) k : sat R (getitem d k).
Proof. unfold getitem. destruct (d !! k); [apply sat_ret | apply sat_raise]. Qed.

Lemma sat_split_pair tp : sat R (split_pair tp).
Proof.
  unfold split_pair.
  destruct (split _ tp) as [|? [|? [|? ?]]];
    first [apply sat_raise | apply (sat_ret (_, _))].
Qed.

Lemma sat_modify (f : state → state) : (∀ s, R s (f s)) → sat R (modify f).
Proof. intros H s. apply H. Qed.

Lemma sat_bind {A B} (m : M A) (f : A → M B) :
  sat R m → (∀ a, sat R (f a)) → sat R (m ≫= f).
Proof.
  intros Hm Hf s. rewrite run_bind.
  specialize (Hm s). destruct (m s) as [[a|e] s']; simpl in *; [|done].
  etrans; [exact Hm | apply Hf].
Qed.

Lemma sat_for_each {X A} (l : list X) (body : X → A → M A) a :
  (∀ x a, sat R (body x a)) → sat R (for_each l body a).
Proof.
  intros Hb. revert a. induction l as [|x l IH]; intros a; simpl.
  - apply (sat_ret a).
  - apply sat_bind; [apply Hb | apply IH].
Qed.
End sat.

#[export] Instance quiet_refl : Reflexive quiet.
Proof. by intros s. Qed.

#[export] Instance quiet_trans : Transitive quiet.
Proof.
  intros s1 s2 s3 (?&?&?&?&?) (?&?&?&?&?). unfold quiet. repeat split; congruence.
Qed.

#[export] Instance cancelling_refl r : Reflexive (cancelling r).
Proof.
  intros s. exists []. rewrite app_nil_r, Nat.add_0_r. by repeat split.
Qed.

#[export] Instance cancelling_trans r : Transitive (cancelling r).
Proof.
  intros s1 s2 s3 (n1&E1&F1&T1&L1&S1) (n2&E2&F2&T2&L2&S2).
  exists (n1 ++ n2). rewrite length_app, E2, E1, T2, T1, L2, L1, S2, S1.
  repeat split; [by rewrite app_assoc | by apply Forall_app | lia].
Qed.

#[export] Instance proposing_refl : Reflexive proposing.
Proof. intros s. exists []. rewrite app_nil_r. by repeat split. Qed.

#[export] Instance proposing_trans : Transitive proposing.
Proof.
  intros s1 s2 s3 (n1&E1&F1&L1&S1) (n2&E2&F2&L2&S2).
  exists (n1 ++ n2). rewrite E2, E1, L2, L1, S2, S1.
  repeat split; [by rewrite app_assoc | by apply Forall_app].
Qed.

Lemma quiet_cancelling r s s' : quiet s s' → cancelling r s s'.
Proof.
  intros (E&T&L&_&S). exists []. rewrite app_nil_r, Nat.add_0_r. by repeat split.
Qed.

(** One step of any program: split a bind, enter a loop, or take a branch. *)
Ltac sat_step :=
  lazymatch goal with
  | |- sat _ (_ ≫= _) => apply sat_bind; try tc_solve; [|intros ?]
  | |- sat _ (mret _) => apply sat_ret; try tc_solve
  | |- sat _ (ret _) => apply sat_ret; try tc_solve
  | |- sat _ (raise _) => apply sat_raise; try tc_solve
  | |- sat _ (read _) => apply sat_read; try tc_solve
  | |- sat _ (lift _) => apply sat_lift; try tc_solve
  | |- sat _ (getitem _ _) => apply sat_getitem; try tc_solve
  | |- sat _ (split_pair _) => apply sat_split_pair; try tc_solve
  | |- sat _ (for_each _ _ _) => apply sat_for_each; try tc_solve; intros ? ?
  | |- sat _ (if ?b then _ else _) => destruct b
  | |- sat _ (match ?x with _ => _ end) => destruct x
  end.

Lemma sat_cancel w r tp o n : sat (cancelling r) (cancel w r tp o n).
Proof.
  intros s. rewrite cancel_run. simpl.
  exists [EvCancel r tp (o_client_order_id o)]. simpl.
  repeat split. apply Forall_singleton. by destruct r.
Qed.

Lemma sat_cancel_if_above w r tp thr o n :
  sat (cancelling r) (cancel_if_above w r tp thr o n).
Proof. unfold cancel_if_above. repeat sat_step. apply sat_cancel. Qed.

Lemma sat_cancel_if_below w r tp thr o n :
  sat (cancelling r) (cancel_if_below w r tp thr o n).
Proof. unfold cancel_if_below. repeat sat_step. apply sat_cancel. Qed.

Lemma sat_set_trading_pair r tp : sat (cancelling r) (modify (set_trading_pair tp)).
Proof. apply sat_modify. intros s. by apply quiet_cancelling. Qed.

Lemma sat_part_one_pair cfg w tp n :
  sat (cancelling Unprofitable) (part_one_pair cfg w tp n).
Proof.
  unfold part_one_pair.
  repeat first [apply sat_set_trading_pair | apply sat_cancel_if_above
               | apply sat_cancel_if_below | sat_step].
Qed.

Lemma sat_part_two_pair cfg w tp n :
  sat (cancelling Outbid) (part_two_pair cfg w tp n).
Proof.
  unfold part_two_pair.
  repeat first [apply sat_set_trading_pair | apply sat_cancel_if_above
               | apply sat_cancel_if_below | sat_step].
Qed.

Lemma sat_part_one cfg w : sat (cancelling Unprofitable) (part_one cfg w).
Proof. apply sat_for_each; try tc_solve. intros. apply sat_part_one_pair. Qed.

Lemma sat_part_two cfg w : sat (cancelling Outbid) (part_two cfg w).
Proof. apply sat_for_each; try tc_solve. intros. apply sat_part_two_pair. Qed.

(** *** The counters of the cancellation loops *)

Lemma quiet_set_trading_pair tp : sat quiet (modify (set_trading_pair tp)).
Proof. by apply sat_modify. Qed.

Lemma counted_ret n : counted n (mret n).
Proof.
  intros s n' [= <-]. exists []. simpl. by rewrite app_nil_r, Nat.add_0_r.
Qed.

Lemma counted_bind_quiet {A} (m : M A) (f : A → M nat) n :
  sat quiet m → (∀ a, counted n (f a)) → counted n (m ≫= f).
Proof.
  intros Hm Hf s n'. rewrite run_bind.
  destruct (Hm s) as (E&_). destruct (m s) as [[a|e] s1]; simpl in *; [|done].
  intros H. destruct (Hf a s1 n' H) as (new&E'&->).
  exists new. by rewrite E', E.
Qed.

Lemma counted_bind (m : M nat) (f : nat → M nat) n :
  counted n m → (∀ a, counted a (f a)) → counted n (m ≫= f).
Proof.
  intros Hm Hf s n'. rewrite run_bind.
  specialize (Hm s). destruct (m s) as [[a|e] s1]; simpl in *; [|done].
  destruct (Hm a eq_refl) as (new1&E1&->).
  intros H. destruct (Hf _ s1 n' H) as (new2&E2&->).
  exists (new1 ++ new2). rewrite E2, E1, length_app, app_assoc.
  split; [done | lia].
Qed.

Lemma counted_for_each {X} (l : list X) (body : X → nat → M nat) n :
  (∀ x a, counted a (body x a)) → counted n (for_each l body n).
Proof.
  intros Hb. revert n. induction l as [|x l IH]; intros n; simpl.
  - apply counted_ret.
  - apply counted_bind; [apply Hb | apply IH].
Qed.

Lemma counted_cancel w r tp o n : counted n (cancel w r tp o n).
Proof.
  intros s n'. rewrite cancel_run. simpl. intros [= <-].
  exists [EvCancel r tp (o_client_order_id o)]. simpl. split; [done | lia].
Qed.

Ltac counted_step :=
  lazymatch goal with
  | |- counted _ (mret _) => apply counted_ret
  | |- counted _ (cancel _ _ _ _ _) => apply counted_cancel
  | |- counted _ (for_each _ _ _) => apply counted_for_each; intros ? ?
  | |- counted _ (for_each _ _ _ ≫= _) =>
      apply counted_bind; [apply counted_for_each; intros ? ? | intros ?]
  | |- counted _ (_ ≫= _) =>
      apply counted_bind_quiet;
        [first [apply quiet_set_trading_pair | sat_step] | intros ?]
  | |- counted _ (if ?b then _ else _) => destruct b
  | |- counted _ (match ?x with _ => _ end) => destruct x
  end.

Lemma counted_cancel_if_above w r tp thr o n :
  counted n (cancel_if_above w r tp thr o n).
Proof. unfold cancel_if_above. repeat counted_step. Qed.

Lemma counted_cancel_if_below w r tp thr o n :
  counted n (cancel_if_below w r tp thr o n).
Proof. unfold cancel_if_below. repeat counted_step. Qed.

Lemma counted_part_one_pair cfg w tp n : counted n (part_one_pair cfg w tp n).
Proof.
  unfold part_one_pair.
  repeat first [apply counted_cancel_if_above | apply counted_cancel_if_below
               | counted_step].
Qed.

Lemma counted_part_two_pair cfg w tp n : counted n (part_two_pair cfg w tp n).
Proof.
  unfold part_two_pair.
  repeat first [apply counted_cancel_if_above | apply counted_cancel_if_below
               | counted_step].
Qed.

Lemma counted_part_one cfg w : counted 0 (part_one cfg w).
Proof. apply counted_for_each. intros. apply counted_part_one_pair. Qed.

Lemma counted_part_two cfg w : counted 0 (part_two cfg w).
Proof. apply counted_for_each. intros. apply counted_part_two_pair. Qed.

(** *** Part Three and the snapshots *)

Lemma proposing_quietly s s' :
  events s' = events s → last_cancel_time s' = last_cancel_time s →
  started s' = started s → proposing s s'.
Proof. intros E L S. exists []. by rewrite app_nil_r. Qed.

Lemma proposing_emit e : is_part_three e = true → sat proposing (emit e).
Proof.
  intros H. apply sat_modify. intros s. exists [e]. simpl.
  repeat split. by apply Forall_singleton.
Qed.

Lemma proposing_time_time w : sat proposing (time_time w).
Proof. intros s. by apply proposing_quietly. Qed.

Lemma proposing_set_trading_pair tp : sat proposing (modify (set_trading_pair tp)).
Proof. apply sat_modify. intros s. by apply proposing_quietly. Qed.

Lemma proposing_set_last_order_time tp t :
  sat proposing (modify (set_last_order_time tp t)).
Proof. apply sat_modify. intros s. by apply proposing_quietly. Qed.

Ltac proposing_step :=
  first
    [ apply proposing_time_time
    | apply proposing_set_trading_pair
    | apply proposing_set_last_order_time
    | apply proposing_emit; reflexivity
    | sat_step ].

Lemma proposing_propose_buy cfg w tp quote_cur buy_price_max ob_bid c proposal :
  sat proposing (propose_buy cfg w tp quote_cur buy_price_max ob_bid c proposal).
Proof. unfold propose_buy. repeat proposing_step. Qed.

Lemma proposing_propose_sell cfg w tp base_cur quote_cur sell_price_min ob_ask
    c proposal :
  sat proposing
    (propose_sell cfg w tp base_cur quote_cur sell_price_min ob_ask c proposal).
Proof. unfold propose_sell. repeat proposing_step. Qed.

Lemma proposing_place_orders proposal : sat proposing (place_orders proposal).
Proof. unfold place_orders, place_order. repeat proposing_step. Qed.

Lemma proposing_part_three_pair cfg w tp c :
  sat proposing (part_three_pair cfg w tp c).
Proof.
  unfold part_three_pair.
  repeat first [apply proposing_propose_buy | apply proposing_propose_sell
               | apply proposing_place_orders | proposing_step].
Qed.

Lemma proposing_part_three cfg w : sat proposing (part_three cfg w).
Proof. apply sat_for_each; try tc_solve. intros. apply proposing_part_three_pair. Qed.

Lemma quiet_snapshot cfg w : sat quiet (snapshot cfg w).
Proof.
  unfold snapshot, reset_orders, file_order, fetch_orderbook.
  repeat first [apply sat_modify; by intros ? | sat_step].
Qed.

(** ** The order of the three parts *)

(** The events of [reconcile] are cancellations of Part One, then
    cancellations of Part Two, then events of Part Three, and a part that
    made a cancellation leaves the later ones empty. *)
Lemma reconcile_shape cfg w s :
  ∃ new1 new2 new3,
    events (reconcile cfg w s).2 = events s ++ new1 ++ new2 ++ new3
    ∧ Forall (λ e, is_cancel Unprofitable e = true) new1
    ∧ Forall (λ e, is_cancel Outbid e = true) new2
    ∧ Forall (λ e, is_part_three e = true) new3
    ∧ (new1 ≠ [] → new2 = [] ∧ new3 = [])
    ∧ (new2 ≠ [] → new3 = [])
    ∧ ∀ sm, (reconcile cfg w s).1 = Ok sm →
        num_cancels_unprofitable sm = length new1
        ∧ num_cancels_outbid sm = length new2
        ∧ (new1 ≠ [] ∨ new2 ≠ [] → proposed sm = no_proposals).
Proof.
  unfold reconcile. rewrite run_bind.
  destruct (sat_part_one cfg w s) as (new1 & E1 & F1 & _).
  pose proof (counted_part_one cfg w s) as C1.
  destruct (part_one cfg w s) as [[n1|e] s1]; simpl in E1, C1; cycle 1.
  { exists new1, [], []. rewrite !app_nil_r. by repeat split. }
  destruct (C1 n1 eq_refl) as (new1' & E1' & ->).
  rewrite E1 in E1'. apply app_inv_head in E1' as <-.
  destruct new1 as [|e1 new1]; cbn [length Nat.add Nat.ltb Nat.leb Nat.eqb]; cycle 1.
  { rewrite run_ret. cbn [Nat.eqb]. rewrite run_ret, run_time_time.
    exists (e1 :: new1), [], []. rewrite !app_nil_r. cbn.
    repeat split; try done;
      match goal with H : _ = Ok _ |- _ => by injection H as <- end. }
  rewrite run_bind.
  destruct (sat_part_two cfg w s1) as (new2 & E2 & F2 & _).
  pose proof (counted_part_two cfg w s1) as C2.
  destruct (part_two cfg w s1) as [[n2|e] s2]; simpl in E2, C2; cycle 1.
  { exists [], new2, []. rewrite !app_nil_r. cbn. rewrite E2, E1, app_nil_r.
    by repeat split. }
  destruct (C2 n2 eq_refl) as (new2' & E2' & ->).
  rewrite E2 in E2'. apply app_inv_head in E2' as <-.
  rewrite E1, app_nil_r in E2.
  destruct new2 as [|e2 new2]; cbn [length Nat.add Nat.ltb Nat.leb Nat.eqb]; cycle 1.
  { rewrite run_ret, run_time_time.
    exists [], (e2 :: new2), []. rewrite !app_nil_r. cbn.
    repeat split; try done;
      match goal with H : _ = Ok _ |- _ => by injection H as <- end. }
  rewrite run_bind.
  destruct (proposing_part_three cfg w s2) as (new3 & E3 & F3 & _).
  destruct (part_three cfg w s2) as [[p|e] s3]; simpl in E3.
  - rewrite run_time_time. exists [], [], new3. cbn. rewrite E3, E2.
    repeat split; try done;
      try match goal with H : _ = Ok _ |- _ => by injection H as <- end.
    + by rewrite app_nil_r.
    + by intros [|].
  - exists [], [], new3. cbn. rewrite E3, E2, app_nil_r. by repeat split.
Qed.

(** The events of a whole cycle: nothing but the start of the feed, or the
    events of [reconcile]. *)
Lemma on_tick_shape cfg w s :
  (on_tick cfg w s = (Ok None, set_started true (record EvStart s)))
  ∨ (∃ s0, events s0 = events s
           ∧ on_tick cfg w s = (Raise JSONDecodeError, s0))
  ∨ (∃ s0, events s0 = events s ∧ on_tick cfg w s = (Ok None, s0))
  ∨ (∃ s0 e, events s0 = events s ∧ on_tick cfg w s = (Raise e, s0))
  ∨ (∃ s0, events s0 = events s
           ∧ on_tick cfg w s =
             (match (reconcile cfg w s0).1 with
              | Ok r => Ok (Some r)
              | Raise e => Raise e
              end, (reconcile cfg w s0).2)).
Proof.
  unfold on_tick. rewrite run_read.
  destruct (started s); cbn [negb]; [|by left].
  right. destruct (bid_ask_markets_json w) as [| |d].
  - right. left. by exists s.
  - left. by exists s.
  - right. right. rewrite run_modify.
    set (s1 := set_bid_ask_markets_dict d s).
    rewrite run_bind.
    destruct (quiet_snapshot cfg w s1) as (E & _).
    destruct (snapshot cfg w s1) as [[[]|e] s2]; simpl in E.
    + right. exists s2. split; [done|]. rewrite run_bind.
      by destruct (reconcile cfg w s2) as [[r|e] s3].
    + left. by exists s2, e.
Qed.

Lemma new_events_app {A} (m : M A) s new :
  events (m s).2 = events s ++ new → new_events m s = new.
Proof. intros E. unfold new_events. by rewrite E, drop_app_length. Qed.

Lemma is_cancel_inv r e :
  is_cancel r e = true → ∃ tp id, e = EvCancel r tp id.
Proof. destruct e as [|r' tp id| | |], r; try destruct r'; naive_solver. Qed.

Lemma is_part_three_cancel r tp id : is_part_three (EvCancel r tp id) = false.
Proof. done. Qed.

(** Three runs of events of which an earlier non-empty one empties the
    later ones. *)
Lemma exclusive_parts new1 new2 new3 :
  Forall (λ e, is_cancel Unprofitable e = true) new1 →
  Forall (λ e, is_cancel Outbid e = true) new2 →
  Forall (λ e, is_part_three e = true) new3 →
  (new1 ≠ [] → new2 = [] ∧ new3 = []) →
  (new2 ≠ [] → new3 = []) →
  let new := new1 ++ new2 ++ new3 in
  ((∃ tp id, EvCancel Unprofitable tp id ∈ new) ↔ new1 ≠ [])
  ∧ ((∃ tp id, EvCancel Outbid tp id ∈ new) ↔ new2 ≠ [])
  ∧ (new1 ≠ [] ∨ new2 ≠ [] → ∀ e, e ∈ new → is_part_three e = false).
Proof.
  intros F1 F2 F3 H1 H2 new.
  rewrite Forall_forall in F1, F2, F3.
  assert (∀ r tp id, EvCancel r tp id ∈ new →
            r = Unprofitable ∧ new1 ≠ [] ∨ r = Outbid ∧ new2 ≠ []) as Hin.
  { intros r tp id. unfold new. rewrite !elem_of_app. intros [Hi|[Hi|Hi]].
    - left. split; [|by intros ->; inversion Hi].
      apply F1, is_cancel_inv in Hi as (?&?&Heq). by injection Heq.
    - right. split; [|by intros ->; inversion Hi].
      apply F2, is_cancel_inv in Hi as (?&?&Heq). by injection Heq.
    - by apply F3 in Hi. }
  split; [|split].
  - split.
    + intros (tp & id & Hi). by destruct (Hin _ _ _ Hi) as [[_ ?]|[? _]].
    + intros Hne. destruct new1 as [|e new1]; [done|].
      destruct (is_cancel_inv _ e (F1 e ltac:(left))) as (tp & id & ->).
      exists tp, id. unfold new. set_solver.
  - split.
    + intros (tp & id & Hi). by destruct (Hin _ _ _ Hi) as [[? _]|[_ ?]].
    + intros Hne. destruct new2 as [|e new2]; [done|].
      destruct (is_cancel_inv _ e (F2 e ltac:(left))) as (tp & id & ->).
      exists tp, id. unfold new. set_solver.
  - intros Hne e. unfold new. rewrite !elem_of_app. intros Hi.
    assert (new3 = []) as -> by (destruct Hne as [?|?]; naive_solver).
    destruct Hi as [Hi|[Hi|Hi]].
    + apply F1, is_cancel_inv in Hi as (?&?&Heq). by rewrite Heq.
    + apply F2, is_cancel_inv in Hi as (?&?&Heq). by rewrite Heq.
    + inversion Hi.
Qed.

(** C3. In every cycle, whether it ends normally or with an exception: if
    Part One made at least one cancellation, Part Two made none and Part
    Three made no proposal, placed no order and logged nothing; if Part One
    made none and Part Two made at least one, Part Three did nothing.  The
    counters that a completed cycle reports agree with the events. *)
Theorem cancellations_block_later_parts cfg w s :
  let new := new_events (on_tick cfg w) s in
  events (on_tick cfg w s).2 = events s ++ new
  ∧ ((∃ tp id, EvCancel Unprofitable tp id ∈ new) →
       (∀ tp id, EvCancel Outbid tp id ∉ new)
       ∧ (∀ e, e ∈ new → is_part_three e = false))
  ∧ ((∀ tp id, EvCancel Unprofitable tp id ∉ new) →
     (∃ tp id, EvCancel Outbid tp id ∈ new) →
       ∀ e, e ∈ new → is_part_three e = false)
  ∧ (∀ r, (on_tick cfg w s).1 = Ok (Some r) →
       ((0 < num_cancels_unprofitable r)%nat ↔
          ∃ tp id, EvCancel Unprofitable tp id ∈ new)
       ∧ ((0 < num_cancels_outbid r)%nat ↔
          ∃ tp id, EvCancel Outbid tp id ∈ new)
       ∧ ((0 < num_cancels_unprofitable r)%nat →
          num_cancels_outbid r = 0%nat ∧ proposed r = no_proposals)
       ∧ ((0 < num_cancels_outbid r)%nat → proposed r = no_proposals)).
Proof.
  destruct (on_tick_shape cfg w s)
    as [H|[(s0&E&H)|[(s0&E&H)|[(s0&e&E&H)|(s0&E&H)]]]].
  1: assert (events (on_tick cfg w s).2 = events s ++ [EvStart]) as En
       by (by rewrite H).
  2-4: assert (events (on_tick cfg w s).2 = events s ++ []) as En
       by (by rewrite H, app_nil_r).
  1-4: cbv zeta; rewrite (new_events_app _ _ _ En), H;
    (split; [by rewrite <- En, H|]); split; [|split];
    [ intros (?&?&Hi); set_solver
    | intros _ (?&?&Hi); set_solver
    | intros r; discriminate ].
  destruct (reconcile_shape cfg w s0)
    as (new1 & new2 & new3 & E' & F1 & F2 & F3 & H1 & H2 & Hsm).
  rewrite E in E'.
  destruct (exclusive_parts _ _ _ F1 F2 F3 H1 H2) as (X1 & X2 & X3).
  cbv zeta. rewrite (new_events_app _ _ (new1 ++ new2 ++ new3)) by (by rewrite H).
  split; [by rewrite H|]. split; [|split].
  - intros Hu. apply X1 in Hu. split; [|by apply X3; left].
    intros tp id Hi. assert (new2 ≠ []) as Hne by (apply X2; eauto).
    by destruct (H1 Hu) as [-> _].
  - intros _ Ho. apply X2 in Ho. apply X3. by right.
  - intros r Hr. rewrite H in Hr. simpl in Hr.
    destruct (reconcile cfg w s0).1 as [sm|e] eqn:Esm; [|done].
    injection Hr as ->. destruct (Hsm r eq_refl) as (N1 & N2 & N3).
    assert (∀ l : list event, (0 < length l)%nat ↔ l ≠ []) as Hlen.
    { intros [|]; simpl; split; (done || lia). }
    rewrite N1, N2, !Hlen, X1, X2.
    split; [done|]. split; [done|]. split.
    + intros Hne. destruct (H1 Hne) as [-> _]. split; [done|]. apply N3. by left.
    + intros Hne. apply N3. by right.
Qed.

(** ** The two sides of Part Three *)

(** What the buy side of a pair can do. *)
Lemma propose_buy_cases cfg w tp quote_cur buy_price_max orderbook_bid
    c proposal s :
  let run :=
    propose_buy cfg w tp quote_cur buy_price_max orderbook_bid c proposal s in
  (∃ e, run = (Raise e, s))
  ∨ run = (Ok (c, proposal), s)
  ∨ (∃ ob_bid,
       orderbook_bid = Fin ob_bid
       ∧ run = (Ok (incr_distance c, proposal), s)
       ∧ buy_distance_bound cfg buy_price_max < ob_bid)
  ∨ (∃ ob_bid,
       orderbook_bid = Fin ob_bid
       ∧ run = (Ok (incr_balance c, proposal), s)
       ∧ ob_bid <= buy_distance_bound cfg buy_price_max)
  ∨ (∃ ob_bid amount,
       let price := buy_price buy_price_max ob_bid in
       orderbook_bid = Fin ob_bid
       ∧ run =
         (Ok (incr_orders c,
              proposal ++ [Candidate (trading_pair s) BUY amount price]),
          set_last_order_time tp (clock w (ticks s))
            (tick (record (EvProposal BUY tp price amount) s)))
       ∧ ob_bid <= buy_distance_bound cfg buy_price_max
       ∧ (∃ sells, orders s !! tp = Some ([], sells))
       ∧ tp ≠ "IRIS-BTC"%string).
Proof.
  cbv zeta. unfold propose_buy, buy_distance_bound. rewrite run_read.
  destruct (orders s !! tp) as [[buys sells]|] eqn:Ho; cycle 1.
  { left. eexists. by apply run_getitem_none. }
  rewrite (run_getitem _ _ _ _ _ Ho). cbn [fst snd].
  destruct buys as [|o buys]; cbn [length Nat.eqb andb]; [|by right; left].
  destruct (String.eqb tp "IRIS-BTC") eqn:Hi; cbn [negb]; [by right; left|].
  apply String.eqb_neq in Hi. rewrite run_lift.
  destruct orderbook_bid as [ob_bid|]; cbn [compared]; [|by left; eexists].
  destruct (Qlt_bool _ ob_bid) eqn:Hd.
  { right. right. left. exists ob_bid. by apply Qlt_bool_true in Hd. }
  apply Qlt_bool_false in Hd.
  destruct (quote_curs cfg !! quote_cur) as [size|] eqn:Hq; cycle 1.
  { left. eexists. by apply run_getitem_none. }
  rewrite (run_getitem _ _ _ _ _ Hq), run_lift.
  destruct (dec_div _ _) as [amount|e]; [|by left; eexists].
  rewrite run_lift.
  destruct (dec_div _ _) as [available|e]; [|by left; eexists].
  destruct (Qlt_bool amount _).
  - right. right. right. right. exists ob_bid, amount. cbv zeta.
    split; [done|]. split; [reflexivity|]. split; [done|].
    split; [by exists sells | done].
  - right. right. right. left. by exists ob_bid.
Qed.

(** What the sell side of a pair can do. *)
Lemma propose_sell_cases cfg w tp base_cur quote_cur sell_price_min
    orderbook_ask c proposal s :
  let run :=
    propose_sell cfg w tp base_cur quote_cur sell_price_min orderbook_ask
      c proposal s in
  (∃ e, run = (Raise e, s))
  ∨ run = (Ok (c, proposal), s)
  ∨ (∃ ob_ask,
       orderbook_ask = Fin ob_ask
       ∧ run = (Ok (incr_distance c, proposal), s)
       ∧ ob_ask < sell_distance_bound cfg sell_price_min)
  ∨ (∃ ob_ask,
       orderbook_ask = Fin ob_ask
       ∧ run = (Ok (incr_balance c, proposal), s)
       ∧ sell_distance_bound cfg sell_price_min <= ob_ask)
  ∨ (∃ ob_ask amount,
       let price := sell_price sell_price_min ob_ask in
       orderbook_ask = Fin ob_ask
       ∧ run =
         (Ok (incr_orders c,
              proposal ++ [Candidate (trading_pair s) SELL amount price]),
          set_last_order_time tp (clock w (ticks s))
            (tick (record (EvProposal SELL tp price amount) s)))
       ∧ sell_distance_bound cfg sell_price_min <= ob_ask
       ∧ (∃ buys, orders s !! tp = Some (buys, []))).
Proof.
  cbv zeta. unfold propose_sell, sell_distance_bound. rewrite run_read.
  destruct (orders s !! tp) as [[buys sells]|] eqn:Ho; cycle 1.
  { left. eexists. by apply run_getitem_none. }
  rewrite (run_getitem _ _ _ _ _ Ho). cbn [fst snd].
  destruct sells as [|o sells]; cbn [length Nat.eqb]; [|by right; left].
  rewrite run_lift.
  destruct orderbook_ask as [ob_ask|]; cbn [compared]; [|by left; eexists].
  destruct (Qlt_bool ob_ask _) eqn:Hd.
  { right. right. left. exists ob_ask. by apply Qlt_bool_true in Hd. }
  apply Qlt_bool_false in Hd.
  destruct (quote_curs cfg !! quote_cur) as [size|] eqn:Hq; cycle 1.
  { left. eexists. by apply run_getitem_none. }
  rewrite (run_getitem _ _ _ _ _ Hq).
  destruct (Qle_bool size _).
  - right. right. right. right.
    exists ob_ask, (get_available_balance w base_cur).
    cbv zeta. split; [done|]. split; [reflexivity|].
    split; [done | by exists buys].
  - right. right. right. left. by exists ob_ask.
Qed.


Lemma buy_price_max_kept (buy_price_max ob_bid : Q) :
  buy_price_max <= ob_bid → buy_price buy_price_max ob_bid = buy_price_max.
Proof. intros H. unfold buy_price. apply Qlt_bool_false in H. by rewrite H. Qed.



Lemma cancel_not_part_three r new :
  Forall (λ e, is_cancel r e = true) new →
  Forall (λ e, is_part_three e = false) new.
Proof.
  intros H. eapply Forall_impl; [exact H|]. intros e He. simpl in He.
  apply is_cancel_inv in He as (tp & id & Heq). by rewrite Heq.
Qed.

(** Either Part Three does not run and the cycle has made cancellations
    only, or it runs from a state that has seen no event and no clock
    reading of this cycle. *)
Lemma reconcile_part_three cfg w s :
  (∃ new,
     events (reconcile cfg w s).2 = events s ++ new
     ∧ Forall (λ e, is_part_three e = false) new
     ∧ last_order_time (reconcile cfg w s).2 = last_order_time s
     ∧ ∀ sm, (reconcile cfg w s).1 = Ok sm →
         proposed sm = no_proposals
         ∧ (0 < num_cancels_unprofitable sm + num_cancels_outbid sm)%nat)
  ∨ (∃ s2,
       events s2 = events s ∧ ticks s2 = ticks s
       ∧ last_order_time s2 = last_order_time s
       ∧ events (reconcile cfg w s).2 = events (part_three cfg w s2).2
       ∧ last_order_time (reconcile cfg w s).2
         = last_order_time (part_three cfg w s2).2
       ∧ ∀ sm, (reconcile cfg w s).1 = Ok sm →
           (part_three cfg w s2).1 = Ok (proposed sm)).
Proof.
  unfold reconcile. rewrite run_bind.
  destruct (sat_part_one cfg w s) as (new1 & E1 & F1 & T1 & L1 & _).
  pose proof (counted_part_one cfg w s) as C1.
  destruct (part_one cfg w s) as [[n1|e] s1]; simpl in E1, C1, T1, L1; cycle 1.
  { left. exists new1. split; [done|].
    split; [by eapply cancel_not_part_three|]. by split. }
  destruct (C1 n1 eq_refl) as (new1' & E1' & ->).
  rewrite E1 in E1'. apply app_inv_head in E1' as <-.
  destruct new1 as [|e1 new1]; cbn [length Nat.add Nat.ltb Nat.leb Nat.eqb]; cycle 1.
  { rewrite run_ret. cbn [Nat.eqb]. rewrite run_ret, run_time_time.
    left. exists (e1 :: new1). cbn. split; [done|].
    split; [by eapply cancel_not_part_three|]. split; [done|].
    intros sm [= <-]. cbn. split; [done | lia]. }
  rewrite app_nil_r in E1. rewrite Nat.add_0_r in T1. rewrite run_bind.
  destruct (sat_part_two cfg w s1) as (new2 & E2 & F2 & T2 & L2 & _).
  pose proof (counted_part_two cfg w s1) as C2.
  destruct (part_two cfg w s1) as [[n2|e] s2]; simpl in E2, C2, T2, L2; cycle 1.
  { left. exists new2. cbn. rewrite E2, E1, L2, L1. split; [done|].
    split; [by eapply cancel_not_part_three|]. by split. }
  destruct (C2 n2 eq_refl) as (new2' & E2' & ->).
  rewrite E2 in E2'. apply app_inv_head in E2' as <-.
  destruct new2 as [|e2 new2]; cbn [length Nat.add Nat.ltb Nat.leb Nat.eqb]; cycle 1.
  { rewrite run_ret, run_time_time.
    left. exists (e2 :: new2). cbn. rewrite E2, E1, L2, L1. split; [done|].
    split; [by eapply cancel_not_part_three|]. split; [done|].
    intros sm [= <-]. cbn. split; [done | lia]. }
  rewrite app_nil_r in E2. rewrite Nat.add_0_r in T2. rewrite run_bind.
  right. exists s2.
  split; [congruence|]. split; [congruence|]. split; [congruence|].
  destruct (part_three cfg w s2) as [[p|e] s3]; cbn.
  - repeat split. by intros sm [= <-].
  - by repeat split.
Qed.

(** [on_tick] ends early, or fails while the snapshots are taken, or runs
    [reconcile] from a state that differs from the initial one only in the
    snapshots. *)
Lemma on_tick_reconciles cfg w s :
  (∃ s', on_tick cfg w s = (Ok None, s')
         ∧ (s' = s ∨ s' = set_started true (record EvStart s)))
  ∨ (∃ e s', on_tick cfg w s = (Raise e, s') ∧ quiet s s')
  ∨ (∃ s0, quiet s s0
           ∧ on_tick cfg w s =
             (match (reconcile cfg w s0).1 with
              | Ok r => Ok (Some r)
              | Raise e => Raise e
              end, (reconcile cfg w s0).2)).
Proof.
  unfold on_tick. rewrite run_read.
  destruct (started s); cbn [negb]; [|left; eexists; split; [done | by right]].
  destruct (bid_ask_markets_json w) as [| |d].
  - left. exists s. split; [done | by left].
  - right. left. by exists JSONDecodeError, s.
  - right. rewrite run_modify.
    set (s1 := set_bid_ask_markets_dict d s).
    rewrite run_bind.
    pose proof (quiet_snapshot cfg w s1) as Hq.
    destruct (snapshot cfg w s1) as [[[]|e] s2]; simpl in Hq.
    + right. exists s2. split; [exact Hq|]. rewrite run_bind.
      by destruct (reconcile cfg w s2) as [[r|e] s3].
    + left. by exists e, s2.
Qed.

(** ** One batch of proposals in a cycle *)

Lemma propose_buy_accepts cfg w tp quote_cur buy_price_max ob_bid c proposal s :
  let run := propose_buy cfg w tp quote_cur buy_price_max ob_bid c proposal s in
  ∃ new,
    events run.2 = events s ++ new
    ∧ (new = [] ∨ ∃ p a, new = [EvProposal BUY tp p a])
    ∧ ∀ c' proposal', run.1 = Ok (c', proposal') →
        num_orders c' = (num_orders c + length new)%nat
        ∧ skip_proposal_for_count c' = skip_proposal_for_count c.
Proof.
  cbv zeta.
  destruct (propose_buy_cases cfg w tp quote_cur buy_price_max ob_bid c proposal s)
    as [(e & ->)|[->|[(b & _ & -> & _)|[(b & _ & -> & _)|(b & a & _ & -> & _)]]]];
    cbn.
  1-4: exists []; rewrite app_nil_r; split; [done|]; split; [by left|];
    intros c' p' H; simplify_eq; cbn; split; (done || lia).
  eexists [_]. split; [done|]. split; [right; by eexists _, _|].
  intros c' p' H. simplify_eq. cbn. split; (done || lia).
Qed.

Lemma propose_sell_accepts cfg w tp base_cur quote_cur sell_price_min ob_ask
    c proposal s :
  let run :=
    propose_sell cfg w tp base_cur quote_cur sell_price_min ob_ask c proposal s in
  ∃ new,
    events run.2 = events s ++ new
    ∧ (new = [] ∨ ∃ p a, new = [EvProposal SELL tp p a])
    ∧ ∀ c' proposal', run.1 = Ok (c', proposal') →
        num_orders c' = (num_orders c + length new)%nat
        ∧ skip_proposal_for_count c' = skip_proposal_for_count c.
Proof.
  cbv zeta.
  destruct (propose_sell_cases cfg w tp base_cur quote_cur sell_price_min ob_ask
              c proposal s)
    as [(e & ->)|[->|[(b & _ & -> & _)|[(b & _ & -> & _)|(b & a & _ & -> & _)]]]];
    cbn.
  1-4: exists []; rewrite app_nil_r; split; [done|]; split; [by left|];
    intros c' p' H; simplify_eq; cbn; split; (done || lia).
  eexists [_]. split; [done|]. split; [right; by eexists _, _|].
  intros c' p' H. simplify_eq. cbn. split; (done || lia).
Qed.

Lemma place_orders_run proposal s :
  (place_orders proposal s).1 = Ok tt
  ∧ events (place_orders proposal s).2 = events s ++ (EvPlace <$> proposal).
Proof.
  unfold place_orders. revert s.
  induction proposal as [|c proposal IH]; intros s; cbn [for_each fmap list_fmap].
  { cbn. by rewrite app_nil_r. }
  rewrite run_bind. change (place_order c s) with (Ok tt, record (EvPlace c) s).
  cbv beta iota.
  destruct (IH (record (EvPlace c) s)) as (-> & ->).
  cbn. by rewrite <- app_assoc.
Qed.

Lemma accepts_app new1 new2 : accepts (new1 ++ new2) = accepts new1 ++ accepts new2.
Proof. apply omap_app. Qed.

Lemma accepts_places proposal : accepts (EvPlace <$> proposal) = [].
Proof. by induction proposal. Qed.

(** A pair that is evaluated while nothing has been accepted yet. *)
Lemma part_three_pair_accepts cfg w tp c s :
  num_orders c = 0%nat →
  let run := part_three_pair cfg w tp c s in
  ∃ new,
    events run.2 = events s ++ new
    ∧ sublist (accepts new) [(BUY, tp); (SELL, tp)]
    ∧ ∀ c', run.1 = Ok c' →
        num_orders c' = length (accepts new)
        ∧ skip_proposal_for_count c' = skip_proposal_for_count c.
Proof.
  intros Hc. cbv zeta. unfold part_three_pair. rewrite Hc. cbn [Nat.ltb Nat.leb].
  assert (∀ (r : res proposals) s',
            events s' = events s →
            (∀ c', r = Ok c' →
               num_orders c' = 0%nat
               ∧ skip_proposal_for_count c' = skip_proposal_for_count c) →
            ∃ new, events (r, s').2 = events s ++ new
              ∧ sublist (accepts new) [(BUY, tp); (SELL, tp)]
              ∧ ∀ c', (r, s').1 = Ok c' →
                  num_orders c' = length (accepts new)
                  ∧ skip_proposal_for_count c' = skip_proposal_for_count c)
    as Hquiet.
  { intros r s' E H. exists []. rewrite app_nil_r. split; [done|].
    split; [apply sublist_nil_l | exact H]. }
  rewrite run_time_time, run_read.
  destruct (last_order_time (tick s) !! tp) as [last|] eqn:Hl; cycle 1.
  { rewrite (run_getitem_none _ _ _ _ Hl). by apply Hquiet. }
  rewrite (run_getitem _ _ _ _ _ Hl).
  destruct (Qlt_bool _ _).
  { apply Hquiet; [done|]. by intros c' [= <-]. }
  rewrite run_modify, run_read.
  set (s1 := set_trading_pair tp (tick s)).
  destruct (bid_ask_markets_dict s1 !! tp) as [entry|] eqn:Hd; cycle 1.
  { rewrite (run_getitem_none _ _ _ _ Hd). by apply Hquiet. }
  rewrite (run_getitem _ _ _ _ _ Hd), run_read.
  destruct (orderbook_bid s1 !! tp) as [ob_bid|] eqn:Hb; cycle 1.
  { rewrite (run_getitem_none _ _ _ _ Hb). by apply Hquiet. }
  rewrite (run_getitem _ _ _ _ _ Hb), run_read.
  destruct (orderbook_ask s1 !! tp) as [ob_ask|] eqn:Ha; cycle 1.
  { rewrite (run_getitem_none _ _ _ _ Ha). by apply Hquiet. }
  rewrite (run_getitem _ _ _ _ _ Ha).
  assert (∃ new, events ((emit (EvBadReference tp) ≫= λ _, mret c) s1).2
                 = events s ++ new
            ∧ sublist (accepts new) [(BUY, tp); (SELL, tp)]
            ∧ ∀ c', ((emit (EvBadReference tp) ≫= λ _, mret c) s1).1 = Ok c' →
                num_orders c' = length (accepts new)
                ∧ skip_proposal_for_count c' = skip_proposal_for_count c)
    as Hbad.
  { exists [EvBadReference tp]. split; [done|]. split; [apply sublist_nil_l|].
    by intros c' [= <-]. }
  destruct (dec_mul (Decimal (bid entry)) _) as [buy_price_max|]; [|exact Hbad].
  destruct (dec_mul (Decimal (ask entry)) _) as [sell_price_min|]; [|exact Hbad].
  clear Hbad. rewrite run_bind.
  unfold split_pair.
  assert (∀ A (e : exn), (@raise A e s1).1 = Raise e ∧ (@raise A e s1).2 = s1)
    as Hraise by done.
  destruct (split "-" tp) as [|base_cur [|quote_cur [|? ?]]];
    try (by apply Hquiet).
  cbn [ret fst snd]. rewrite run_bind.
  destruct (propose_buy_accepts cfg w tp quote_cur buy_price_max ob_bid c [] s1)
    as (nb & Eb & Hnb & Hcb).
  destruct (propose_buy cfg w tp quote_cur buy_price_max ob_bid c [] s1)
    as [[[cb pb]|e] sb]; cbn in Eb, Hcb; cycle 1.
  { exists nb. split; [done|]. split; [|done].
    destruct Hnb as [->|(p & a & ->)]; [apply sublist_nil_l|].
    cbn. apply sublist_skip, sublist_nil_l. }
  destruct (Hcb _ _ eq_refl) as (Nb & Kb). cbn [fst snd]. rewrite run_bind.
  destruct (propose_sell_accepts cfg w tp base_cur quote_cur sell_price_min ob_ask
              cb pb sb) as (ns & Es & Hns & Hcs).
  assert (sublist (accepts (nb ++ ns)) [(BUY, tp); (SELL, tp)]) as Hsub.
  { rewrite accepts_app.
    destruct Hnb as [->|(p & a & ->)], Hns as [->|(p' & a' & ->)]; cbn.
    - apply sublist_nil_l.
    - apply sublist_cons, sublist_skip, sublist_nil_l.
    - apply sublist_skip, sublist_nil_l.
    - reflexivity. }
  destruct (propose_sell cfg w tp base_cur quote_cur sell_price_min ob_ask cb pb sb)
    as [[[cs ps]|e] ss]; cbn in Es, Hcs; cycle 1.
  { exists (nb ++ ns). cbn. rewrite Es, Eb, <- app_assoc. by repeat split. }
  destruct (Hcs _ _ eq_refl) as (Ns & Ks). cbn [fst snd]. rewrite run_bind.
  destruct (place_orders_run (adjust_proposal_to_budget w ps) ss) as (Rp & Ep).
  destruct (place_orders (adjust_proposal_to_budget w ps) ss) as [rp sp].
  cbn in Rp, Ep. subst rp.
  exists (nb ++ ns ++ (EvPlace <$> adjust_proposal_to_budget w ps)).
  cbn. rewrite Ep, Es, Eb, <- !app_assoc. split; [done|].
  rewrite app_assoc, accepts_app, accepts_places, app_nil_r.
  split; [done|]. intros c' [= <-].
  rewrite accepts_app, length_app.
  assert (∀ l, (l = [] ∨ ∃ p a, l = [EvProposal BUY tp p a]) →
               length (accepts l) = length l) as HlenB.
  { by intros l [->|(p & a & ->)]. }
  assert (∀ l, (l = [] ∨ ∃ p a, l = [EvProposal SELL tp p a]) →
               length (accepts l) = length l) as HlenS.
  { by intros l [->|(p & a & ->)]. }
  rewrite (HlenB _ Hnb), (HlenS _ Hns). split; [lia | congruence].
Qed.

Lemma part_three_pair_capped cfg w tp c s :
  (0 < num_orders c)%nat →
  part_three_pair cfg w tp c s = (Ok (incr_count c), s).
Proof.
  intros H. unfold part_three_pair.
  by rewrite (proj2 (Nat.ltb_lt 0 (num_orders c)) H).
Qed.

(** Once a proposal has been accepted, every further pair is skipped for
    the count and nothing else happens. *)
Lemma part_three_capped cfg w l c s :
  (0 < num_orders c)%nat →
  ∃ c', for_each l (part_three_pair cfg w) c s = (Ok c', s)
        ∧ num_orders c' = num_orders c
        ∧ skip_proposal_for_count c'
          = (skip_proposal_for_count c + length l)%nat.
Proof.
  revert c. induction l as [|tp l IH]; intros c H; cbn [for_each length].
  { exists c. by rewrite Nat.add_0_r. }
  rewrite run_bind, part_three_pair_capped by done.
  destruct (IH (incr_count c) H) as (c' & -> & N & K).
  exists c'. split; [done|]. split; [done|]. rewrite K. cbn. lia.
Qed.

Lemma part_three_loop cfg w l c s :
  num_orders c = 0%nat →
  let run := for_each l (part_three_pair cfg w) c s in
  ∃ new,
    events run.2 = events s ++ new
    ∧ ((accepts new = []
        ∧ ∀ c', run.1 = Ok c' →
            num_orders c' = 0%nat
            ∧ skip_proposal_for_count c' = skip_proposal_for_count c)
       ∨ (∃ l1 tp l2,
            l = l1 ++ tp :: l2
            ∧ accepts new ≠ []
            ∧ sublist (accepts new) [(BUY, tp); (SELL, tp)]
            ∧ ∀ c', run.1 = Ok c' →
                num_orders c' = length (accepts new)
                ∧ skip_proposal_for_count c'
                  = (skip_proposal_for_count c + length l2)%nat)).
Proof.
  cbv zeta. revert c s. induction l as [|tp l IH]; intros c s Hc; cbn [for_each].
  { exists []. rewrite app_nil_r. split; [done|]. left. split; [done|].
    by intros c' [= <-]. }
  rewrite run_bind.
  destruct (part_three_pair_accepts cfg w tp c s Hc) as (new1 & E1 & Hsub & Hc1).
  destruct (part_three_pair cfg w tp c s) as [[c1|e] s1]; cbn in E1, Hc1; cycle 1.
  { exists new1. split; [done|].
    destruct (accepts new1) as [|a acc] eqn:Ha; [by left|].
    right. exists [], tp, l. by repeat split. }
  destruct (Hc1 c1 eq_refl) as (N1 & K1).
  destruct (accepts new1) as [|a acc] eqn:Ha.
  - destruct (IH c1 s1 N1) as (new2 & E2 & Hcases).
    exists (new1 ++ new2). rewrite E2, E1, <- app_assoc. split; [done|].
    rewrite accepts_app, Ha. cbn [app].
    destruct Hcases as [(Ha2 & Hc2)|(l1 & tp' & l2 & -> & Ha2 & Hs2 & Hc2)].
    + left. split; [done|]. intros c' Hr. destruct (Hc2 c' Hr). split; congruence.
    + right. exists (tp :: l1), tp', l2. split; [done|]. split; [done|].
      split; [done|]. intros c' Hr. destruct (Hc2 c' Hr). split; congruence.
  - destruct (part_three_capped cfg w l c1 s1) as (c' & Hrun & N & K).
    { rewrite N1. cbn. lia. }
    rewrite Hrun. exists new1. split; [done|]. right.
    exists [], tp, l. rewrite Ha. split; [done|]. split; [done|].
    split; [done|]. intros c'' [= <-]. split; congruence.
Qed.

Lemma accepts_none new :
  Forall (λ e, is_part_three e = false) new → accepts new = [].
Proof.
  induction 1 as [|e new He _ IH]; [done|].
  unfold accepts in *. cbn. rewrite IH. by destruct e.
Qed.

(** ** At most one batch of proposals in a cycle *)

(** C2, as the code has it.  In every cycle the proposals accepted in Part
    Three all belong to one trading pair and are at most a buy followed by
    a sell of that pair: two orders at most, not one.  Once a pair has had
    a proposal accepted, every remaining pair is skipped for the count and
    no further proposal is accepted. *)
Theorem one_batch_per_cycle cfg w s :
  let new := new_events (on_tick cfg w) s in
  (∃ tp, sublist (accepts new) [(BUY, tp); (SELL, tp)])
  ∧ ∀ r, (on_tick cfg w s).1 = Ok (Some r) →
      num_orders (proposed r) = length (accepts new)
      ∧ ((0 < num_orders (proposed r))%nat →
           ∃ l1 tp l2,
             trading_pairs cfg = l1 ++ tp :: l2
             ∧ sublist (accepts new) [(BUY, tp); (SELL, tp)]
             ∧ skip_proposal_for_count (proposed r) = length l2)
      ∧ (num_orders (proposed r) = 0%nat →
           skip_proposal_for_count (proposed r) = 0%nat).
Proof.
  cbv zeta.
  destruct (on_tick_reconciles cfg w s)
    as [(s' & H & Hs')|[(e & s' & H & Hq)|(s0 & Hq & H)]].
  - assert (accepts (new_events (on_tick cfg w) s) = []) as ->.
    { destruct Hs' as [->| ->].
      - by rewrite (new_events_app _ _ []) by (by rewrite H, app_nil_r).
      - by rewrite (new_events_app _ _ [EvStart]) by (by rewrite H). }
    split; [exists ""%string; apply sublist_nil_l|]. intros r. by rewrite H.
  - destruct Hq as (E & _).
    rewrite (new_events_app _ _ []) by (by rewrite H, app_nil_r).
    split; [exists ""%string; apply sublist_nil_l|]. intros r. by rewrite H.
  - destruct Hq as (E & _).
    destruct (reconcile_part_three cfg w s0)
      as [(new & En & Fn & _ & Hsm)|(s2 & E2 & _ & _ & En & _ & Hsm)].
    + rewrite (new_events_app _ _ new) by (by rewrite H, <- E).
      rewrite (accepts_none _ Fn).
      split; [exists ""%string; apply sublist_nil_l|]. intros r Hr.
      rewrite H in Hr. cbn in Hr.
      destruct (reconcile cfg w s0).1 as [sm|e]; [|done].
      injection Hr as ->. rewrite (proj1 (Hsm r eq_refl)). cbn.
      split; [done|]. split; [lia | done].
    + destruct (part_three_loop cfg w (trading_pairs cfg) no_proposals s2 eq_refl)
        as (new & E3 & Hcases).
      fold (part_three cfg w) in E3, Hcases.
      rewrite (new_events_app _ _ new) by (by rewrite H; cbn; rewrite En, E3, E2, E).
      assert (∀ r, (on_tick cfg w s).1 = Ok (Some r) →
                   (part_three cfg w s2).1 = Ok (proposed r)) as Hr3.
      { intros r Hr. rewrite H in Hr. cbn in Hr.
        destruct (reconcile cfg w s0).1 as [sm|e]; [|done].
        injection Hr as ->. by apply Hsm. }
      destruct Hcases as [(Ha & Hc)|(l1 & tp & l2 & Hl & Ha & Hs & Hc)].
      * rewrite Ha. split; [exists ""%string; apply sublist_nil_l|].
        intros r Hr. destruct (Hc _ (Hr3 r Hr)) as (N & K).
        rewrite N. cbn. split; [done|]. split; [lia | done].
      * split; [by exists tp|]. intros r Hr.
        destruct (Hc _ (Hr3 r Hr)) as (N & K). split; [done|].
        split; [by intros _; exists l1, tp, l2|].
        intros N0. rewrite N0 in N. by destruct (accepts new).
Qed.

(** ** A payload that is not text *)

(** C9. When [json.loads] raises TypeError on the cached payload, the cycle
    returns at once and leaves the strategy as it was: no event, no clock
    reading, no change of [last_cancel_time] or [last_order_time]. *)
Theorem type_error_is_a_no_op cfg w s :
  started s = true →
  bid_ask_markets_json w = PayloadNotText →
  on_tick cfg w s = (Ok None, s).
Proof.
  intros Hs Hp. unfold on_tick. rewrite run_read, Hs, Hp. reflexivity.
Qed.

Lemma type_error_is_a_no_op_witness :
  on_tick scenario_a_config (quiet_world 1000) scenario_c_state
  = (Ok None, scenario_c_state).
Proof.
  apply type_error_is_a_no_op; reflexivity.
Defined.

(** ** A stale reference price in Part Three *)

(** C1 fails in Part Three.  The reference bid and ask of X-BTC are both 0,
    the value the feed is to send for stale data; Part One and Part Two skip
    the pair, but Part Three has no such test: [sell_price_min] is 0, the
    best ask 0.00112 is not below [0 * 0.98], and a sell is proposed at half
    the best ask and placed. *)
Theorem stale_reference_is_sold :
  let run :=
    on_tick scenario_a_config stale_world (running scenario_a_config stale_world) in
  bid_ask_markets_json stale_world
  = PayloadJSON {[ "X-BTC"%string := BidAsk (JNum 0) (JNum 0) ]}
  ∧ (∃ r, run.1 = Ok (Some r) ∧ num_orders (proposed r) = 1%nat)
  ∧ accepts (events run.2) = [(SELL, "X-BTC"%string)]
  ∧ (∃ price amount c,
       events run.2 = [EvProposal SELL "X-BTC" price amount; EvPlace c]
       ∧ price == 0.00112 / 2
       ∧ c_order_side c = SELL ∧ c_price c = price).
Proof.
  cbv zeta. split; [reflexivity|]. split; [eexists; by vm_compute|].
  split; [by vm_compute|]. eexists _, _, _. split; [by vm_compute|].
  by vm_compute.
Qed.

(** ** Two orders in one cycle *)

(** C2 fails as stated: with no open order for X-BTC, a best bid below
    [buy_price_max], a best ask above [sell_price_min] and enough balance,
    the cycle accepts a buy and a sell for X-BTC, two proposals; the next
    pair Y-BTC is skipped for the count. *)
Lemma two_orders_in_one_cycle :
  let cfg := default_config ["X-BTC"; "Y-BTC"]%string in
  let run := on_tick cfg two_sided_world (running cfg two_sided_world) in
  ∃ r, run.1 = Ok (Some r)
       ∧ num_orders (proposed r) = 2%nat
       ∧ skip_proposal_for_count (proposed r) = 1%nat
       ∧ accepts (events run.2) = [(BUY, "X-BTC"%string); (SELL, "X-BTC"%string)]
       ∧ ¬ (length (accepts (events run.2)) ≤ 1)%nat.
Proof.
  cbv zeta. eexists. split; [by vm_compute|]. split; [by vm_compute|].
  split; [by vm_compute|]. split; [by vm_compute|]. vm_compute. lia.
Qed.

Lemma one_batch_per_cycle_witness :
  let cfg := default_config ["X-BTC"; "Y-BTC"]%string in
  ∃ tp, sublist (accepts (new_events (on_tick cfg two_sided_world)
                            (running cfg two_sided_world)))
          [(BUY, tp); (SELL, tp)].
Proof.
  exact (proj1 (one_batch_per_cycle (default_config ["X-BTC"; "Y-BTC"]%string)
                  two_sided_world
                  (running (default_config ["X-BTC"; "Y-BTC"]%string)
                     two_sided_world))).
Defined.

(** Scenario D of the specification: two cancellations in Part One, for
    two pairs, and nothing else in the cycle although C-BTC could take new
    orders. *)
Lemma cancellations_block_later_parts_witness :
  let cfg := default_config ["A-BTC"; "B-BTC"; "C-BTC"]%string in
  let run := on_tick cfg scenario_d_world (running cfg scenario_d_world) in
  new_events (on_tick cfg scenario_d_world) (running cfg scenario_d_world)
  = [EvCancel Unprofitable "A-BTC" "a1"; EvCancel Unprofitable "B-BTC" "b1"]
  ∧ run.1 = Ok (Some (Summary 2 0 no_proposals))
  ∧ ∀ e, e ∈ new_events (on_tick cfg scenario_d_world)
                (running cfg scenario_d_world) →
         is_part_three e = false.
Proof.
  cbv zeta. split; [by vm_compute|]. split; [by vm_compute|].
  apply (proj1 (proj2 (cancellations_block_later_parts
                         (default_config ["A-BTC"; "B-BTC"; "C-BTC"]%string)
                         scenario_d_world
                         (running (default_config ["A-BTC"; "B-BTC"; "C-BTC"]%string)
                            scenario_d_world)))).
  exists "A-BTC"%string, "a1"%string.
  replace (new_events _ _)
    with [EvCancel Unprofitable "A-BTC" "a1"; EvCancel Unprofitable "B-BTC" "b1"]
    by (by vm_compute).
  apply list_elem_of_here.
Defined.

(** ** An exception ends the cycle *)

Lemma for_each_raise {X A} (body : X → A → M A) l1 x l2 a a1 s s1 e s2 :
  for_each l1 body a s = (Ok a1, s1) →
  body x a1 s1 = (Raise e, s2) →
  for_each (l1 ++ x :: l2) body a s = (Raise e, s2).
Proof.
  intros H1 Hx. rewrite for_each_app, (run_bind_ok _ _ _ _ _ H1).
  cbn [for_each]. by rewrite (run_bind_raise _ _ _ _ _ Hx).
Qed.

Lemma part_one_pair_missing cfg w tp n s :
  bid_ask_markets_dict s !! tp = None →
  part_one_pair cfg w tp n s = (Raise (KeyError tp), set_trading_pair tp s).
Proof.
  intros H. unfold part_one_pair. rewrite run_modify, run_read.
  by rewrite run_getitem_none.
Qed.

Lemma reconcile_raise_one cfg w s e s' :
  part_one cfg w s = (Raise e, s') → reconcile cfg w s = (Raise e, s').
Proof. intros H. unfold reconcile. by rewrite (run_bind_raise _ _ _ _ _ H). Qed.

Lemma reconcile_raise_two cfg w s s1 e s' :
  part_one cfg w s = (Ok 0%nat, s1) →
  part_two cfg w s1 = (Raise e, s') →
  reconcile cfg w s = (Raise e, s').
Proof.
  intros H1 H2. unfold reconcile. rewrite (run_bind_ok _ _ _ _ _ H1).
  cbn [Nat.ltb Nat.leb Nat.eqb]. by rewrite (run_bind_raise _ _ _ _ _ H2).
Qed.

Lemma reconcile_raise_three cfg w s s1 s2 e s' :
  part_one cfg w s = (Ok 0%nat, s1) →
  part_two cfg w s1 = (Ok 0%nat, s2) →
  part_three cfg w s2 = (Raise e, s') →
  reconcile cfg w s = (Raise e, s').
Proof.
  intros H1 H2 H3. unfold reconcile. rewrite (run_bind_ok _ _ _ _ _ H1).
  cbn [Nat.ltb Nat.leb Nat.eqb]. rewrite (run_bind_ok _ _ _ _ _ H2).
  cbn [Nat.ltb Nat.leb Nat.eqb]. by rewrite (run_bind_raise _ _ _ _ _ H3).
Qed.

Lemma on_tick_raise cfg w s d s0 e s' :
  started s = true →
  bid_ask_markets_json w = PayloadJSON d →
  snapshot cfg w (set_bid_ask_markets_dict d s) = (Ok tt, s0) →
  reconcile cfg w s0 = (Raise e, s') →
  on_tick cfg w s = (Raise e, s').
Proof.
  intros Hs Hp Hsnap Hr. unfold on_tick. rewrite run_read, Hs, Hp.
  cbn [negb]. rewrite run_modify, (run_bind_ok _ _ _ _ _ Hsnap).
  by rewrite (run_bind_raise _ _ _ _ _ Hr).
Qed.

(** C8 fails: A-BTC is absent from the reference feed, B-BTC is present and
    holds an unprofitable buy order.  The KeyError raised for A-BTC leaves
    [on_tick]; B-BTC is never evaluated and its order is not cancelled,
    although the same cycle without A-BTC cancels it. *)
Lemma key_error_stops_the_cycle :
  let cfg := default_config ["A-BTC"; "B-BTC"]%string in
  let run := on_tick cfg missing_pair_world (running cfg missing_pair_world) in
  let cfg' := default_config ["B-BTC"]%string in
  let run' := on_tick cfg' b_alone_world (running cfg' b_alone_world) in
  run.1 = Raise (KeyError "A-BTC")
  ∧ events run.2 = []
  ∧ trading_pair run.2 = Some "A-BTC"%string
  ∧ events run'.2 = [EvCancel Unprofitable "B-BTC" "b1"].
Proof. cbv zeta. repeat split; by vm_compute. Qed.

(** C8, as the code has it.  Nothing catches an error raised while a
    trading pair is evaluated: the loop stops at that pair, the later parts
    do not run and [on_tick] raises the error, with the state as it was when
    the error was raised.  For a pair that is absent from the reference
    feed the error is the KeyError of the first lookup of Part One. *)
Theorem error_ends_the_cycle cfg w s d s0 l1 tp l2 n s1 :
  started s = true →
  bid_ask_markets_json w = PayloadJSON d →
  snapshot cfg w (set_bid_ask_markets_dict d s) = (Ok tt, s0) →
  trading_pairs cfg = l1 ++ tp :: l2 →
  for_each l1 (part_one_pair cfg w) 0%nat s0 = (Ok n, s1) →
  bid_ask_markets_dict s1 !! tp = None →
  on_tick cfg w s = (Raise (KeyError tp), set_trading_pair tp s1)
  ∧ (∀ X A (body : X → A → M A) k1 x k2 a a1 t t1 e t2,
       for_each k1 body a t = (Ok a1, t1) →
       body x a1 t1 = (Raise e, t2) →
       for_each (k1 ++ x :: k2) body a t = (Raise e, t2))
  ∧ (∀ t e t', part_one cfg w t = (Raise e, t') →
       reconcile cfg w t = (Raise e, t'))
  ∧ (∀ t t1 e t', part_one cfg w t = (Ok 0%nat, t1) →
       part_two cfg w t1 = (Raise e, t') →
       reconcile cfg w t = (Raise e, t'))
  ∧ (∀ t t1 t2 e t', part_one cfg w t = (Ok 0%nat, t1) →
       part_two cfg w t1 = (Ok 0%nat, t2) →
       part_three cfg w t2 = (Raise e, t') →
       reconcile cfg w t = (Raise e, t'))
  ∧ (∀ t d' t0 e t', started t = true →
       bid_ask_markets_json w = PayloadJSON d' →
       snapshot cfg w (set_bid_ask_markets_dict d' t) = (Ok tt, t0) →
       reconcile cfg w t0 = (Raise e, t') →
       on_tick cfg w t = (Raise e, t')).
Proof.
  intros Hs Hp Hsnap Hl H1 Hd. split.
  - eapply on_tick_raise; [done..|]. apply reconcile_raise_one.
    unfold part_one. rewrite Hl.
    eapply for_each_raise; [exact H1|]. by apply part_one_pair_missing.
  - split; [intros; by eapply for_each_raise|].
    split; [apply reconcile_raise_one|].
    split; [apply reconcile_raise_two|].
    split; [apply reconcile_raise_three | apply on_tick_raise].
Qed.

Lemma error_ends_the_cycle_witness :
  let cfg := default_config ["A-BTC"; "B-BTC"]%string in
  ∃ s', on_tick cfg missing_pair_world (running cfg missing_pair_world)
        = (Raise (KeyError "A-BTC"), s')
        ∧ events s' = [].
Proof.
  cbv zeta.
  set (cfg := default_config ["A-BTC"; "B-BTC"]%string).
  set (s0 := (snapshot cfg missing_pair_world
                (set_bid_ask_markets_dict {[ "B-BTC"%string := fair ]}
                   (running cfg missing_pair_world))).2).
  exists (set_trading_pair "A-BTC" s0). split; [|by vm_compute].
  apply (error_ends_the_cycle cfg missing_pair_world
           (running cfg missing_pair_world) {[ "B-BTC"%string := fair ]} s0
           [] "A-BTC"%string ["B-BTC"%string] 0%nat s0);
    [reflexivity | reflexivity | by vm_compute | reflexivity | reflexivity
    | by vm_compute].
Defined.

(** ** [last_cancel_time] is written and never read *)

#[export] Instance agree_refl : Reflexive agree.
Proof. by intros s. Qed.

Lemma blind_ret {A} (a : A) : blind (mret a).
Proof. by intros s1 s2 H. Qed.

Lemma blind_raise {A} (e : exn) : blind (@raise A e).
Proof. by intros s1 s2 H. Qed.

Lemma blind_lift {A} (r : res A) : blind (lift r).
Proof. by intros s1 s2 H. Qed.

Lemma blind_getitem {V} (d : gmap string V) k : blind (getitem d k).
Proof. unfold getitem. destruct (d !! k); [apply blind_ret | apply blind_raise]. Qed.

Lemma blind_split_pair tp : blind (split_pair tp).
Proof.
  unfold split_pair.
  destruct (split _ tp) as [|? [|? [|? ?]]];
    first [apply blind_raise | apply (blind_ret (_, _))].
Qed.

Lemma blind_read {A} (f : state → A) :
  (∀ s1 s2, agree s1 s2 → f s1 = f s2) → blind (read f).
Proof. intros Hf s1 s2 H. cbn. by rewrite (Hf s1 s2 H). Qed.

Lemma blind_modify (f : state → state) :
  (∀ s1 s2, agree s1 s2 → agree (f s1) (f s2)) → blind (modify f).
Proof. intros Hf s1 s2 H. cbn. split; [done | by apply Hf]. Qed.

Lemma blind_bind {A B} (m : M A) (f : A → M B) :
  blind m → (∀ a, blind (f a)) → blind (m ≫= f).
Proof.
  intros Hm Hf s1 s2 H. rewrite !run_bind.
  destruct (Hm s1 s2 H) as (Hr & Hs).
  destruct (m s1) as [[a1|e1] t1], (m s2) as [[a2|e2] t2];
    cbn in Hr, Hs; simplify_eq; [by apply Hf | done].
Qed.

Lemma blind_for_each {X A} (l : list X) (body : X → A → M A) a :
  (∀ x a, blind (body x a)) → blind (for_each l body a).
Proof.
  intros Hb. revert a. induction l as [|x l IH]; intros a; cbn [for_each].
  - apply (blind_ret a).
  - apply blind_bind; [apply Hb | apply IH].
Qed.

Lemma blind_time_time w : blind (time_time w).
Proof.
  intros s1 s2 (?&?&?&?&?&?&?&Ht&?). cbn. rewrite Ht.
  split; [done|]. unfold agree. cbn. by rewrite Ht.
Qed.

Lemma blind_emit e : blind (emit e).
Proof.
  apply blind_modify. intros s1 s2 (?&?&?&?&?&?&?&?&He).
  unfold agree. cbn. by rewrite He.
Qed.

(** A field update keeps two states in agreement. *)
Ltac agree_update :=
  let H := fresh in
  intros ? ? H; unfold agree in *; cbn;
  destruct H as (?&?&?&?&?&?&?&?&?); repeat split; congruence.

Ltac blind_step :=
  lazymatch goal with
  | |- blind (_ ≫= _) => apply blind_bind; [|intros ?]
  | |- blind (mret _) => apply blind_ret
  | |- blind (ret _) => apply blind_ret
  | |- blind (raise _) => apply blind_raise
  | |- blind (lift _) => apply blind_lift
  | |- blind (getitem _ _) => apply blind_getitem
  | |- blind (split_pair _) => apply blind_split_pair
  | |- blind (time_time _) => apply blind_time_time
  | |- blind (emit _) => apply blind_emit
  | |- blind (read _) => apply blind_read; by intros ? ? (?&?&?&?&?&?&?&?&?)
  | |- blind (modify _) => apply blind_modify; agree_update
  | |- blind (for_each _ _ _) => apply blind_for_each; intros ? ?
  | |- blind (if ?b then _ else _) => destruct b
  | |- blind (match ?x with _ => _ end) => destruct x
  end.

Lemma blind_cancel w r tp o n : blind (cancel w r tp o n).
Proof. unfold cancel. repeat blind_step. Qed.

Lemma blind_part_one cfg w : blind (part_one cfg w).
Proof.
  unfold part_one, part_one_pair, cancel_if_above, cancel_if_below.
  repeat first [apply blind_cancel | blind_step].
Qed.

Lemma blind_part_two cfg w : blind (part_two cfg w).
Proof.
  unfold part_two, part_two_pair, cancel_if_above, cancel_if_below.
  repeat first [apply blind_cancel | blind_step].
Qed.

Lemma blind_propose_buy cfg w tp quote_cur buy_price_max ob_bid c proposal :
  blind (propose_buy cfg w tp quote_cur buy_price_max ob_bid c proposal).
Proof. unfold propose_buy. repeat blind_step. Qed.

Lemma blind_propose_sell cfg w tp base_cur quote_cur sell_price_min ob_ask
    c proposal :
  blind (propose_sell cfg w tp base_cur quote_cur sell_price_min ob_ask c proposal).
Proof. unfold propose_sell. repeat blind_step. Qed.

Lemma blind_part_three cfg w : blind (part_three cfg w).
Proof.
  unfold part_three, part_three_pair, place_orders, place_order.
  repeat first [apply blind_propose_buy | apply blind_propose_sell | blind_step].
Qed.

Lemma blind_snapshot cfg w : blind (snapshot cfg w).
Proof.
  unfold snapshot, reset_orders, file_order, fetch_orderbook.
  repeat blind_step.
Qed.

Lemma blind_reconcile cfg w : blind (reconcile cfg w).
Proof.
  unfold reconcile. cbv zeta.
  apply blind_bind; [apply blind_part_one | intros n1].
  apply blind_bind;
    [destruct (_ =? 0)%nat; [apply blind_part_two | apply blind_ret] | intros n2].
  apply blind_bind;
    [destruct (_ =? 0)%nat; [apply blind_part_three | apply blind_ret] | intros p].
  apply blind_bind; [apply blind_time_time | intros t].
  apply blind_ret.
Qed.

Lemma blind_on_tick cfg w : blind (on_tick cfg w).
Proof.
  unfold on_tick. blind_step; [blind_step|].
  destruct (negb _); [repeat blind_step|].
  destruct (bid_ask_markets_json w) as [| |d]; [blind_step | blind_step |].
  blind_step; [blind_step|]. blind_step; [apply blind_snapshot|].
  blind_step; [apply blind_reconcile | blind_step].
Qed.

(** ** The time stamps at startup *)

Lemma init_last_cancel_time_run tp s :
  init_last_cancel_time tp tt s
  = (Ok tt, set_last_cancel_time tp 0 (set_trading_pair tp s)).
Proof. reflexivity. Qed.

Lemma init_last_order_time_run w tp s :
  init_last_order_time w tp tt s
  = (Ok tt, set_last_order_time tp (clock w (ticks s))
              (tick (set_trading_pair tp s))).
Proof. reflexivity. Qed.

Lemma init_orders_run tp s :
  init_orders tp tt s
  = (Ok tt, set_orders (<[tp := ([], [])]> (orders s)) (set_trading_pair tp s)).
Proof. reflexivity. Qed.

Lemma init_last_cancel_time_loop l s :
  ∃ s', for_each l init_last_cancel_time tt s = (Ok tt, s')
        ∧ ticks s' = ticks s
        ∧ last_order_time s' = last_order_time s
        ∧ (∀ tp, tp ∈ l → last_cancel_time s' !! tp = Some 0)
        ∧ (∀ tp, tp ∉ l → last_cancel_time s' !! tp = last_cancel_time s !! tp).
Proof.
  revert s. induction l as [|x l IH]; intros s; cbn [for_each].
  { exists s. repeat split; try done. intros tp H. by apply elem_of_nil in H. }
  rewrite run_bind, init_last_cancel_time_run.
  destruct (IH (set_last_cancel_time x 0 (set_trading_pair x s)))
    as (s' & -> & T & L & Hin & Hout).
  exists s'. split; [done|]. split; [done|]. split; [done|]. split.
  - intros tp H. destruct (decide (tp ∈ l)) as [Hl|Hl]; [by apply Hin|].
    apply elem_of_cons in H as [->|H]; [|done].
    rewrite (Hout _ Hl). cbn. apply lookup_insert_eq.
  - intros tp H. apply not_elem_of_cons in H as (Hx & Hl).
    rewrite (Hout _ Hl). cbn. by apply lookup_insert_ne.
Qed.

Lemma init_last_order_time_loop w l s :
  ∃ s', for_each l (init_last_order_time w) tt s = (Ok tt, s')
        ∧ ticks s' = (ticks s + length l)%nat
        ∧ last_cancel_time s' = last_cancel_time s
        ∧ (∀ tp, tp ∈ l →
             ∃ i, l !! i = Some tp
                  ∧ last_order_time s' !! tp = Some (clock w (ticks s + i)))
        ∧ (∀ tp, tp ∉ l → last_order_time s' !! tp = last_order_time s !! tp).
Proof.
  revert s. induction l as [|x l IH]; intros s; cbn [for_each length].
  { exists s. rewrite Nat.add_0_r. repeat split; try done.
    intros tp H. by apply elem_of_nil in H. }
  rewrite run_bind, init_last_order_time_run.
  destruct (IH (set_last_order_time x (clock w (ticks s))
                  (tick (set_trading_pair x s))))
    as (s' & -> & T & L & Hin & Hout).
  cbn in T, L, Hin, Hout.
  exists s'. split; [done|]. split; [rewrite T; lia|]. split; [done|]. split.
  - intros tp H. destruct (decide (tp ∈ l)) as [Hl|Hl].
    + destruct (Hin _ Hl) as (i & Hi & Ht). exists (S i). split; [done|].
      rewrite Ht. do 2 f_equal. lia.
    + apply elem_of_cons in H as [->|H]; [|done].
      exists 0%nat. split; [done|]. rewrite (Hout _ Hl), Nat.add_0_r.
      apply lookup_insert_eq.
  - intros tp H. apply not_elem_of_cons in H as (Hx & Hl).
    rewrite (Hout _ Hl). by apply lookup_insert_ne.
Qed.

Lemma init_orders_loop l s :
  ∃ s', for_each l init_orders tt s = (Ok tt, s')
        ∧ ticks s' = ticks s
        ∧ last_cancel_time s' = last_cancel_time s
        ∧ last_order_time s' = last_order_time s.
Proof.
  revert s. induction l as [|x l IH]; intros s; cbn [for_each].
  { by exists s. }
  rewrite run_bind, init_orders_run.
  destruct (IH (set_orders (<[x := ([], [])]> (orders s)) (set_trading_pair x s)))
    as (s' & -> & T & C & L).
  by exists s'.
Qed.

Lemma set_trading_pair_loop l s :
  ∃ s', for_each l (λ tp (_ : unit), modify (set_trading_pair tp)) tt s = (Ok tt, s')
        ∧ ticks s' = ticks s
        ∧ last_cancel_time s' = last_cancel_time s
        ∧ last_order_time s' = last_order_time s.
Proof.
  revert s. induction l as [|x l IH]; intros s; cbn [for_each].
  { by exists s. }
  rewrite run_modify.
  destruct (IH (set_trading_pair x s)) as (s' & -> & T & C & L).
  by exists s'.
Qed.

(** When the class body has run, every pair has [last_cancel_time] 0 and
    [last_order_time] one of the clock readings of the class body. *)
Lemma startup_times cfg w :
  ticks (startup cfg w) = length (trading_pairs cfg)
  ∧ (∀ tp, tp ∈ trading_pairs cfg →
       last_cancel_time (startup cfg w) !! tp = Some 0)
  ∧ (∀ tp, tp ∈ trading_pairs cfg →
       ∃ i, trading_pairs cfg !! i = Some tp
            ∧ last_order_time (startup cfg w) !! tp = Some (clock w i)).
Proof.
  unfold startup, class_body.
  destruct (init_last_cancel_time_loop (trading_pairs cfg) empty_state)
    as (s1 & E1 & T1 & L1 & C1 & _).
  rewrite (run_bind_ok _ _ _ _ _ E1).
  destruct (init_last_order_time_loop w (trading_pairs cfg) s1)
    as (s2 & E2 & T2 & C2 & L2 & _).
  rewrite (run_bind_ok _ _ _ _ _ E2).
  destruct (init_orders_loop (trading_pairs cfg) s2) as (s3 & E3 & T3 & C3 & L3).
  rewrite (run_bind_ok _ _ _ _ _ E3).
  destruct (set_trading_pair_loop (trading_pairs cfg) s3) as (s4 & E4 & T4 & C4 & L4).
  rewrite E4. cbn [snd].
  rewrite T4, C4, L4, T3, C3, L3, T2, C2, T1. cbn [ticks empty_state].
  split; [done|]. split; [done|].
  intros tp H. destruct (L2 tp H) as (i & Hi & Ht). exists i.
  split; [done|]. by rewrite Ht, T1.
Qed.

(** ** The debounce of Part Three *)

Lemma iter_tick n s :
  events (Nat.iter n tick s) = events s
  ∧ last_order_time (Nat.iter n tick s) = last_order_time s
  ∧ last_cancel_time (Nat.iter n tick s) = last_cancel_time s
  ∧ ticks (Nat.iter n tick s) = (ticks s + n)%nat.
Proof.
  induction n as [|n (E & L & C & T)].
  { cbn [Nat.iter nat_rect]. by rewrite Nat.add_0_r. }
  rewrite Nat.iter_succ.
  cbn [tick events last_order_time last_cancel_time ticks].
  rewrite E, L, C, T. repeat split; lia.
Qed.

Lemma iter_incr_time n :
  Nat.iter n incr_time no_proposals = Proposals 0 0 n 0 0.
Proof. induction n as [|n IH]; [done|]. by rewrite Nat.iter_succ, IH. Qed.

Lemma part_three_pair_debounced cfg w tp c s t :
  num_orders c = 0%nat →
  last_order_time s !! tp = Some t →
  clock w (ticks s) < t + time_between_orders_for_trading_pair cfg →
  part_three_pair cfg w tp c s = (Ok (incr_time c), tick s).
Proof.
  intros Hc Ht Hlt. unfold part_three_pair. rewrite Hc. cbn [Nat.ltb Nat.leb].
  rewrite run_time_time, run_read.
  change (last_order_time (tick s)) with (last_order_time s).
  rewrite (run_getitem _ _ _ _ _ Ht).
  by rewrite (proj2 (Qlt_bool_true _ _) Hlt).
Qed.

Lemma part_three_debounced cfg w l c s :
  num_orders c = 0%nat →
  (∀ tp, tp ∈ l →
     ∃ t, last_order_time s !! tp = Some t
          ∧ ∀ k, (ticks s ≤ k < ticks s + length l)%nat →
                 clock w k < t + time_between_orders_for_trading_pair cfg) →
  for_each l (part_three_pair cfg w) c s
  = (Ok (Nat.iter (length l) incr_time c), Nat.iter (length l) tick s).
Proof.
  revert c s. induction l as [|tp l IH]; intros c s Hc Hl; [done|].
  cbn [for_each length]. rewrite run_bind.
  destruct (Hl tp) as (t & Ht & Hk); [apply elem_of_cons; by left|].
  rewrite (part_three_pair_debounced cfg w tp c s t Hc Ht)
    by (apply Hk; cbn [length]; lia).
  rewrite IH.
  - by rewrite <- !Nat.iter_succ_r.
  - done.
  - intros tp' H'. destruct (Hl tp') as (t' & Ht' & Hk');
      [apply elem_of_cons; by right|].
    exists t'. split; [done|]. intros k Hkk. apply Hk'.
    cbn [length]. cbn in Hkk. lia.
Qed.

(** ** No proposal during the first seconds *)

(** C10. The class body sets [last_cancel_time] of every pair to 0 and
    [last_order_time] of every pair to a reading of the clock made by the
    class body.  In a cycle that starts with these [last_order_time] values
    and whose clock readings in Part Three are all less than
    [time_between_orders_for_trading_pair] after every reading of the class
    body, Part Three counts a time skip for every pair and does nothing
    else; the cycle accepts no proposal and leaves [last_order_time] as it
    was, so that the next cycle starts with the same values.
    [last_cancel_time] is written only: a cycle run from two states that
    differ in [last_cancel_time] alone gives the same result, events and
    other fields. *)
Theorem startup_debounce cfg w s :
  last_order_time s = last_order_time (startup cfg w) →
  (∀ i k, (i < length (trading_pairs cfg))%nat →
          (ticks s ≤ k < ticks s + length (trading_pairs cfg))%nat →
          clock w k < clock w i + time_between_orders_for_trading_pair cfg) →
  (∀ tp, tp ∈ trading_pairs cfg →
     last_cancel_time (startup cfg w) !! tp = Some 0)
  ∧ (∀ tp, tp ∈ trading_pairs cfg →
       ∃ i, trading_pairs cfg !! i = Some tp
            ∧ last_order_time (startup cfg w) !! tp = Some (clock w i))
  ∧ part_three cfg w s
    = (Ok (Proposals 0 0 (length (trading_pairs cfg)) 0 0),
       Nat.iter (length (trading_pairs cfg)) tick s)
  ∧ accepts (new_events (on_tick cfg w) s) = []
  ∧ last_order_time (on_tick cfg w s).2 = last_order_time s
  ∧ (∀ r, (on_tick cfg w s).1 = Ok (Some r) →
       proposed r = Proposals 0 0 (length (trading_pairs cfg)) 0 0
       ∨ (0 < num_cancels_unprofitable r + num_cancels_outbid r)%nat
         ∧ proposed r = no_proposals)
  ∧ blind (on_tick cfg w).
Proof.
  intros Hlot Hclock.
  destruct (startup_times cfg w) as (_ & Hc0 & Hl0).
  assert (∀ t, last_order_time t = last_order_time s → ticks t = ticks s →
            part_three cfg w t
            = (Ok (Proposals 0 0 (length (trading_pairs cfg)) 0 0),
               Nat.iter (length (trading_pairs cfg)) tick t)) as H3.
  { intros t Lt Tt. unfold part_three.
    rewrite part_three_debounced, iter_incr_time; [done..|].
    intros tp Htp. destruct (Hl0 tp Htp) as (i & Hi & Hti).
    exists (clock w i). rewrite Lt, Hlot. split; [done|].
    intros k Hk. apply Hclock; [by eapply lookup_lt_Some | by rewrite <- Tt]. }
  split; [done|]. split; [done|]. split; [by apply H3|].
  assert (accepts (new_events (on_tick cfg w) s) = []
          ∧ last_order_time (on_tick cfg w s).2 = last_order_time s
          ∧ ∀ r, (on_tick cfg w s).1 = Ok (Some r) →
              proposed r = Proposals 0 0 (length (trading_pairs cfg)) 0 0
              ∨ (0 < num_cancels_unprofitable r + num_cancels_outbid r)%nat
                ∧ proposed r = no_proposals) as (Ha & Hl & Hr);
    [|split; [done|]; split; [done|]; split; [done | apply blind_on_tick]].
  destruct (on_tick_reconciles cfg w s)
    as [(s' & H & Hs')|[(e & s' & H & Hq)|(s0 & Hq & H)]].
  - rewrite H. cbn [fst snd]. split; [|split; [by destruct Hs' as [->| ->] | done]].
    destruct Hs' as [->| ->].
    + by rewrite (new_events_app _ _ []) by (by rewrite H, app_nil_r).
    + by rewrite (new_events_app _ _ [EvStart]) by (by rewrite H).
  - destruct Hq as (E & _ & L & _).
    rewrite (new_events_app _ _ []) by (by rewrite H, app_nil_r).
    rewrite H. cbn [fst snd]. by split.
  - destruct Hq as (E & T & L & _).
    destruct (reconcile_part_three cfg w s0)
      as [(new & En & Fn & Ln & Hsm)|(s2 & E2 & T2 & L2 & En & Ln & Hsm)].
    + rewrite (new_events_app _ _ new) by (by rewrite H, <- E).
      rewrite (accepts_none _ Fn), H. cbn [fst snd].
      split; [done|]. split; [by rewrite Ln|].
      intros r Hr. destruct (reconcile cfg w s0).1 as [sm|e]; [|done].
      injection Hr as ->. right. by destruct (Hsm r eq_refl).
    + assert (part_three cfg w s2
              = (Ok (Proposals 0 0 (length (trading_pairs cfg)) 0 0),
                 Nat.iter (length (trading_pairs cfg)) tick s2)) as E3.
      { apply H3; congruence. }
      rewrite E3 in En, Ln, Hsm. cbn [fst snd] in En, Ln, Hsm.
      destruct (iter_tick (length (trading_pairs cfg)) s2) as (Ei & Li & _).
      rewrite Ei in En. rewrite Li in Ln.
      rewrite (new_events_app _ _ [])
        by (rewrite H; cbn [snd]; rewrite En, E2, E; by rewrite app_nil_r).
      rewrite H. cbn [fst snd]. split; [done|].
      split; [congruence|].
      intros r Hr. destruct (reconcile cfg w s0).1 as [sm|e]; [|done].
      injection Hr as ->. left. specialize (Hsm r eq_refl). congruence.
Qed.

(** Two seconds after startup, with two pairs that could take a buy and a
    sell each: both are skipped for the time and nothing is proposed. *)
Lemma startup_debounce_witness :
  let cfg := default_config ["X-BTC"; "Y-BTC"]%string in
  part_three cfg early_world (running cfg early_world)
  = (Ok (Proposals 0 0 2 0 0), Nat.iter 2 tick (running cfg early_world))
  ∧ accepts (new_events (on_tick cfg early_world) (running cfg early_world)) = []
  ∧ (on_tick cfg early_world (running cfg early_world)).1
    = Ok (Some (Summary 0 0 (Proposals 0 0 2 0 0))).
Proof.
  cbv zeta.
  destruct (startup_debounce (default_config ["X-BTC"; "Y-BTC"]%string)
              early_world
              (running (default_config ["X-BTC"; "Y-BTC"]%string) early_world))
    as (_ & _ & H3 & Ha & _).
  - by vm_compute.
  - intros i k Hi Hk.
    vm_compute in Hi. vm_compute in Hk.
    assert (i = 0 ∨ i = 1)%nat as [->| ->] by lia;
      assert (k = 2 ∨ k = 3)%nat as [->| ->] by lia; by vm_compute.
  - split; [exact H3|]. split; [exact Ha | by vm_compute].
Defined.

(** ** The reference feed *)

Section feed.
Import MarketMakingParamsDataFeed.

#[local] Instance fetch_frame_refl : Reflexive fetch_frame.
Proof. intros f. unfold fetch_frame. done. Qed.

#[local] Instance fetch_frame_trans : Transitive fetch_frame.
Proof.
  intros f1 f2 f3 (?&?&?&?&?&?&?&?) (?&?&?&?&?&?&?&?).
  unfold fetch_frame. repeat split; congruence.
Qed.

Lemma fetch_bid_ask_frame r f : fetch_frame f (fetch_bid_ask r f).2.
Proof.
  unfold fetch_bid_ask, _http_client, fetch_frame.
  destruct r as [status text json| |]; [destruct (negb _)| |];
    destruct (_shared_client f); cbn; done.
Qed.

Lemma turn_frame r f : fetch_frame f (turn r f).
Proof.
  unfold turn. pose proof (fetch_bid_ask_frame r f) as H.
  destruct (fetch_bid_ask r f) as [[e|] f1]; cbn [fst snd] in *;
    (etrans; [exact H|]); unfold fetch_frame; done.
Qed.

Lemma fetch_bid_ask_loop_cons r schedule f :
  r ≠ Cancelled →
  fetch_bid_ask_loop ((r, false) :: schedule) f
  = fetch_bid_ask_loop schedule (turn r f).
Proof.
  intros Hr. cbn [fetch_bid_ask_loop]. unfold turn, fetch_bid_ask.
  destruct r as [status text json| |]; [destruct (negb _)| |]; done.
Qed.

Lemma fetch_bid_ask_loop_frame schedule f :
  fetch_frame f (fetch_bid_ask_loop schedule f).2.
Proof.
  revert f. induction schedule as [|[r asleep] schedule IH]; intros f; [done|].
  assert (r = Cancelled ∨ r ≠ Cancelled) as [->|Hr]
    by (destruct r; [right|right|left]; done).
  { cbn. unfold _http_client, fetch_frame. destruct (_shared_client f); done. }
  destruct asleep.
  - cbn [fetch_bid_ask_loop].
    pose proof (fetch_bid_ask_frame r f) as H.
    destruct (fetch_bid_ask r f) as [[[]|] f1]; cbn [fst snd] in *;
      try done; (etrans; [exact H|]); unfold fetch_frame; done.
  - rewrite fetch_bid_ask_loop_cons by done.
    etrans; [apply turn_frame | apply IH].
Qed.

Lemma last_good_body (c : cached) (l : list string) :
  foldl (λ _ body, Text body) c l = from_option Text c (last l).
Proof.
  revert c. induction l as [|b l IH]; intros c; [done|].
  cbn [foldl]. rewrite IH, (last_cons b). destruct (last l); done.
Qed.

Lemma good_bodies_cons t schedule :
  good_bodies (t :: schedule)
  = good_bodies [t] ++ good_bodies schedule.
Proof.
  unfold good_bodies. cbn [omap list_omap].
  destruct t as [[status text json| |] asleep]; cbn; [|done|done].
  destruct (status =? 200)%Z; done.
Qed.

Lemma length_good_bodies schedule :
  (length (good_bodies schedule) ≤ length schedule)%nat.
Proof.
  induction schedule as [|t schedule IH]; [done|].
  rewrite good_bodies_cons, length_app. cbn [length].
  assert (length (good_bodies [t]) ≤ 1)%nat; [|lia].
  unfold good_bodies. cbn [omap list_omap].
  destruct t as [[status text json| |] asleep]; cbn; [|lia|lia].
  destruct (status =? 200)%Z; cbn; lia.
Qed.

(** One turn of the loop that is not cancelled. *)
Lemma turn_run r f :
  r ≠ Cancelled →
  bid_ask_markets_json (turn r f)
  = foldl (λ _ body, Text body) (bid_ask_markets_json f) (good_bodies [(r, false)])
  ∧ _ready_event (turn r f)
    = _ready_event f || bool_decide (good_bodies [(r, false)] ≠ [])
  ∧ network_warnings (turn r f)
    = (network_warnings f + (1 - length (good_bodies [(r, false)])))%nat
  ∧ requested (turn r f)
    = requested f ++ [(_api_url f ++ _trading_pair f)%string]
  ∧ slept (turn r f) = slept f ++ [_update_interval f].
Proof.
  intros Hr. unfold turn, fetch_bid_ask, good_bodies.
  destruct r as [status text json| |]; [| |done]; cbn [omap list_omap fst].
  - destruct (status =? 200)%Z; cbn [negb];
      unfold _http_client; destruct (_shared_client f); cbn;
      rewrite ?orb_true_r, ?orb_false_r, ?Nat.add_0_r, ?Nat.add_1_r; done.
  - unfold _http_client; destruct (_shared_client f); cbn;
      rewrite ?orb_false_r, ?Nat.add_1_r; done.
Qed.

Lemma fetch_bid_ask_loop_run schedule f :
  uncancelled schedule →
  (fetch_bid_ask_loop schedule f).1 = None
  ∧ bid_ask_markets_json (fetch_bid_ask_loop schedule f).2
    = foldl (λ _ body, Text body) (bid_ask_markets_json f) (good_bodies schedule)
  ∧ _ready_event (fetch_bid_ask_loop schedule f).2
    = _ready_event f || bool_decide (good_bodies schedule ≠ [])
  ∧ network_warnings (fetch_bid_ask_loop schedule f).2
    = (network_warnings f + (length schedule - length (good_bodies schedule)))%nat
  ∧ requested (fetch_bid_ask_loop schedule f).2
    = requested f
      ++ replicate (length schedule) (_api_url f ++ _trading_pair f)%string
  ∧ slept (fetch_bid_ask_loop schedule f).2
    = slept f ++ replicate (length schedule) (_update_interval f).
Proof.
  intros H. revert f.
  induction H as [|[r asleep] schedule [Hr Ha] H IH]; intros f.
  - cbn. rewrite orb_false_r, Nat.add_0_r, !app_nil_r. done.
  - cbn [fst snd] in Hr, Ha. subst asleep.
    rewrite fetch_bid_ask_loop_cons by done.
    destruct (IH (turn r f)) as (-> & -> & -> & -> & -> & ->).
    destruct (turn_run r f Hr) as (-> & -> & -> & -> & ->).
    destruct (turn_frame r f) as (_&_&_&_&_& -> & -> & ->).
    pose proof (length_good_bodies schedule) as Hlen.
    pose proof (length_good_bodies [(r, false)]) as Hlen1.
    rewrite (good_bodies_cons _ schedule), foldl_app, length_app.
    rewrite <- !app_assoc. cbn [length replicate app] in *.
    repeat split; try done; [|lia].
    rewrite <- orb_assoc. f_equal.
    destruct (good_bodies [(r, false)]), (good_bodies schedule); done.
Qed.

Lemma fetch_bid_ask_loop_app before rest f :
  uncancelled before →
  fetch_bid_ask_loop (before ++ rest) f
  = fetch_bid_ask_loop rest (fetch_bid_ask_loop before f).2.
Proof.
  intros H. revert f.
  induction H as [|[r asleep] schedule [Hr Ha] H IH]; intros f; [done|].
  cbn [fst snd] in Hr, Ha. subst asleep. rewrite <- app_comm_cons.
  rewrite !fetch_bid_ask_loop_cons by done. apply IH.
Qed.

Lemma fetch_bid_ask_loop_cancelled r asleep after f :
  r = Cancelled ∨ asleep = true →
  fetch_bid_ask_loop ((r, asleep) :: after) f = fetch_bid_ask_loop [(r, asleep)] f
  ∧ (fetch_bid_ask_loop ((r, asleep) :: after) f).1 = Some CancelledError
  ∧ requested (fetch_bid_ask_loop ((r, asleep) :: after) f).2
    = requested f ++ [(_api_url f ++ _trading_pair f)%string]
  ∧ slept (fetch_bid_ask_loop ((r, asleep) :: after) f).2 = slept f.
Proof.
  intros H. cbn [fetch_bid_ask_loop]. unfold fetch_bid_ask.
  destruct r as [status text json| |]; [| |].
  - destruct H as [? | ->]; [done|].
    destruct (negb _); unfold _http_client; destruct (_shared_client f); done.
  - destruct H as [? | ->]; [done|].
    unfold _http_client; destruct (_shared_client f); done.
  - unfold _http_client; destruct (_shared_client f); done.
Qed.

(** X1 (fetch_bid_ask_loop, fetch_bid_ask): while no turn is cancelled the
    loop never ends with an exception, whatever the server replies: a reply
    whose status is not 200 and a failed request are logged and the next
    turn follows.  The cached payload is then the text of the most recent
    reply with status 200, or what it was before if there was none; the
    ready event is set iff it was set or some reply had status 200; one
    warning is logged for every other turn; every turn requests the same
    URL and sleeps for the update interval. *)
Theorem loop_caches_the_last_good_body schedule f :
  uncancelled schedule →
  (fetch_bid_ask_loop schedule f).1 = None
  ∧ bid_ask_markets_json (fetch_bid_ask_loop schedule f).2
    = from_option Text (bid_ask_markets_json f) (last (good_bodies schedule))
  ∧ _ready_event (fetch_bid_ask_loop schedule f).2
    = _ready_event f || bool_decide (good_bodies schedule ≠ [])
  ∧ network_warnings (fetch_bid_ask_loop schedule f).2
    = (network_warnings f + (length schedule - length (good_bodies schedule)))%nat
  ∧ requested (fetch_bid_ask_loop schedule f).2
    = requested f
      ++ replicate (length schedule) (_api_url f ++ _trading_pair f)%string
  ∧ slept (fetch_bid_ask_loop schedule f).2
    = slept f ++ replicate (length schedule) (_update_interval f).
Proof.
  intros H. rewrite <- last_good_body. by apply fetch_bid_ask_loop_run.
Qed.

Lemma loop_caches_the_last_good_body_witness :
  let schedule :=
    [(Reply 200 "first" None, false); (Failed, false);
     (Reply 200 "second" None, false); (Reply 503 "down" None, false)] in
  let f := __init__ "http://feed/?markets=" "X-BTC_Y-BTC" 0.5 in
  (fetch_bid_ask_loop schedule f).1 = None
  ∧ bid_ask_markets_json (fetch_bid_ask_loop schedule f).2 = Text "second"
  ∧ _ready_event (fetch_bid_ask_loop schedule f).2 = true
  ∧ network_warnings (fetch_bid_ask_loop schedule f).2 = 2%nat.
Proof.
  intros schedule f.
  assert (uncancelled schedule) as H by (repeat constructor; done).
  destruct (loop_caches_the_last_good_body schedule f H) as (H1 & H2 & H3 & H4 & _).
  split; [exact H1|]. split; [exact H2|]. split; [exact H3 | exact H4].
Defined.

(** X2 (fetch_bid_ask_loop): a cancellation, thrown into the request or
    into the sleep, is the one exception that ends the loop, and it ends
    it at once: the outcome is CancelledError, the turns that were scheduled
    after it are never run (no further request, no further sleep), and the
    turns before it have had their whole effect. *)
Theorem cancellation_stops_the_loop before r asleep after f :
  uncancelled before →
  r = Cancelled ∨ asleep = true →
  fetch_bid_ask_loop (before ++ (r, asleep) :: after) f
  = fetch_bid_ask_loop [(r, asleep)] (fetch_bid_ask_loop before f).2
  ∧ (fetch_bid_ask_loop (before ++ (r, asleep) :: after) f).1
    = Some CancelledError
  ∧ requested (fetch_bid_ask_loop (before ++ (r, asleep) :: after) f).2
    = requested f
      ++ replicate (S (length before)) (_api_url f ++ _trading_pair f)%string
  ∧ slept (fetch_bid_ask_loop (before ++ (r, asleep) :: after) f).2
    = slept f ++ replicate (length before) (_update_interval f)
  ∧ (r = Cancelled →
     bid_ask_markets_json (fetch_bid_ask_loop (before ++ (r, asleep) :: after) f).2
     = from_option Text (bid_ask_markets_json f) (last (good_bodies before))).
Proof.
  intros Hb Hc. rewrite fetch_bid_ask_loop_app by done.
  destruct (fetch_bid_ask_loop_cancelled r asleep after
              (fetch_bid_ask_loop before f).2 Hc) as (E & Ho & Hq & Hs).
  destruct (fetch_bid_ask_loop_run before f Hb) as (_ & Hj & _ & _ & Hq' & Hs').
  destruct (fetch_bid_ask_loop_frame before f) as (_&_&_&_&_&_& Hu & Ht).
  repeat split; [exact E | exact Ho | | |].
  - rewrite Hq, Hq', Hu, Ht, <- app_assoc. f_equal.
    change [(_api_url f ++ _trading_pair f)%string]
      with (replicate 1 (_api_url f ++ _trading_pair f)%string).
    rewrite <- replicate_add. f_equal. lia.
  - by rewrite Hs, Hs'.
  - intros ->. rewrite <- last_good_body, <- Hj.
    cbn [fetch_bid_ask_loop]. unfold fetch_bid_ask, _http_client.
    by destruct (_shared_client _).
Qed.

Lemma cancellation_stops_the_loop_witness :
  let f := __init__ "http://feed/?markets=" "X-BTC_Y-BTC" 0.5 in
  let schedule :=
    [(Reply 200 "first" None, false); (Reply 200 "second" None, true);
     (Reply 200 "third" None, false)] in
  (fetch_bid_ask_loop schedule f).1 = Some CancelledError
  ∧ bid_ask_markets_json (fetch_bid_ask_loop schedule f).2 = Text "second"
  ∧ length (requested (fetch_bid_ask_loop schedule f).2) = 2%nat.
Proof.
  intros f schedule.
  assert (uncancelled [(Reply 200 "first" None, false)]) as H
    by (repeat constructor; done).
  destruct (cancellation_stops_the_loop [(Reply 200 "first" None, false)]
              (Reply 200 "second" None) true [(Reply 200 "third" None, false)]
              f H (or_intror eq_refl)) as (E & Ho & Hq & _).
  cbn [app] in E, Ho, Hq. unfold schedule.
  split; [exact Ho|]. split; [by rewrite E | by rewrite Hq].
Defined.

Lemma tasks_ok_stop f : tasks_ok f → tasks_ok (stop_network f)
  ∧ _fetch_bid_ask_task (stop_network f) = None.
Proof.
  intros (Hp & Hd & Hl & Hc). unfold stop_network. rewrite Hp.
  destruct (_fetch_bid_ask_task f) as [t|] eqn:Et;
    [|by split; [unfold tasks_ok; rewrite Et|]].
  split; [|done]. unfold tasks_ok, live. cbn.
  repeat split; [done|done| |].
  - apply elem_of_nil_inv. intros u [Hu Hin]%list_elem_of_filter.
    assert (u ∈ live f) as Hlive.
    { apply list_elem_of_filter. split; [|done].
      intros ?. apply Hu. set_solver. }
    rewrite Hl in Hlive. cbn in Hlive. apply Hu. set_solver.
  - intros u [Hu|Hu]%elem_of_app; [by apply Hc|].
    apply list_elem_of_singleton in Hu as ->.
    assert (t ∈ live f) as [_ Hin%elem_of_seq]%list_elem_of_filter
      by (rewrite Hl; cbn; set_solver).
    lia.
Qed.

Lemma tasks_ok_start f : tasks_ok f → tasks_ok (start_network f)
  ∧ _fetch_bid_ask_task (start_network f) = Some (created f)
  ∧ created (start_network f) = S (created f).
Proof.
  intros H. destruct (tasks_ok_stop f H) as ((Hp & Hd & Hl & Hc) & Hb).
  assert (created (stop_network f) = created f) as Hn.
  { unfold stop_network. destruct H as (-> & _).
    by destruct (_fetch_bid_ask_task f). }
  unfold start_network, tasks_ok, live in *.
  cbn [_fetch_price_task _prices_dict _fetch_bid_ask_task created cancelled
       set_tasks option_list].
  rewrite Hb in Hl. cbn [option_list] in Hl.
  rewrite Hn in *. repeat split; try done.
  - rewrite seq_S, filter_app, Hl. cbn [app Nat.add].
    rewrite filter_cons_True; [done|].
    intros Hin%Hc. lia.
  - intros t Ht%Hc. lia.
Qed.

Lemma tasks_ok_perform f op : tasks_ok f → tasks_ok (perform f op).
Proof.
  intros H. destruct op as [| |schedule]; cbn [perform].
  - by apply tasks_ok_start.
  - by apply tasks_ok_stop.
  - destruct (_fetch_bid_ask_task f) eqn:E; [|done].
    destruct (fetch_bid_ask_loop_frame schedule f) as (Ed & Ep & Eb & En & Ec & _).
    destruct H as (Hp & Hd & Hl & Hc). unfold tasks_ok, live in *.
    rewrite Ed, Ep, Eb, En, Ec. done.
Qed.

Lemma tasks_ok_run ops f : tasks_ok f → tasks_ok (foldl perform f ops).
Proof.
  revert f. induction ops as [|op ops IH]; intros f H; [done|].
  cbn [foldl]. by apply IH, tasks_ok_perform.
Qed.

Lemma tasks_ok_init api_url trading_pair update_interval :
  tasks_ok (__init__ api_url trading_pair update_interval).
Proof. unfold tasks_ok, live. cbn. repeat split; try done; set_solver. Qed.

(** X3 (start_network, stop_network): however the network is started and
    stopped and however long the loop runs in between, at most one fetch
    task is alive, namely the one [_fetch_bid_ask_task] refers to: every
    task that was created and is no longer referred to has been cancelled.
    A start leaves exactly one live task, a new one; a stop leaves none,
    also when nothing was running. *)
Theorem one_live_fetch_task api_url trading_pair update_interval ops :
  let f := foldl perform (__init__ api_url trading_pair update_interval) ops in
  live f = option_list (_fetch_bid_ask_task f)
  ∧ _fetch_price_task f = None
  ∧ live (start_network f) = [created f]
  ∧ live (stop_network f) = []
  ∧ stop_network (stop_network f) = stop_network f.
Proof.
  intros f.
  assert (tasks_ok f) as H by apply tasks_ok_run, tasks_ok_init.
  destruct (tasks_ok_start f H) as ((_ & _ & Hl1 & _) & Hb1 & _).
  destruct (tasks_ok_stop f H) as ((Hp2 & _ & Hl2 & _) & Hb2).
  destruct H as (Hp & _ & Hl & _).
  repeat split; [done|done| | |].
  - by rewrite Hl1, Hb1.
  - by rewrite Hl2, Hb2.
  - unfold stop_network at 1. by rewrite Hp2, Hb2.
Qed.

(** X4 (get_price, prices_dict, start_network): the price loop is never
    scheduled, so the price dictionary of a feed stays empty and
    [get_price] answers None for every pair, whatever sequence of starts,
    stops and runs of the bid-ask loop the feed goes through.  Only
    [fetch_price] fills it: after a reply with status 200 [get_price]
    looks the pair up in the JSON of that reply, None if it is missing. *)
Theorem prices_are_never_fetched api_url trading_pair update_interval ops pair :
  let f := foldl perform (__init__ api_url trading_pair update_interval) ops in
  get_price f pair = None
  ∧ ∀ text resp_dict,
      get_price (fetch_price (Reply 200 text (Some resp_dict)) f).2 pair
      = resp_dict !! pair.
Proof.
  intros f.
  assert (tasks_ok f) as (_ & Hd & _) by apply tasks_ok_run, tasks_ok_init.
  split.
  - unfold get_price, prices_dict. by rewrite Hd.
  - intros text resp_dict. unfold fetch_price, _http_client.
    by destruct (_shared_client f).
Qed.

End feed.


(** ** What a cycle leaves alone *)

#[export] Instance keeps_reference_refl : Reflexive keeps_reference.
Proof. by intros s. Qed.

#[export] Instance keeps_reference_trans : Transitive keeps_reference.
Proof. intros s1 s2 s3 H1 H2. unfold keeps_reference in *. congruence. Qed.

#[export] Instance keeps_snapshots_refl : Reflexive keeps_snapshots.
Proof. by intros s. Qed.

#[export] Instance keeps_snapshots_trans : Transitive keeps_snapshots.
Proof.
  intros s1 s2 s3 (?&?&?&?&?) (?&?&?&?&?). unfold keeps_snapshots.
  repeat split; congruence.
Qed.

(** One step of a program that updates fields the relation does not
    mention. *)
Ltac frame_step :=
  first
    [ apply sat_modify; intros ?; done
    | lazymatch goal with
      | |- sat _ (time_time _) => intros ?; done
      end
    | sat_step ].

Lemma keeps_reference_snapshot cfg w : sat keeps_reference (snapshot cfg w).
Proof.
  unfold snapshot, reset_orders, file_order, fetch_orderbook.
  repeat frame_step.
Qed.

Lemma keeps_snapshots_part_one cfg w : sat keeps_snapshots (part_one cfg w).
Proof.
  unfold part_one, part_one_pair, cancel_if_above, cancel_if_below, cancel, emit.
  repeat frame_step.
Qed.

Lemma keeps_snapshots_part_two cfg w : sat keeps_snapshots (part_two cfg w).
Proof.
  unfold part_two, part_two_pair, cancel_if_above, cancel_if_below, cancel, emit.
  repeat frame_step.
Qed.

Lemma keeps_snapshots_part_three cfg w : sat keeps_snapshots (part_three cfg w).
Proof.
  unfold part_three, part_three_pair, propose_buy, propose_sell, place_orders,
    place_order, emit.
  repeat frame_step.
Qed.

Lemma keeps_snapshots_reconcile cfg w : sat keeps_snapshots (reconcile cfg w).
Proof.
  unfold reconcile. cbv zeta.
  apply sat_bind; [tc_solve | apply keeps_snapshots_part_one | intros n1].
  apply sat_bind;
    [tc_solve
    |destruct (_ =? 0)%nat; [apply keeps_snapshots_part_two | by apply sat_ret]
    |intros n2].
  apply sat_bind;
    [tc_solve
    |destruct (_ =? 0)%nat; [apply keeps_snapshots_part_three | by apply sat_ret]
    |intros p].
  repeat frame_step.
Qed.

Lemma keeps_snapshots_reference s s' : keeps_snapshots s s' → keeps_reference s s'.
Proof. by intros (?&_). Qed.

(** The reference prices that a started cycle parses are those it ends with. *)
Lemma on_tick_reference cfg w s d :
  started s = true → bid_ask_markets_json w = PayloadJSON d →
  bid_ask_markets_dict (on_tick cfg w s).2 = d.
Proof.
  intros Hs Hd. unfold on_tick. rewrite run_read, Hs, Hd. cbn [negb].
  rewrite run_modify.
  assert (sat keeps_reference (snapshot cfg w;; r ← reconcile cfg w; mret (Some r)))
    as H.
  { apply sat_bind; [tc_solve | apply keeps_reference_snapshot | intros _].
    apply sat_bind; [tc_solve | | intros r; by apply sat_ret].
    intros s0. apply keeps_snapshots_reference, keeps_snapshots_reconcile. }
  by rewrite (H (set_bid_ask_markets_dict d s)).
Qed.

(** X5 (on_tick, Parts One to Three): the three parts of a cycle work on
    the snapshots and never write them: whatever is cancelled or proposed,
    and also when a part raises, the reference prices, the dictionaries of
    open orders and both sides of the order books are afterwards what they
    were when the snapshots were taken.  An order that was cancelled in
    the cycle is thus still listed until the next cycle files the active
    orders again. *)
Theorem parts_keep_the_snapshots cfg w s :
  bid_ask_markets_dict (reconcile cfg w s).2 = bid_ask_markets_dict s
  ∧ orders (reconcile cfg w s).2 = orders s
  ∧ orderbook_bid (reconcile cfg w s).2 = orderbook_bid s
  ∧ orderbook_ask (reconcile cfg w s).2 = orderbook_ask s
  ∧ started (reconcile cfg w s).2 = started s.
Proof. apply keeps_snapshots_reconcile. Qed.

(** X6 (on_tick, bid_ask_markets_json): a started strategy whose payload is
    the cache of a feed that ran its loop from [__init__] sees the text of
    the most recent reply with status 200.  Until there is one the cache is
    the dictionary of [__init__], [json.loads] raises TypeError and the
    cycle is a no-op; a text that does not parse makes [on_tick] raise
    JSONDecodeError with the state unchanged; a text that parses is the
    payload of the cycle. *)
Theorem tick_reads_the_last_good_body parse schedule api_url pairs interval
    cfg w s :
  MarketMakingParamsDataFeed.uncancelled schedule →
  started s = true →
  let f :=
    (MarketMakingParamsDataFeed.fetch_bid_ask_loop schedule
       (MarketMakingParamsDataFeed.__init__ api_url pairs interval)).2 in
  match last (MarketMakingParamsDataFeed.good_bodies schedule) with
  | None => on_tick cfg (fed_by parse f w) s = (Ok None, s)
  | Some body =>
      match parse body with
      | None => on_tick cfg (fed_by parse f w) s = (Raise JSONDecodeError, s)
      | Some d =>
          bid_ask_markets_json (fed_by parse f w) = PayloadJSON d
          ∧ bid_ask_markets_dict (on_tick cfg (fed_by parse f w) s).2 = d
      end
  end.
Proof.
  intros Hs Hstarted f.
  destruct (fetch_bid_ask_loop_run schedule
              (MarketMakingParamsDataFeed.__init__ api_url pairs interval) Hs)
    as (_ & Hj & _).
  rewrite last_good_body in Hj. fold f in Hj.
  assert (bid_ask_markets_json (fed_by parse f w)
          = json_loads parse
              (from_option MarketMakingParamsDataFeed.Text
                 MarketMakingParamsDataFeed.EmptyDict
                 (last (MarketMakingParamsDataFeed.good_bodies schedule)))) as E.
  { cbn [fed_by bid_ask_markets_json]. by rewrite Hj. }
  destruct (last _) as [body|]; cbn [from_option json_loads] in E.
  - destruct (parse body) as [d|].
    + split; [done|]. by apply on_tick_reference.
    + unfold on_tick. by rewrite run_read, Hstarted, E.
  - unfold on_tick. by rewrite run_read, Hstarted, E.
Qed.

Lemma tick_reads_the_last_good_body_witness :
  let schedule :=
    [(MarketMakingParamsDataFeed.Failed, false);
     (MarketMakingParamsDataFeed.Reply 404 "not found" None, false)] in
  let f :=
    (MarketMakingParamsDataFeed.fetch_bid_ask_loop schedule
       (MarketMakingParamsDataFeed.__init__ "http://feed/?markets=" "X-BTC" 0.5)).2 in
  on_tick scenario_a_config (fed_by (λ _, None) f scenario_a_world)
    scenario_b_state
  = (Ok None, scenario_b_state).
Proof.
  intros schedule f.
  assert (MarketMakingParamsDataFeed.uncancelled schedule) as H
    by (repeat constructor; done).
  exact (tick_reads_the_last_good_body (λ _, None) schedule
           "http://feed/?markets=" "X-BTC" 0.5 scenario_a_config
           scenario_a_world scenario_b_state H eq_refl).
Defined.

(** ** What Part Three accepts *)

#[export] Instance proposing_soundly_refl cfg w : Reflexive (proposing_soundly cfg w).
Proof.
  intros s. split; [done|]. split; [done|]. exists [].
  rewrite app_nil_r. split; [done|]. split; [done|]. intros tp. by left.
Qed.

#[export] Instance proposing_soundly_trans cfg w :
  Transitive (proposing_soundly cfg w).
Proof.
  intros s1 s2 s3 (O1 & T1 & new1 & E1 & F1 & L1) (O2 & T2 & new2 & E2 & F2 & L2).
  split; [congruence|]. split; [lia|]. exists (new1 ++ new2).
  split; [by rewrite E2, E1, app_assoc|].
  split; [apply Forall_app; split; [done | by rewrite <- O1]|].
  intros tp. rewrite accepts_app.
  destruct (L2 tp) as [H2|(side & k & Hin & Hk & H2)].
  - destruct (L1 tp) as [H1|(side & k & Hin & Hk & H1)].
    + left. congruence.
    + right. exists side, k. rewrite H2.
      split; [apply elem_of_app; by left|]. split; [lia | done].
  - right. exists side, k.
    split; [apply elem_of_app; by right|]. split; [lia | done].
Qed.

(** A step without an event that leaves the orders and the order times. *)
Lemma soundly_quietly cfg w s s' :
  orders s' = orders s → (ticks s ≤ ticks s')%nat → events s' = events s →
  last_order_time s' = last_order_time s →
  proposing_soundly cfg w s s'.
Proof.
  intros O T E L. split; [done|]. split; [done|]. exists [].
  rewrite app_nil_r, L. split; [done|]. split; [done|]. intros tp. by left.
Qed.

(** An event that is no proposal. *)
Lemma soundly_emit cfg w e :
  accepted e = None → sat (proposing_soundly cfg w) (emit e).
Proof.
  intros H. apply sat_modify. intros s. split; [done|]. split; [done|].
  exists [e]. split; [done|]. split; [|by left].
  apply Forall_singleton. by destruct e.
Qed.

Ltac soundly_step :=
  first
    [ apply soundly_emit; reflexivity
    | apply sat_modify; intros ?; apply soundly_quietly; (done || (cbn; lia))
    | lazymatch goal with
      | |- sat _ (time_time _) => intros ?; apply soundly_quietly; (done || (cbn; lia))
      end
    | sat_step ].

Lemma soundly_part_one cfg w : sat (proposing_soundly cfg w) (part_one cfg w).
Proof.
  unfold part_one, part_one_pair, cancel_if_above, cancel_if_below, cancel.
  repeat soundly_step.
Qed.

Lemma soundly_part_two cfg w : sat (proposing_soundly cfg w) (part_two cfg w).
Proof.
  unfold part_two, part_two_pair, cancel_if_above, cancel_if_below, cancel.
  repeat soundly_step.
Qed.

Lemma soundly_place_orders cfg w proposal :
  sat (proposing_soundly cfg w) (place_orders proposal).
Proof. unfold place_orders, place_order. repeat soundly_step. Qed.

Lemma dec_div_ok a b q :
  dec_div a b = Ok q → ¬ b == 0 ∧ q = round28 (a / b).
Proof.
  unfold dec_div. destruct (Qeq_bool b 0) eqn:E.
  - by destruct (Qeq_bool a 0).
  - intros [= <-]. split; [|done]. by apply Qeq_bool_neq.
Qed.

(** A proposal that was accepted for [tp] at the clock reading of [s]. *)
Lemma soundly_accepted cfg w s side tp price amount :
  sound cfg w (orders s) (EvProposal side tp price amount) →
  proposing_soundly cfg w s
    (set_last_order_time tp (clock w (ticks s))
       (tick (record (EvProposal side tp price amount) s))).
Proof.
  intros H. split; [done|]. split; [cbn; lia|].
  exists [EvProposal side tp price amount]. split; [done|].
  split; [by apply Forall_singleton|].
  intros tp'. destruct (decide (tp' = tp)) as [->|Hne].
  - right. exists side, (ticks s). cbn.
    split; [apply list_elem_of_singleton; done|].
    split; [lia|]. by rewrite lookup_insert_eq.
  - left. cbn. by rewrite lookup_insert_ne.
Qed.

Lemma soundly_propose_buy cfg w tp base_cur quote_cur buy_price_max
    orderbook_bid c proposal :
  split "-" tp = [base_cur; quote_cur] →
  sat (proposing_soundly cfg w)
    (propose_buy cfg w tp quote_cur buy_price_max orderbook_bid c proposal).
Proof.
  intros Hsplit s. unfold propose_buy. rewrite run_read.
  destruct (orders s !! tp) as [[buys sells]|] eqn:Ho; cycle 1.
  { by rewrite run_getitem_none. }
  rewrite (run_getitem _ _ _ _ _ Ho). cbn [fst snd].
  destruct buys as [|o buys]; cbn [length Nat.eqb andb]; [|done].
  destruct (String.eqb tp "IRIS-BTC") eqn:Hi; cbn [negb]; [done|].
  apply String.eqb_neq in Hi. rewrite run_lift.
  destruct orderbook_bid as [ob_bid|]; cbn [compared]; [|done].
  destruct (Qlt_bool _ ob_bid) eqn:Hd; [done|].
  destruct (quote_curs cfg !! quote_cur) as [size|] eqn:Hq; cycle 1.
  { by rewrite run_getitem_none. }
  rewrite (run_getitem _ _ _ _ _ Hq), run_lift.
  destruct (dec_div _ _) as [amount|e] eqn:Ha; [|done].
  rewrite run_lift.
  destruct (dec_div (get_available_balance _ _) _) as [available|e] eqn:Hv; [|done].
  destruct (Qlt_bool amount _) eqn:Hlt; [|done].
  apply dec_div_ok in Ha as [Hp ->]. apply dec_div_ok in Hv as [_ ->].
  apply Qlt_bool_true in Hlt.
  refine (soundly_accepted cfg w s BUY tp _ _ _). cbn.
  split; [done|]. split; [by exists sells|].
  exists base_cur, quote_cur, size. by repeat split.
Qed.

Lemma soundly_propose_sell cfg w tp base_cur quote_cur sell_price_min
    orderbook_ask c proposal :
  split "-" tp = [base_cur; quote_cur] →
  sat (proposing_soundly cfg w)
    (propose_sell cfg w tp base_cur quote_cur sell_price_min orderbook_ask
       c proposal).
Proof.
  intros Hsplit s. unfold propose_sell. rewrite run_read.
  destruct (orders s !! tp) as [[buys sells]|] eqn:Ho; cycle 1.
  { by rewrite run_getitem_none. }
  rewrite (run_getitem _ _ _ _ _ Ho). cbn [fst snd].
  destruct sells as [|o sells]; cbn [length Nat.eqb]; [|done].
  rewrite run_lift.
  destruct orderbook_ask as [ob_ask|]; cbn [compared]; [|done].
  destruct (Qlt_bool ob_ask _) eqn:Hd; [done|].
  destruct (quote_curs cfg !! quote_cur) as [size|] eqn:Hq; cycle 1.
  { by rewrite run_getitem_none. }
  rewrite (run_getitem _ _ _ _ _ Hq).
  destruct (Qle_bool size _) eqn:Hle; [|done].
  apply Qle_bool_iff in Hle.
  refine (soundly_accepted cfg w s SELL tp _ _ _). cbn.
  split; [by exists buys|].
  exists base_cur, quote_cur, size. by repeat split.
Qed.

Lemma sat_bind_split_pair {B} (R : state → state → Prop)
    `{!Reflexive R, !Transitive R} tp (f : string * string → M B) :
  (∀ base_cur quote_cur,
     split "-" tp = [base_cur; quote_cur] → sat R (f (base_cur, quote_cur))) →
  sat R (split_pair tp ≫= f).
Proof.
  intros H s. rewrite run_bind. unfold split_pair.
  destruct (split "-" tp) as [|b [|q [|? ?]]] eqn:E; simpl; try reflexivity.
  by apply H.
Qed.

Lemma soundly_part_three_pair cfg w tp c :
  sat (proposing_soundly cfg w) (part_three_pair cfg w tp c).
Proof.
  unfold part_three_pair.
  repeat first
    [ apply sat_bind_split_pair;
        [tc_solve | tc_solve | intros base_cur quote_cur Hsplit; cbn [fst snd]]
    | by eapply soundly_propose_buy
    | by eapply soundly_propose_sell
    | apply soundly_place_orders
    | soundly_step ].
Qed.

Lemma soundly_part_three cfg w : sat (proposing_soundly cfg w) (part_three cfg w).
Proof.
  apply sat_for_each; try tc_solve. intros. apply soundly_part_three_pair.
Qed.

Lemma soundly_reconcile cfg w : sat (proposing_soundly cfg w) (reconcile cfg w).
Proof.
  unfold reconcile. cbv zeta.
  apply sat_bind; [tc_solve | apply soundly_part_one | intros n1].
  apply sat_bind;
    [tc_solve
    |destruct (_ =? 0)%nat; [apply soundly_part_two | apply sat_ret; tc_solve]
    |intros n2].
  apply sat_bind;
    [tc_solve
    |destruct (_ =? 0)%nat; [apply soundly_part_three | apply sat_ret; tc_solve]
    |intros p].
  repeat soundly_step.
Qed.

(** The events of a cycle are sound for the snapshot of the open orders
    that the cycle ends with, and it arms the order time of a pair only
    for an accepted proposal. *)
Lemma on_tick_sound cfg w s :
  Forall (sound cfg w (orders (on_tick cfg w s).2)) (new_events (on_tick cfg w) s)
  ∧ ∀ tp,
      last_order_time (on_tick cfg w s).2 !! tp = last_order_time s !! tp
      ∨ ∃ side k,
          (side, tp) ∈ accepts (new_events (on_tick cfg w) s)
          ∧ (ticks s ≤ k < ticks (on_tick cfg w s).2)%nat
          ∧ last_order_time (on_tick cfg w s).2 !! tp = Some (clock w k).
Proof.
  assert (∀ s0 : state,
    events s0 = events s → ticks s0 = ticks s →
    last_order_time s0 = last_order_time s →
    ∀ s', proposing_soundly cfg w s0 s' →
      Forall (sound cfg w (orders s')) (drop (length (events s)) (events s'))
      ∧ ∀ tp,
          last_order_time s' !! tp = last_order_time s !! tp
          ∨ ∃ side k,
              (side, tp) ∈ accepts (drop (length (events s)) (events s'))
              ∧ (ticks s ≤ k < ticks s')%nat
              ∧ last_order_time s' !! tp = Some (clock w k)) as Hrun.
  { intros s0 E T L s' (O & T' & new & E' & F & L').
    rewrite E', E, drop_app_length, O, <- L, <- T. by split. }
  unfold new_events, on_tick. rewrite run_read.
  destruct (started s); cbn [negb]; cycle 1.
  { rewrite run_emit, run_modify.
    cbn [mret M_ret ret snd set_started record events orders last_order_time ticks].
    rewrite drop_app_length. split; [by apply Forall_singleton|].
    intros tp. by left. }
  destruct (bid_ask_markets_json w) as [| |d].
  - cbn [mret M_ret ret snd]. rewrite drop_all. split; [done|]. intros tp. by left.
  - cbn [raise snd]. rewrite drop_all. split; [done|]. intros tp. by left.
  - rewrite run_modify. set (s1 := set_bid_ask_markets_dict d s).
    rewrite run_bind.
    destruct (quiet_snapshot cfg w s1) as (E & T & L & _).
    destruct (snapshot cfg w s1) as [[[]|e] s2]; cbn [snd] in E, T, L.
    + rewrite run_bind.
      pose proof (soundly_reconcile cfg w s2) as H.
      destruct (reconcile cfg w s2) as [[r|e] s3]; cbn [snd] in *;
        by apply (Hrun s2).
    + cbn [snd]. apply (Hrun s2); [done..|]. reflexivity.
Qed.

(** X7 (on_tick, Part Three): a cycle never stacks orders.  Every proposal
    it accepts is for a side that is empty in the snapshot of the open
    orders taken in that cycle (which the cycle ends with): a buy only
    for a pair without open buy order, a sell only for a pair without open
    sell order; and no buy is ever proposed for IRIS-BTC. *)
Theorem proposals_never_stack cfg w s :
  Forall
    (λ e, match e with
          | EvProposal side tp _ _ =>
              ∃ buys sells,
                orders (on_tick cfg w s).2 !! tp = Some (buys, sells)
                ∧ match side with
                  | BUY => buys = [] ∧ tp ≠ "IRIS-BTC"%string
                  | SELL => sells = []
                  end
          | _ => True
          end)
    (new_events (on_tick cfg w) s).
Proof.
  destruct (on_tick_sound cfg w s) as [H _].
  eapply Forall_impl; [exact H|]. intros [| | |[] tp price amount|]; cbn; try done.
  - intros (Hi & (sells & Ho) & _). by exists [], sells.
  - intros ((buys & Ho) & _). by exists buys, [].
Qed.




(** X10 (on_tick, last_order_time): a cycle changes the last order time of
    a pair only by accepting a proposal for that pair, and then to a
    reading of the clock made in that cycle.  For every other pair, and in
    every cycle that ends early, raises, cancels or skips, the entry is
    what it was before. *)
Theorem order_time_is_armed_by_acceptance cfg w s tp :
  last_order_time (on_tick cfg w s).2 !! tp = last_order_time s !! tp
  ∨ ∃ side k,
      (side, tp) ∈ accepts (new_events (on_tick cfg w) s)
      ∧ (ticks s ≤ k < ticks (on_tick cfg w s).2)%nat
      ∧ last_order_time (on_tick cfg w s).2 !! tp = Some (clock w k).
Proof. apply on_tick_sound. Qed.

(** ** The snapshots *)

Lemma reset_orders_run tp sides s :
  orders s !! tp = Some sides →
  reset_orders tp tt s = (Ok tt, set_orders (<[tp := ([], [])]> (orders s)) s).
Proof.
  intros H. unfold reset_orders. by rewrite run_read, (run_getitem _ _ _ _ _ H).
Qed.

Lemma reset_orders_loop l s :
  (∀ tp, tp ∈ l → is_Some (orders s !! tp)) →
  ∃ m, for_each l reset_orders tt s = (Ok tt, set_orders m s)
       ∧ ∀ tp, m !! tp = if decide (tp ∈ l) then Some ([], []) else orders s !! tp.
Proof.
  revert s. induction l as [|tp0 l IH]; intros s H.
  { exists (orders s). split; [by destruct s|]. intros tp.
    by rewrite decide_False by apply not_elem_of_nil. }
  destruct (H tp0) as [sides Hs]; [by left|].
  cbn [for_each]. rewrite run_bind, (reset_orders_run _ _ _ Hs).
  destruct (IH (set_orders (<[tp0 := ([], [])]> (orders s)) s)) as (m & Hrun & Hm).
  { intros tp Hin. cbn. apply lookup_insert_is_Some'. right. apply H. by right. }
  exists m. split; [by rewrite Hrun|]. intros tp. rewrite Hm. cbn.
  destruct (decide (tp ∈ l)) as [Hin|Hin].
  - rewrite decide_True; [done | by right].
  - destruct (decide (tp = tp0)) as [->|Hne].
    + rewrite decide_True by by left. by rewrite lookup_insert_eq.
    + rewrite decide_False; [by rewrite lookup_insert_ne|].
      by intros [?|?]%elem_of_cons.
Qed.

Lemma file_order_run o sides s :
  orders s !! o_trading_pair o = Some sides →
  file_order o tt s
  = (Ok tt,
     set_orders
       (<[o_trading_pair o :=
            if o_is_buy o then (dict_set sides.1 o, sides.2)
            else (sides.1, dict_set sides.2 o)]> (orders s)) s).
Proof.
  intros H. unfold file_order. by rewrite run_read, (run_getitem _ _ _ _ _ H).
Qed.

Lemma filed_cons tp is_buy o active d :
  filed tp is_buy (o :: active) d
  = filed tp is_buy active
      (if decide (o_trading_pair o = tp ∧ o_is_buy o = is_buy)
       then dict_set d o else d).
Proof.
  unfold filed. rewrite filter_cons. by destruct (decide _).
Qed.

Lemma file_order_loop l s :
  (∀ o, o ∈ l → is_Some (orders s !! o_trading_pair o)) →
  ∃ m, for_each l file_order tt s = (Ok tt, set_orders m s)
       ∧ ∀ tp, m !! tp
               = (λ sides, (filed tp true l sides.1, filed tp false l sides.2))
                 <$> orders s !! tp.
Proof.
  revert s. induction l as [|o l IH]; intros s H.
  { exists (orders s). split; [by destruct s|]. intros tp. cbn.
    by destruct (orders s !! tp) as [[]|]. }
  destruct (H o) as [sides Hs]; [by left|].
  cbn [for_each]. rewrite run_bind, (file_order_run _ _ _ Hs).
  match goal with |- context [set_orders ?m1 s] =>
    destruct (IH (set_orders m1 s)) as (m & Hrun & Hm) end.
  { intros o' Hin. cbn. apply lookup_insert_is_Some'. right. apply H. by right. }
  exists m. split; [by rewrite Hrun|]. intros tp. rewrite Hm.
  cbn [orders set_orders].
  destruct (decide (tp = o_trading_pair o)) as [->|Hne].
  - rewrite lookup_insert_eq, Hs. cbn [fmap option_fmap option_map].
    rewrite !filed_cons.
    destruct (o_is_buy o); cbn [fst snd].
    + rewrite decide_True by done.
      rewrite (decide_False (P := _ ∧ true = false)); [done | by intros [_ ?]].
    + rewrite (decide_False (P := _ ∧ false = true)) by by intros [_ ?].
      by rewrite decide_True.
  - rewrite lookup_insert_ne by done.
    destruct (orders s !! tp) as [sd|]; [|done].
    cbn [fmap option_fmap option_map]. rewrite !filed_cons.
    rewrite !decide_False; [done| |]; by intros [? _].
Qed.

Lemma fetch_orderbook_loop w l s :
  ∃ s', for_each l (fetch_orderbook w) tt s = (Ok tt, s')
    ∧ orders s' = orders s
    ∧ ∀ tp,
        orderbook_bid s' !! tp
        = (if decide (tp ∈ l) then Some (get_price w tp false)
           else orderbook_bid s !! tp)
        ∧ orderbook_ask s' !! tp
          = (if decide (tp ∈ l) then Some (get_price w tp true)
             else orderbook_ask s !! tp).
Proof.
  revert s. induction l as [|tp0 l IH]; intros s.
  { exists s. split; [done|]. split; [done|]. intros tp.
    by rewrite !decide_False by apply not_elem_of_nil. }
  cbn [for_each]. rewrite run_bind. unfold fetch_orderbook at 1.
  rewrite run_modify.
  match goal with |- context [modify ?f ?s0] =>
    destruct (IH (f s0)) as (s' & Hrun & Ho & Hb) end.
  exists s'. split; [exact Hrun|]. split; [by rewrite Ho|].
  intros tp. destruct (Hb tp) as [-> ->]. cbn.
  destruct (decide (tp ∈ l)) as [Hin|Hin].
  - by rewrite !decide_True by by right.
  - destruct (decide (tp = tp0)) as [->|Hne].
    + rewrite !decide_True by by left. by rewrite !lookup_insert_eq.
    + rewrite !decide_False by by intros [?|?]%elem_of_cons.
      by rewrite !lookup_insert_ne.
Qed.

(** What a dictionary of orders holds after an assignment. *)
Lemma elem_of_dict_set d o x : x ∈ dict_set d o → x = o ∨ x ∈ d.
Proof.
  induction d as [|o' d IH]; cbn.
  - intros ->%list_elem_of_singleton. by left.
  - destruct (String.eqb _ _).
    + intros [->|?]%elem_of_cons; [by left | right; by right].
    + intros [->|[->|?]%IH]%elem_of_cons;
        [right; by left | by left | right; by right].
Qed.

Lemma dict_set_keeps d o x :
  x ∈ d → ∃ x', x' ∈ dict_set d o ∧ o_client_order_id x' = o_client_order_id x.
Proof.
  induction d as [|o' d IH]; [by intros ?%not_elem_of_nil|].
  cbn. destruct (String.eqb _ _) eqn:E.
  - apply String.eqb_eq in E. intros [->|?]%elem_of_cons.
    + exists o. split; [by left | done].
    + exists x. split; [by right | done].
  - intros [->|(x' & ? & ?)%IH]%elem_of_cons.
    + exists o'. split; [by left | done].
    + exists x'. split; [by right | done].
Qed.

Lemma dict_set_has d o : o ∈ dict_set d o.
Proof.
  induction d as [|o' d IH]; cbn; [by left|].
  destruct (String.eqb _ _); [by left | by right].
Qed.

Lemma elem_of_filed tp is_buy active d x :
  x ∈ filed tp is_buy active d →
  x ∈ d ∨ (x ∈ active ∧ o_trading_pair x = tp ∧ o_is_buy x = is_buy).
Proof.
  revert d. induction active as [|o active IH]; intros d; [by left|].
  rewrite filed_cons. intros [H|(?&?&?)]%IH; [|right; by split; [right|]].
  destruct (decide _) as [[? ?]|_]; [|by left].
  apply elem_of_dict_set in H as [->|?]; [|by left].
  right. by split; [left|].
Qed.

Lemma filed_keeps tp is_buy active d x :
  x ∈ d →
  ∃ x', x' ∈ filed tp is_buy active d
        ∧ o_client_order_id x' = o_client_order_id x.
Proof.
  revert d x. induction active as [|o active IH]; intros d x Hx.
  { by exists x. }
  rewrite filed_cons. destruct (decide _) as [_|_]; [|by apply IH].
  destruct (dict_set_keeps d o x Hx) as (x1 & H1 & E1).
  destruct (IH _ x1 H1) as (x' & H' & E'). exists x'. split; [done | congruence].
Qed.

Lemma filed_has tp is_buy active d x :
  x ∈ active → o_trading_pair x = tp → o_is_buy x = is_buy →
  ∃ x', x' ∈ filed tp is_buy active d
        ∧ o_client_order_id x' = o_client_order_id x.
Proof.
  revert d. induction active as [|o active IH]; intros d Hx Ht Hb;
    [by apply not_elem_of_nil in Hx|].
  rewrite filed_cons. apply elem_of_cons in Hx as [->|Hx]; [|by apply IH].
  rewrite decide_True by done. apply filed_keeps, dict_set_has.
Qed.

Lemma snapshot_run cfg w s :
  (∀ tp, tp ∈ trading_pairs cfg → is_Some (orders s !! tp)) →
  (∀ o, o ∈ get_active_orders w → is_Some (orders s !! o_trading_pair o)) →
  (snapshot cfg w s).1 = Ok tt
  ∧ ∀ tp, tp ∈ trading_pairs cfg →
      orders (snapshot cfg w s).2 !! tp
      = Some (filed tp true (get_active_orders w) [],
              filed tp false (get_active_orders w) [])
      ∧ orderbook_bid (snapshot cfg w s).2 !! tp = Some (get_price w tp false)
      ∧ orderbook_ask (snapshot cfg w s).2 !! tp = Some (get_price w tp true).
Proof.
  intros Hp Ha. unfold snapshot.
  destruct (reset_orders_loop (trading_pairs cfg) s Hp) as (m1 & R1 & M1).
  rewrite (run_bind_ok _ _ _ _ _ R1).
  destruct (file_order_loop (get_active_orders w) (set_orders m1 s))
    as (m2 & R2 & M2).
  { intros o Ho. cbn. rewrite M1. destruct (decide _); [done | by apply Ha]. }
  rewrite (run_bind_ok _ _ _ _ _ R2).
  destruct (fetch_orderbook_loop w (trading_pairs cfg) (set_orders m2 (set_orders m1 s)))
    as (s3 & R3 & O3 & B3).
  rewrite R3. split; [done|]. intros tp Hin. cbn [snd].
  destruct (B3 tp) as [-> ->]. rewrite !decide_True by done.
  rewrite O3. cbn. rewrite M2. cbn. rewrite M1, decide_True by done. done.
Qed.

(** X11 (on_tick, "Fetch open orders once and store"): when every trading
    pair and the pair of every active order has its entry in the dictionary
    of open orders, the snapshot does not raise, and afterwards each side
    of each trading pair holds exactly the active orders of that pair and
    side, whatever it held before: every order listed is an active order
    of the pair and side, and every such active order is listed under its
    client order id.  The two order books of the pair are what [get_price]
    answers. *)
Theorem snapshot_files_the_active_orders cfg w s :
  (∀ tp, tp ∈ trading_pairs cfg → is_Some (orders s !! tp)) →
  (∀ o, o ∈ get_active_orders w → is_Some (orders s !! o_trading_pair o)) →
  (snapshot cfg w s).1 = Ok tt
  ∧ ∀ tp, tp ∈ trading_pairs cfg →
      ∃ buys sells,
        orders (snapshot cfg w s).2 !! tp = Some (buys, sells)
        ∧ (∀ o, o ∈ buys →
             o ∈ get_active_orders w ∧ o_trading_pair o = tp ∧ o_is_buy o = true)
        ∧ (∀ o, o ∈ sells →
             o ∈ get_active_orders w ∧ o_trading_pair o = tp ∧ o_is_buy o = false)
        ∧ (∀ o, o ∈ get_active_orders w → o_trading_pair o = tp →
             ∃ o', o' ∈ (if o_is_buy o then buys else sells)
                   ∧ o_client_order_id o' = o_client_order_id o)
        ∧ orderbook_bid (snapshot cfg w s).2 !! tp = Some (get_price w tp false)
        ∧ orderbook_ask (snapshot cfg w s).2 !! tp = Some (get_price w tp true).
Proof.
  intros Hp Ha. destruct (snapshot_run cfg w s Hp Ha) as [Hok H].
  split; [done|]. intros tp Hin. destruct (H tp Hin) as (Ho & Hb & Hk).
  eexists _, _. split; [exact Ho|].
  split.
  { intros o [[]%not_elem_of_nil|?]%elem_of_filed. done. }
  split.
  { intros o [[]%not_elem_of_nil|?]%elem_of_filed. done. }
  split; [|done].
  intros o Hact Htp. destruct (o_is_buy o) eqn:E; by apply filed_has.
Qed.

Lemma snapshot_files_the_active_orders_witness :
  let cfg := default_config ["A-BTC"; "B-BTC"; "C-BTC"]%string in
  (snapshot cfg scenario_d_world (running cfg scenario_d_world)).1 = Ok tt.
Proof.
  intros cfg. apply snapshot_files_the_active_orders.
  - intros tp Hin. repeat apply elem_of_cons in Hin as [->|Hin];
      [vm_compute; eauto..|by apply not_elem_of_nil in Hin].
  - intros o Hin. repeat apply elem_of_cons in Hin as [->|Hin];
      [vm_compute; eauto..|by apply not_elem_of_nil in Hin].
Defined.

(** X12 (on_tick, "Fetch open orders once and store"): an active order
    whose trading pair has no entry in the dictionary of open orders (a
    pair the strategy does not trade) makes the cycle raise KeyError for
    that pair while the orders are filed.  Nothing is cancelled, proposed
    or placed, no clock is read and the order books are not refreshed; the
    orders listed before it are filed, the ones after it are not. *)
Theorem untracked_order_stops_the_cycle cfg w s d before o after :
  started s = true →
  bid_ask_markets_json w = PayloadJSON d →
  (∀ tp, tp ∈ trading_pairs cfg → is_Some (orders s !! tp)) →
  get_active_orders w = before ++ o :: after →
  (∀ o', o' ∈ before → is_Some (orders s !! o_trading_pair o')) →
  orders s !! o_trading_pair o = None →
  (on_tick cfg w s).1 = Raise (KeyError (o_trading_pair o))
  ∧ events (on_tick cfg w s).2 = events s
  ∧ ticks (on_tick cfg w s).2 = ticks s
  ∧ orderbook_bid (on_tick cfg w s).2 = orderbook_bid s
  ∧ orderbook_ask (on_tick cfg w s).2 = orderbook_ask s
  ∧ ∀ tp, tp ∈ trading_pairs cfg →
      orders (on_tick cfg w s).2 !! tp
      = Some (filed tp true before [], filed tp false before []).
Proof.
  intros Hs Hd Hp Ha Hb Ho. unfold on_tick.
  rewrite run_read, Hs, Hd. cbn [negb]. rewrite run_modify.
  set (s0 := set_bid_ask_markets_dict d s).
  destruct (reset_orders_loop (trading_pairs cfg) s0 Hp) as (m1 & R1 & M1).
  assert (∀ tp, m1 !! tp = None ↔ orders s !! tp = None) as Hnone.
  { intros tp. rewrite M1. destruct (decide _) as [Hin|]; [|done].
    destruct (Hp tp Hin) as [sides E]. cbn in E. by rewrite E. }
  destruct (file_order_loop before (set_orders m1 s0)) as (m2 & R2 & M2).
  { intros o' Hin. cbn. apply not_eq_None_Some. rewrite Hnone.
    apply not_eq_None_Some. by apply Hb. }
  assert (file_order o tt (set_orders m2 (set_orders m1 s0))
          = (Raise (KeyError (o_trading_pair o)), set_orders m2 (set_orders m1 s0)))
    as R3.
  { unfold file_order. rewrite run_read. apply run_getitem_none. cbn.
    rewrite M2. cbn. apply Hnone in Ho. by rewrite Ho. }
  assert (snapshot cfg w s0
          = (Raise (KeyError (o_trading_pair o)),
             set_orders m2 (set_orders m1 s0))) as Hsnap.
  { unfold snapshot. rewrite (run_bind_ok _ _ _ _ _ R1), Ha.
    apply run_bind_raise. by apply (for_each_raise _ _ _ _ _ _ _ _ _ _ R2 R3). }
  rewrite (run_bind_raise _ _ _ _ _ Hsnap).
  cbn. repeat split.
  intros tp Hin. rewrite M2. cbn. by rewrite M1, decide_True.
Qed.

Lemma untracked_order_stops_the_cycle_witness :
  let cfg := default_config ["A-BTC"]%string in
  (on_tick cfg b_alone_world (running cfg b_alone_world)).1
  = Raise (KeyError "B-BTC").
Proof.
  intros cfg.
  refine (proj1 (untracked_order_stops_the_cycle cfg b_alone_world
                   (running cfg b_alone_world)
                   {[ "B-BTC"%string := fair ]}
                   [] (Order "B-BTC" true "b1" 0.00105) [] _ _ _ _ _ _)).
  - reflexivity.
  - reflexivity.
  - intros tp Hin. repeat apply elem_of_cons in Hin as [->|Hin];
      [vm_compute; eauto..|by apply not_elem_of_nil in Hin].
  - reflexivity.
  - intros o' Hin. by apply not_elem_of_nil in Hin.
  - by vm_compute.
Defined.

(** ** Errors of Part Three *)

(** X13 (on_tick, Part Three, buy side): a reference bid of 0, the value
    the feed uses to mark stale data, together with a best bid of 0 makes
    the buy price 0.  For a pair that is due, has no open buy order and is
    not IRIS-BTC, the division of the order size by the price then raises
    DivisionByZero (InvalidOperation if the order size is 0 as well): the
    cycle ends there, nothing is proposed or placed for the pair, and its
    sell side is not looked at. *)
Theorem zero_buy_price_raises cfg w tp c s last ref_bid ref_ask ob_bid ob_ask
    base_cur quote_cur sells size :
  num_orders c = 0%nat →
  last_order_time s !! tp = Some last →
  last + time_between_orders_for_trading_pair cfg <= clock w (ticks s) →
  bid_ask_markets_dict s !! tp = Some (BidAsk (JNum ref_bid) (JNum ref_ask)) →
  orderbook_bid s !! tp = Some (Fin ob_bid) →
  orderbook_ask s !! tp = Some ob_ask →
  split "-" tp = [base_cur; quote_cur] →
  orders s !! tp = Some ([], sells) →
  tp ≠ "IRIS-BTC"%string →
  quote_curs cfg !! quote_cur = Some size →
  ref_bid == 0 →
  ob_bid == 0 →
  part_three_pair cfg w tp c s
  = (Raise (if Qeq_bool (size * size_multiple cfg) 0
            then InvalidOperation else DivisionByZero),
     set_trading_pair tp (tick s)).
Proof.
  intros Hc Hl Hdue Hd Hb Ha Hsplit Ho Hi Hq Hrb Hob.
  unfold part_three_pair. rewrite Hc. cbn [Nat.ltb Nat.leb].
  rewrite run_time_time, run_read. cbn [last_order_time tick].
  rewrite (run_getitem _ _ _ _ _ Hl).
  apply Qlt_bool_false in Hdue. rewrite Hdue.
  rewrite run_modify, run_read. cbn [bid_ask_markets_dict set_trading_pair].
  rewrite (run_getitem _ _ _ _ _ Hd). cbn [bid ask Decimal dec_mul].
  rewrite run_read. cbn [orderbook_bid]. rewrite (run_getitem _ _ _ _ _ Hb).
  rewrite run_read. cbn [orderbook_ask]. rewrite (run_getitem _ _ _ _ _ Ha).
  unfold split_pair at 1. rewrite Hsplit, run_ret. cbn [fst snd].
  rewrite run_bind. unfold propose_buy. rewrite run_read. cbn [orders].
  rewrite (run_getitem _ _ _ _ _ Ho). cbn [fst snd length Nat.eqb andb].
  apply String.eqb_neq in Hi. rewrite Hi. cbn [negb].
  rewrite run_lift. cbn [compared].
  assert (round28 (ref_bid * float_sub 1 (buy_place_ratio cfg)) = 0) as ->.
  { apply round28_zero. rewrite Hrb. ring. }
  assert (round28 (0 * float_add 1 (buy_place_max_distance cfg)) = 0) as ->.
  { apply round28_zero. ring. }
  assert (ob_bid <= 0) as Hnear by lra.
  apply Qlt_bool_false in Hnear. rewrite Hnear.
  rewrite (run_getitem _ _ _ _ _ Hq), run_lift.
  assert (buy_price 0 ob_bid = 0) as ->.
  { apply buy_price_max_kept. lra. }
  unfold dec_div. change (Qeq_bool 0 0) with true. cbv iota.
  rewrite round28_is_zero.
  by destruct (Qeq_bool (size * size_multiple cfg) 0).
Qed.

Lemma zero_buy_price_raises_witness :
  part_three_pair scenario_a_config scenario_a_world "X-BTC" no_proposals
    zero_bid_state
  = (Raise DivisionByZero, set_trading_pair "X-BTC" (tick zero_bid_state)).
Proof.
  refine (zero_buy_price_raises scenario_a_config scenario_a_world "X-BTC"
            no_proposals zero_bid_state 0 0 0 0 (Fin 0.00112) "X" "BTC" []
            (fl 0.000138)
            _ _ _ _ _ _ _ _ _ _ _ _);
    by vm_compute.
Defined.

(** ** Names of trading pairs *)

Lemma split_cons sep s : ∃ part parts, split sep s = part :: parts.
Proof.
  induction s as [|c s (part & parts & IH)]; cbn; [by eexists _, _|].
  destruct (Ascii.eqb c sep); [by eexists _, _|]. rewrite IH. by eexists _, _.
Qed.

Lemma length_split sep s : length (split sep s) = S (occurrences sep s).
Proof.
  induction s as [|c s IH]; cbn; [done|].
  destruct (Ascii.eqb c sep); cbn; [by rewrite IH|].
  destruct (split_cons sep s) as (part & parts & E). rewrite E in *. done.
Qed.

Lemma split_parts sep s :
  Forall (λ part, occurrences sep part = 0%nat) (split sep s).
Proof.
  induction s as [|c s IH]; cbn; [by repeat constructor|].
  destruct (Ascii.eqb c sep) eqn:Ec; [by constructor|].
  destruct (split_cons sep s) as (part & parts & E). rewrite E in *.
  apply Forall_cons in IH as [H1 H2]. constructor; [|done]. cbn. by rewrite Ec.
Qed.

Lemma concat_split sep s :
  String.concat (String sep EmptyString) (split sep s) = s.
Proof.
  induction s as [|c s IH]; [done|]. cbn [split].
  destruct (split_cons sep s) as (part & parts & E). rewrite E in *.
  destruct (Ascii.eqb c sep) eqn:Ec.
  - apply Ascii.eqb_eq in Ec as ->.
    change (String.concat (String sep "") ("" :: part :: parts)%string)
      with (String sep (String.concat (String sep "") (part :: parts))).
    by rewrite IH.
  - destruct parts as [|part' parts].
    + cbn in *. by rewrite IH.
    + change (String.concat (String sep "") (String c part :: part' :: parts))
        with (String c (part ++ String sep ""
                        ++ String.concat (String sep "") (part' :: parts)))%string.
      change (String.concat (String sep "") (part :: part' :: parts))
        with (part ++ String sep ""
              ++ String.concat (String sep "") (part' :: parts))%string in IH.
      by rewrite IH.
Qed.

(** X14 (on_tick, [trading_pair.split("-")]): the name of a trading pair is
    taken apart into base and quote currency exactly when it holds one
    dash: the two parts then hold none and give the name back when they
    are joined with a dash.  Any other name, without dash or with two or
    more, raises ValueError.  The state is untouched either way. *)
Theorem pair_names_need_one_dash tp s :
  match split_pair tp s with
  | (Ok (base_cur, quote_cur), s') =>
      s' = s
      ∧ tp = (base_cur ++ "-" ++ quote_cur)%string
      ∧ occurrences "-" base_cur = 0%nat
      ∧ occurrences "-" quote_cur = 0%nat
      ∧ occurrences "-" tp = 1%nat
  | (Raise e, s') =>
      s' = s ∧ e = ValueError ∧ occurrences "-" tp ≠ 1%nat
  end.
Proof.
  unfold split_pair.
  pose proof (length_split "-" tp) as Hlen.
  pose proof (split_parts "-" tp) as Hparts.
  pose proof (concat_split "-" tp) as Hcat.
  destruct (split "-" tp) as [|base_cur [|quote_cur [|? ?]]]; cbn in *;
    try (repeat split; try done; lia).
  apply Forall_cons in Hparts as [H1 [H2 _]%Forall_cons].
  repeat split; try done. lia.
Qed.

(** ** The budget checker *)

Section sim.
Context (R : state → state → Prop).

Lemma sim_ret {A} (a : A) : sim R (mret a) (mret a).
Proof. by intros s1 s2 H. Qed.

Lemma sim_raise {A} (e : exn) : sim R (@raise A e) (raise e).
Proof. by intros s1 s2 H. Qed.

Lemma sim_lift {A} (r : res A) : sim R (lift r) (lift r).
Proof. by intros s1 s2 H. Qed.

Lemma sim_getitem {V} (d : gmap string V) k : sim R (getitem d k) (getitem d k).
Proof. unfold getitem. destruct (d !! k); [apply sim_ret | apply sim_raise]. Qed.

Lemma sim_split_pair tp : sim R (split_pair tp) (split_pair tp).
Proof.
  unfold split_pair.
  destruct (split _ tp) as [|? [|? [|? ?]]];
    first [apply sim_raise | apply (sim_ret (_, _))].
Qed.

Lemma sim_read {A} (f : state → A) :
  (∀ s1 s2, R s1 s2 → f s1 = f s2) → sim R (read f) (read f).
Proof. intros Hf s1 s2 H. cbn. by rewrite (Hf s1 s2 H). Qed.

Lemma sim_modify (f1 f2 : state → state) :
  (∀ s1 s2, R s1 s2 → R (f1 s1) (f2 s2)) → sim R (modify f1) (modify f2).
Proof. intros Hf s1 s2 H. cbn. split; [done | by apply Hf]. Qed.

Lemma sim_bind {A B} (m1 m2 : M A) (f1 f2 : A → M B) :
  sim R m1 m2 → (∀ a, sim R (f1 a) (f2 a)) → sim R (m1 ≫= f1) (m2 ≫= f2).
Proof.
  intros Hm Hf s1 s2 H. rewrite !run_bind.
  destruct (Hm s1 s2 H) as (Hr & Hs).
  destruct (m1 s1) as [[a1|e1] t1], (m2 s2) as [[a2|e2] t2];
    cbn in Hr, Hs; simplify_eq; [by apply Hf | done].
Qed.

Lemma sim_for_each {X A} (l : list X) (body1 body2 : X → A → M A) a :
  (∀ x a, sim R (body1 x a) (body2 x a)) →
  sim R (for_each l body1 a) (for_each l body2 a).
Proof.
  intros Hb. revert a. induction l as [|x l IH]; intros a; cbn [for_each].
  - apply (sim_ret a).
  - apply sim_bind; [apply Hb | apply IH].
Qed.
End sim.

Lemma filter_snoc_place (l : list event) e :
  filter (λ e, is_place e = false) (l ++ [e])
  = filter (λ e, is_place e = false) l ++ (if is_place e then [] else [e]).
Proof.
  rewrite filter_app. f_equal. rewrite filter_cons.
  by destruct (is_place e) eqn:E; destruct (decide _).
Qed.

#[export] Instance same_but_placed_refl : Reflexive same_but_placed.
Proof. intros s. unfold same_but_placed. by repeat split. Qed.

#[export] Instance same_but_placed_trans : Transitive same_but_placed.
Proof.
  intros s1 s2 s3 (?&?&?&?&?&?&?&?&?&?) (?&?&?&?&?&?&?&?&?&?).
  unfold same_but_placed. repeat split; congruence.
Qed.

Lemma placed_place_orders l1 l2 :
  sim same_but_placed (place_orders l1) (place_orders l2).
Proof.
  intros s1 s2 H.
  destruct (place_orders_run l1 s1) as (-> & E1).
  destruct (place_orders_run l2 s2) as (-> & E2).
  split; [done|].
  assert (∀ l, sat same_but_placed (place_orders l)) as Hp.
  { clear. intros l. unfold place_orders, place_order.
    apply sat_for_each; [tc_solve..|]. intros c [].
    apply sat_modify. intros s. unfold same_but_placed. cbn -[filter].
    rewrite filter_snoc_place. cbn [is_place]. rewrite app_nil_r.
    by repeat split. }
  destruct H as (?&?&?&?&?&?&?&?&?&?).
  destruct (Hp l1 s1) as (?&?&?&?&?&?&?&?&?&?).
  destruct (Hp l2 s2) as (?&?&?&?&?&?&?&?&?&?).
  unfold same_but_placed. repeat split; congruence.
Qed.

(** A field update keeps two states the same but for the placed orders. *)
Ltac placed_update :=
  let H := fresh in
  intros ? ? H; unfold same_but_placed in *; cbn -[filter];
  rewrite ?filter_snoc_place; cbn [is_place];
  destruct H as (?&?&?&?&?&?&?&?&?&?); repeat split; congruence.

Lemma placed_time_time w1 w2 :
  clock w1 = clock w2 → sim same_but_placed (time_time w1) (time_time w2).
Proof.
  intros Hc s1 s2 H. pose proof H as (?&?&?&?&?&?&?&?&Ht&?). cbn -[filter].
  rewrite Hc, Ht. split; [done|]. revert H. generalize s1 s2. placed_update.
Qed.

Ltac placed_step :=
  lazymatch goal with
  | |- sim _ (place_orders _) (place_orders _) => apply placed_place_orders
  | |- sim _ (_ ≫= _) (_ ≫= _) => apply sim_bind; [|intros ?]
  | |- sim _ (mret _) (mret _) => apply sim_ret
  | |- sim _ (ret _) (ret _) => apply sim_ret
  | |- sim _ (raise _) (raise _) => apply sim_raise
  | |- sim _ (lift _) (lift _) => apply sim_lift
  | |- sim _ (getitem _ _) (getitem _ _) => apply sim_getitem
  | |- sim _ (split_pair _) (split_pair _) => apply sim_split_pair
  | |- sim _ (time_time _) (time_time _) => by apply placed_time_time
  | |- sim _ (read _) (read _) =>
      apply sim_read; by intros ? ? (?&?&?&?&?&?&?&?&?&?)
  | |- sim _ (modify _) (modify _) => apply sim_modify; placed_update
  | |- sim _ (emit _) (emit _) => apply sim_modify; placed_update
  | |- sim _ (for_each _ _ _) (for_each _ _ _) => apply sim_for_each; intros ? ?
  | |- sim _ (if ?b then _ else _) (if ?b then _ else _) => destruct b
  | |- sim _ (match ?x with _ => _ end) (match ?x with _ => _ end) => destruct x
  end.

Section placed.
Context (cfg : config) (w : world)
  (adjust1 adjust2 : list OrderCandidate → list OrderCandidate).
Let w1 := with_budget_checker adjust1 w.
Let w2 := with_budget_checker adjust2 w.

Lemma placed_part_one : sim same_but_placed (part_one cfg w1) (part_one cfg w2).
Proof.
  unfold part_one, part_one_pair, cancel_if_above, cancel_if_below, cancel.
  repeat placed_step.
Qed.

Lemma placed_part_two : sim same_but_placed (part_two cfg w1) (part_two cfg w2).
Proof.
  unfold part_two, part_two_pair, cancel_if_above, cancel_if_below, cancel.
  repeat placed_step.
Qed.

Lemma placed_part_three :
  sim same_but_placed (part_three cfg w1) (part_three cfg w2).
Proof.
  unfold part_three, part_three_pair, propose_buy, propose_sell.
  cbn [w1 w2 with_budget_checker get_available_balance].
  repeat placed_step.
Qed.

Lemma placed_snapshot : sim same_but_placed (snapshot cfg w1) (snapshot cfg w2).
Proof.
  unfold snapshot, reset_orders, file_order, fetch_orderbook.
  cbn [w1 w2 with_budget_checker get_active_orders get_price].
  repeat placed_step.
Qed.

Lemma placed_reconcile :
  sim same_but_placed (reconcile cfg w1) (reconcile cfg w2).
Proof.
  unfold reconcile. cbv zeta.
  apply sim_bind; [apply placed_part_one | intros n1].
  apply sim_bind;
    [destruct (_ =? 0)%nat; [apply placed_part_two | apply sim_ret] | intros n2].
  apply sim_bind;
    [destruct (_ =? 0)%nat; [apply placed_part_three | apply sim_ret] | intros p].
  repeat placed_step.
Qed.

Lemma placed_on_tick : sim same_but_placed (on_tick cfg w1) (on_tick cfg w2).
Proof.
  unfold on_tick. placed_step; [placed_step|].
  destruct (negb _); [repeat placed_step|].
  cbn [w1 w2 with_budget_checker bid_ask_markets_json].
  destruct (bid_ask_markets_json w) as [| |d]; [placed_step | placed_step |].
  placed_step; [placed_step|]. placed_step; [apply placed_snapshot|].
  placed_step; [apply placed_reconcile | placed_step].
Qed.
End placed.

(** X15 (adjust_proposal_to_budget, place_orders, on_tick): the budget
    checker decides which orders are placed and nothing else.  Two cycles
    that differ only in what [adjust_candidates] answers return the same
    (the same exception, or the same counts of cancellations, proposals
    and skips) and end in states that differ at most in the orders placed:
    the same cancellations and proposals are logged and the same time
    stamps are set.  A proposal whose order the budget checker drops is
    thus still counted in [num_orders] and still arms the last order time
    of its pair. *)
Theorem budget_checker_only_decides_what_is_placed cfg w adjust1 adjust2 s :
  (on_tick cfg (with_budget_checker adjust1 w) s).1
  = (on_tick cfg (with_budget_checker adjust2 w) s).1
  ∧ same_but_placed
      (on_tick cfg (with_budget_checker adjust1 w) s).2
      (on_tick cfg (with_budget_checker adjust2 w) s).2.
Proof. by apply placed_on_tick. Qed.

(** ** One pair at a time *)

#[export] Instance touching_refl tp : Reflexive (touching tp).
Proof.
  intros s. split; [done|]. split; [done|]. exists []. by rewrite app_nil_r.
Qed.

#[export] Instance touching_trans tp : Transitive (touching tp).
Proof.
  intros s1 s2 s3 (T1 & L1 & new1 & E1 & F1) (T2 & L2 & new2 & E2 & F2).
  split; [lia|]. split.
  - intros tp' Hne. destruct (L1 tp' Hne) as [<- <-]. by apply L2.
  - exists (new1 ++ new2). rewrite E2, E1, app_assoc. split; [done|].
    by apply Forall_app.
Qed.

Lemma touching_quietly tp s s' :
  (ticks s ≤ ticks s')%nat → events s' = events s →
  last_order_time s' = last_order_time s →
  last_cancel_time s' = last_cancel_time s →
  touching tp s s'.
Proof.
  intros T E L C. split; [done|]. split; [by rewrite L, C|].
  exists []. by rewrite app_nil_r.
Qed.

Lemma touching_emit tp e :
  (∀ tp', pair_of e = Some tp' → tp' = tp) → sat (touching tp) (emit e).
Proof.
  intros H. apply sat_modify. intros s. split; [done|]. split; [done|].
  exists [e]. split; [done|]. by apply Forall_singleton.
Qed.

Lemma touching_set_last_order_time tp t :
  sat (touching tp) (modify (set_last_order_time tp t)).
Proof.
  apply sat_modify. intros s. split; [done|]. split.
  - intros tp' Hne. cbn. by rewrite lookup_insert_ne.
  - exists []. by rewrite app_nil_r.
Qed.

Lemma touching_set_last_cancel_time tp t :
  sat (touching tp) (modify (set_last_cancel_time tp t)).
Proof.
  apply sat_modify. intros s. split; [done|]. split.
  - intros tp' Hne. cbn. by rewrite lookup_insert_ne.
  - exists []. by rewrite app_nil_r.
Qed.

Ltac touching_step :=
  first
    [ apply touching_set_last_order_time
    | apply touching_set_last_cancel_time
    | apply touching_emit; cbn; (done || by intros ? [= <-])
    | apply sat_modify; intros ?; apply touching_quietly; (done || (cbn; lia))
    | lazymatch goal with
      | |- sat _ (time_time _) =>
          intros ?; apply touching_quietly; (done || (cbn; lia))
      end
    | sat_step ].

Lemma touching_part_one_pair cfg w tp n :
  sat (touching tp) (part_one_pair cfg w tp n).
Proof.
  unfold part_one_pair, cancel_if_above, cancel_if_below, cancel.
  repeat touching_step.
Qed.

Lemma touching_part_two_pair cfg w tp n :
  sat (touching tp) (part_two_pair cfg w tp n).
Proof.
  unfold part_two_pair, cancel_if_above, cancel_if_below, cancel.
  repeat touching_step.
Qed.

Lemma touching_part_three_pair cfg w tp c :
  sat (touching tp) (part_three_pair cfg w tp c).
Proof.
  unfold part_three_pair, propose_buy, propose_sell, place_orders, place_order.
  repeat touching_step.
Qed.

(** X16 (on_tick, the three loops over the trading pairs): the evaluation
    of a pair touches that pair only.  Whatever Part One, Part Two or Part
    Three do for a pair, also when they raise, every cancellation,
    bad-reference line and proposal they log is about that pair, and the
    last cancel time and last order time of every other pair stay as they
    are; the clock is only read forwards. *)
Theorem pairs_are_evaluated_one_at_a_time cfg w tp n c s :
  touching tp s (part_one_pair cfg w tp n s).2
  ∧ touching tp s (part_two_pair cfg w tp n s).2
  ∧ touching tp s (part_three_pair cfg w tp c s).2.
Proof.
  split; [apply touching_part_one_pair|].
  split; [apply touching_part_two_pair | apply touching_part_three_pair].
Qed.

(** ** The debounce of a pair *)

#[export] Instance debounced_refl cfg w tp t : Reflexive (debounced cfg w tp t).
Proof.
  intros s. split; [done|]. exists []. rewrite app_nil_r. split; [done|].
  intros H _. split; [done|]. intros side. apply not_elem_of_nil.
Qed.

#[export] Instance debounced_trans cfg w tp t : Transitive (debounced cfg w tp t).
Proof.
  intros s1 s2 s3 (T1 & new1 & E1 & H1) (T2 & new2 & E2 & H2).
  split; [lia|]. exists (new1 ++ new2). rewrite E2, E1, app_assoc.
  split; [done|]. intros Hl Hk.
  destruct (H1 Hl Hk) as [Hl1 Hn1].
  destruct (H2 Hl1) as [Hl2 Hn2]; [intros k ?; apply Hk; lia|].
  split; [done|]. intros side. rewrite accepts_app, elem_of_app.
  intros [?|?]; [by eapply Hn1 | by eapply Hn2].
Qed.

(** A run that accepts nothing and leaves the order times. *)
Lemma debounced_quietly cfg w tp t s s' new :
  (ticks s ≤ ticks s')%nat → events s' = events s ++ new → accepts new = [] →
  last_order_time s' = last_order_time s →
  debounced cfg w tp t s s'.
Proof.
  intros T E A L. split; [done|]. exists new. split; [done|].
  intros H _. rewrite L, A. split; [done|]. intros side. apply not_elem_of_nil.
Qed.

Lemma cancelling_debounced cfg w tp t r s s' :
  cancelling r s s' → debounced cfg w tp t s s'.
Proof.
  intros (new & E & F & T & L & _).
  apply (debounced_quietly _ _ _ _ _ _ new); [lia|done| |done].
  by apply accepts_none, (cancel_not_part_three r).
Qed.

Lemma debounced_part_three_pair cfg w tp t tp' c :
  sat (debounced cfg w tp t) (part_three_pair cfg w tp' c).
Proof.
  intros s.
  destruct (touching_part_three_pair cfg w tp' c s) as (T & L & new & E & F).
  split; [done|]. exists new. split; [done|]. intros Hl Hk.
  destruct (decide (tp' = tp)) as [->|Hne].
  - assert (events (part_three_pair cfg w tp c s).2 = events s
            ∧ last_order_time (part_three_pair cfg w tp c s).2
              = last_order_time s) as [E' L'].
    { destruct (num_orders c) as [|k] eqn:Hc.
      - rewrite (part_three_pair_debounced cfg w tp c s t); [done..|].
        apply Hk. lia.
      - rewrite part_three_pair_capped by lia. done. }
    rewrite L'. split; [done|].
    rewrite E' in E. rewrite <- (app_nil_r (events s)) in E at 1.
    apply app_inv_head in E as <-. intros side. apply not_elem_of_nil.
  - destruct (L tp) as [-> _]; [done|]. split; [done|].
    intros side Hacc. unfold accepts in Hacc.
    apply list_elem_of_omap in Hacc as (e & Hin & He).
    rewrite Forall_forall in F. apply Hne. symmetry. apply (F e Hin tp).
    destruct e; cbn in *; by simplify_eq.
Qed.

Lemma debounced_reconcile cfg w tp t : sat (debounced cfg w tp t) (reconcile cfg w).
Proof.
  unfold reconcile. cbv zeta.
  apply sat_bind;
    [tc_solve
    |intros s; eapply cancelling_debounced, sat_part_one
    |intros n1].
  apply sat_bind;
    [tc_solve
    |destruct (_ =? 0)%nat;
       [intros s; eapply cancelling_debounced, sat_part_two
       |apply sat_ret; tc_solve]
    |intros n2].
  apply sat_bind;
    [tc_solve
    |destruct (_ =? 0)%nat;
       [apply sat_for_each; [tc_solve..|]; intros;
        apply debounced_part_three_pair
       |apply sat_ret; tc_solve]
    |intros p].
  apply sat_bind; [tc_solve| |intros ?; apply sat_ret; tc_solve].
  intros s. by apply (debounced_quietly _ _ _ _ _ _ []); cbn; rewrite ?app_nil_r; try lia.
Qed.

(** X17 (on_tick, Part Three, last_order_time): the debounce of a pair holds
    in every cycle.  While the last order time of a pair is [t] and the
    clock reads less than [time_between_orders_for_trading_pair] after [t],
    a cycle accepts no proposal for that pair, whatever the other pairs
    do and whether or not the cycle raises, and leaves the last order time
    of the pair at [t]. *)
Theorem debounce_blocks_proposals cfg w s tp t :
  last_order_time s !! tp = Some t →
  (∀ k, (ticks s ≤ k)%nat →
        clock w k < t + time_between_orders_for_trading_pair cfg) →
  (∀ side, (side, tp) ∉ accepts (new_events (on_tick cfg w) s))
  ∧ last_order_time (on_tick cfg w s).2 !! tp = Some t.
Proof.
  intros Hl Hk.
  assert (debounced cfg w tp t s (on_tick cfg w s).2) as (_ & new & E & H).
  { unfold on_tick. rewrite run_read.
    destruct (started s); cbn [negb]; cycle 1.
    { rewrite run_emit, run_modify.
      by apply (debounced_quietly _ _ _ _ _ _ [EvStart]). }
    destruct (bid_ask_markets_json w) as [| |d]; [reflexivity..|].
    rewrite run_modify. set (s1 := set_bid_ask_markets_dict d s).
    assert (sat (debounced cfg w tp t)
              (snapshot cfg w;; r ← reconcile cfg w; mret (Some r))) as Hsat.
    { apply sat_bind; [tc_solve| |intros _].
      - intros s0. destruct (quiet_snapshot cfg w s0) as (E & T & L & _).
        apply (debounced_quietly _ _ _ _ _ _ []);
          rewrite ?app_nil_r; (done || lia).
      - apply sat_bind; [tc_solve|apply debounced_reconcile|].
        intros r. apply sat_ret; tc_solve. }
    etrans; [|apply Hsat].
    by apply (debounced_quietly _ _ _ _ _ _ []); rewrite ?app_nil_r. }
  destruct (H Hl Hk) as [Hl' Hn]. split; [|done].
  by rewrite (new_events_app _ _ new).
Qed.

Lemma debounce_blocks_proposals_witness :
  let cfg := default_config ["X-BTC"; "Y-BTC"]%string in
  last_order_time (on_tick cfg early_world (running cfg early_world)).2
    !! "X-BTC"%string
  = Some 1000.
Proof.
  intros cfg.
  refine (proj2 (debounce_blocks_proposals cfg early_world
                   (running cfg early_world) "X-BTC" 1000 _ _)).
  - by vm_compute.
  - intros k Hk. vm_compute in Hk. cbn [early_world clock].
    destruct (k <? 2)%nat eqn:E; [apply Nat.ltb_lt in E; lia|]. by vm_compute.
Defined.

(** ** Stale references *)

#[export] Instance sparing_refl tp : Reflexive (sparing tp).
Proof. intros s. split; [done|]. exists []. by rewrite app_nil_r. Qed.

#[export] Instance sparing_trans tp : Transitive (sparing tp).
Proof.
  intros s1 s2 s3 (D1 & new1 & E1 & H1) (D2 & new2 & E2 & H2).
  split; [congruence|]. exists (new1 ++ new2). rewrite E2, E1, app_assoc.
  split; [done|]. intros Hs. apply Forall_app. split; [by apply H1|].
  apply H2. by rewrite D1.
Qed.

Lemma keeps_snapshots_part_one_pair cfg w tp n :
  sat keeps_snapshots (part_one_pair cfg w tp n).
Proof.
  unfold part_one_pair, cancel_if_above, cancel_if_below, cancel, emit.
  repeat frame_step.
Qed.

Lemma keeps_snapshots_part_two_pair cfg w tp n :
  sat keeps_snapshots (part_two_pair cfg w tp n).
Proof.
  unfold part_two_pair, cancel_if_above, cancel_if_below, cancel, emit.
  repeat frame_step.
Qed.

(** A part whose events are no cancellations. *)
Lemma sparing_quietly tp s s' new :
  bid_ask_markets_dict s' = bid_ask_markets_dict s →
  events s' = events s ++ new →
  Forall (λ e, ∀ r id, e ≠ EvCancel r tp id) new →
  sparing tp s s'.
Proof. intros D E F. split; [done|]. by exists new. Qed.

Lemma part_one_pair_stale_events cfg w tp n s :
  stale (bid_ask_markets_dict s) tp →
  events (part_one_pair cfg w tp n s).2 = events s.
Proof.
  intros (ba & Hd & Hle). unfold part_one_pair.
  rewrite run_modify, run_read, (run_getitem _ _ _ _ _ Hd), run_read.
  cbn [orderbook_bid set_trading_pair].
  destruct (orderbook_bid s !! tp) as [top_bid|] eqn:Hb;
    [|by rewrite (run_getitem_none _ _ _ _ Hb)].
  rewrite (run_getitem _ _ _ _ _ Hb), run_read.
  cbn [orderbook_ask set_trading_pair].
  destruct (orderbook_ask s !! tp) as [top_ask|] eqn:Ha;
    [|by rewrite (run_getitem_none _ _ _ _ Ha)].
  rewrite (run_getitem _ _ _ _ _ Ha).
  by rewrite Hle.
Qed.

Lemma part_two_pair_stale_events cfg w tp n s :
  stale (bid_ask_markets_dict s) tp →
  events (part_two_pair cfg w tp n s).2 = events s.
Proof.
  intros (ba & Hd & Hle). unfold part_two_pair.
  rewrite run_modify, run_read, (run_getitem _ _ _ _ _ Hd), run_read.
  cbn [orderbook_bid set_trading_pair].
  destruct (orderbook_bid s !! tp) as [top_bid|] eqn:Hb;
    [|by rewrite (run_getitem_none _ _ _ _ Hb)].
  rewrite (run_getitem _ _ _ _ _ Hb), run_read.
  cbn [orderbook_ask set_trading_pair].
  destruct (orderbook_ask s !! tp) as [top_ask|] eqn:Ha;
    [|by rewrite (run_getitem_none _ _ _ _ Ha)].
  rewrite (run_getitem _ _ _ _ _ Ha).
  by rewrite Hle.
Qed.

(** A run that touches [tp'] spares [tp] when it makes no event for a
    stale [tp]. *)
Lemma touching_sparing tp tp' s s' :
  keeps_snapshots s s' → touching tp' s s' →
  (tp' = tp → stale (bid_ask_markets_dict s) tp → events s' = events s) →
  sparing tp s s'.
Proof.
  intros (D & _) (_ & _ & new & E & F) H. split; [done|]. exists new.
  split; [done|]. intros Hs.
  destruct (decide (tp' = tp)) as [->|Hne].
  - rewrite (H eq_refl Hs) in E. rewrite <- (app_nil_r (events s)) in E at 1.
    by apply app_inv_head in E as <-.
  - eapply Forall_impl; [exact F|]. intros e He r id ->.
    apply Hne. symmetry. by apply He.
Qed.

Lemma sparing_reconcile cfg w tp : sat (sparing tp) (reconcile cfg w).
Proof.
  unfold reconcile. cbv zeta.
  assert (sat (sparing tp) (part_one cfg w)) as H1.
  { apply sat_for_each; [tc_solve..|]. intros tp' n s.
    apply (touching_sparing tp tp');
      [apply keeps_snapshots_part_one_pair | apply touching_part_one_pair|].
    intros ->. apply part_one_pair_stale_events. }
  assert (sat (sparing tp) (part_two cfg w)) as H2.
  { apply sat_for_each; [tc_solve..|]. intros tp' n s.
    apply (touching_sparing tp tp');
      [apply keeps_snapshots_part_two_pair | apply touching_part_two_pair|].
    intros ->. apply part_two_pair_stale_events. }
  assert (sat (sparing tp) (part_three cfg w)) as H3.
  { intros s. destruct (proposing_part_three cfg w s) as (new & E & F & _).
    destruct (keeps_snapshots_part_three cfg w s) as (D & _).
    apply (sparing_quietly _ _ _ new); [done..|].
    eapply Forall_impl; [exact F|]. by intros e He r id ->. }
  apply sat_bind; [tc_solve | exact H1 | intros n1].
  apply sat_bind;
    [tc_solve
    |destruct (_ =? 0)%nat; [exact H2 | apply sat_ret; tc_solve]
    |intros n2].
  apply sat_bind;
    [tc_solve
    |destruct (_ =? 0)%nat; [exact H3 | apply sat_ret; tc_solve]
    |intros p].
  apply sat_bind; [tc_solve| |intros ?; apply sat_ret; tc_solve].
  intros s. by apply (sparing_quietly _ _ _ []); rewrite ?app_nil_r.
Qed.

(** X18 (on_tick, Part One and Part Two): a pair that the feed marks stale,
    with a reference bid or ask that is not positive, keeps its orders.
    Whatever the open orders and the order books are, and whether or not
    the cycle raises, a cycle that parsed such a payload cancels no order
    of that pair. *)
Theorem stale_pairs_keep_their_orders cfg w s d tp :
  bid_ask_markets_json w = PayloadJSON d →
  stale d tp →
  Forall (λ e, ∀ r id, e ≠ EvCancel r tp id) (new_events (on_tick cfg w) s).
Proof.
  intros Hd Hs. unfold new_events, on_tick. rewrite run_read.
  destruct (started s); cbn [negb]; cycle 1.
  { rewrite run_emit, run_modify.
    cbn [mret M_ret ret snd set_started record events].
    rewrite drop_app_length. by apply Forall_singleton. }
  rewrite Hd, run_modify. set (s1 := set_bid_ask_markets_dict d s).
  rewrite run_bind.
  destruct (quiet_snapshot cfg w s1) as (E & _).
  pose proof (keeps_reference_snapshot cfg w s1) as D.
  destruct (snapshot cfg w s1) as [[[]|e] s2]; cbn [snd] in E, D; cycle 1.
  { cbn [snd]. rewrite E. cbn. by rewrite drop_all. }
  rewrite run_bind.
  destruct (sparing_reconcile cfg w tp s2) as (_ & new & E' & H).
  assert (events (reconcile cfg w s2).2 = events s ++ new) as E''
    by (by rewrite E', E).
  assert (Forall (λ e, ∀ r id, e ≠ EvCancel r tp id) new) as F.
  { apply H. unfold keeps_reference in D. by rewrite D. }
  destruct (reconcile cfg w s2) as [[r|e] s3]; cbn [snd] in *;
    cbn [mret M_ret ret snd]; by rewrite E'', drop_app_length.
Qed.

Lemma stale_pairs_keep_their_orders_witness :
  let cfg := default_config ["X-BTC"%string] in
  Forall (λ e, ∀ r id, e ≠ EvCancel r "X-BTC" id)
    (new_events (on_tick cfg stale_order_world) (running cfg stale_order_world)).
Proof.
  intros cfg.
  refine (stale_pairs_keep_their_orders cfg stale_order_world
            (running cfg stale_order_world)
            {[ "X-BTC"%string := BidAsk (JNum 0) (JNum 0) ]} "X-BTC" _ _).
  - reflexivity.
  - exists (BidAsk (JNum 0) (JNum 0)). split; by vm_compute.
Defined.

(** ** References that are not numbers *)

(** X19 (on_tick, Part One and the NaN guard of Part Three): a reference
    bid that is NaN is not caught before Part Three.  It is not [<= 0], so
    Part One does not skip the pair, and the comparison of the price of
    its first open buy order with the NaN threshold raises
    InvalidOperation: the cycle ends in Part One with nothing cancelled.
    Part Three, had it been reached for the pair, would have logged the
    bad reference and gone on without a proposal. *)
Theorem nan_reference_raises_in_part_one cfg w tp n s ref_ask top_bid top_ask
    o buys sells :
  bid_ask_markets_dict s !! tp = Some (BidAsk JNaN ref_ask) →
  jnum_le0 ref_ask = false →
  orderbook_bid s !! tp = Some top_bid →
  orderbook_ask s !! tp = Some top_ask →
  orders s !! tp = Some (o :: buys, sells) →
  part_one_pair cfg w tp n s = (Raise InvalidOperation, set_trading_pair tp s)
  ∧ ∀ c last,
      num_orders c = 0%nat →
      last_order_time s !! tp = Some last →
      last + time_between_orders_for_trading_pair cfg <= clock w (ticks s) →
      part_three_pair cfg w tp c s
      = (Ok c, record (EvBadReference tp) (set_trading_pair tp (tick s))).
Proof.
  intros Hd Hask Hb Ha Ho. split.
  - unfold part_one_pair.
    rewrite run_modify, run_read, (run_getitem _ _ _ _ _ Hd).
    rewrite run_read, (run_getitem _ _ _ _ _ Hb).
    rewrite run_read, (run_getitem _ _ _ _ _ Ha).
    cbn [bid ask jnum_le0 orb]. rewrite Hask.
    rewrite run_read, (run_getitem _ _ _ _ _ Ho). cbn [fst snd for_each].
    rewrite !run_bind. unfold cancel_if_above at 1. by rewrite run_lift.
  - intros c last Hc Hl Hdue. unfold part_three_pair. rewrite Hc.
    cbn [Nat.ltb Nat.leb].
    rewrite run_time_time, run_read. cbn [last_order_time tick].
    rewrite (run_getitem _ _ _ _ _ Hl).
    apply Qlt_bool_false in Hdue. rewrite Hdue.
    rewrite run_modify, run_read. cbn [bid_ask_markets_dict set_trading_pair].
    rewrite (run_getitem _ _ _ _ _ Hd). cbn [bid ask Decimal dec_mul].
    rewrite run_read. cbn [orderbook_bid]. rewrite (run_getitem _ _ _ _ _ Hb).
    rewrite run_read. cbn [orderbook_ask]. rewrite (run_getitem _ _ _ _ _ Ha).
    by rewrite run_emit.
Qed.

Lemma nan_reference_raises_in_part_one_witness :
  part_one_pair scenario_a_config scenario_a_world "X-BTC" 0 nan_state
  = (Raise InvalidOperation, set_trading_pair "X-BTC" nan_state).
Proof.
  refine (proj1 (nan_reference_raises_in_part_one scenario_a_config
                   scenario_a_world "X-BTC" 0 nan_state (JNum (fl 0.0011))
                   (Fin 0.00098) (Fin 0.00112)
                   (Order "X-BTC" true "buy-1" 0.00105) [] []
                   _ _ _ _ _));
    by vm_compute.
Defined.

(** ** The entries of the trading pairs *)

#[export] Instance keeps_pairs_refl : Reflexive keeps_pairs.
Proof. by intros s tp. Qed.

#[export] Instance keeps_pairs_trans : Transitive keeps_pairs.
Proof.
  intros s1 s2 s3 H1 H2 tp. destruct (H1 tp) as (?&?&?), (H2 tp) as (?&?&?).
  repeat split; auto.
Qed.

Lemma keeps_pairs_reset_orders tp : sat keeps_pairs (reset_orders tp tt).
Proof.
  intros s. unfold reset_orders. rewrite run_read. unfold getitem.
  destruct (orders s !! tp); [|reflexivity].
  intros tp'. cbn. repeat split; try done.
  intros ?. apply lookup_insert_is_Some'. by right.
Qed.

Lemma keeps_pairs_file_order o : sat keeps_pairs (file_order o tt).
Proof.
  intros s. unfold file_order. rewrite run_read. unfold getitem.
  destruct (orders s !! _); [|reflexivity].
  intros tp'. cbn. repeat split; try done.
  intros ?. apply lookup_insert_is_Some'. by right.
Qed.

(** One step of a program that only adds entries. *)
Ltac pairs_step :=
  first
    [ apply sat_modify; intros ? ?; cbn; repeat split; try done;
      intros ?; apply lookup_insert_is_Some'; by right
    | lazymatch goal with
      | |- sat _ (time_time _) => intros ? ?; done
      end
    | sat_step ].

Lemma keeps_pairs_snapshot cfg w : sat keeps_pairs (snapshot cfg w).
Proof.
  unfold snapshot, fetch_orderbook.
  repeat first [apply keeps_pairs_reset_orders | apply keeps_pairs_file_order
               | pairs_step].
Qed.

Lemma keeps_pairs_part_one cfg w : sat keeps_pairs (part_one cfg w).
Proof.
  unfold part_one, part_one_pair, cancel_if_above, cancel_if_below, cancel, emit.
  repeat pairs_step.
Qed.

Lemma keeps_pairs_part_two cfg w : sat keeps_pairs (part_two cfg w).
Proof.
  unfold part_two, part_two_pair, cancel_if_above, cancel_if_below, cancel, emit.
  repeat pairs_step.
Qed.

Lemma keeps_pairs_part_three_pair cfg w tp c :
  sat keeps_pairs (part_three_pair cfg w tp c).
Proof.
  unfold part_three_pair, propose_buy, propose_sell, place_orders,
    place_order, emit.
  repeat pairs_step.
Qed.

Lemma keeps_pairs_reconcile cfg w : sat keeps_pairs (reconcile cfg w).
Proof.
  unfold reconcile. cbv zeta.
  apply sat_bind; [tc_solve | apply keeps_pairs_part_one | intros n1].
  apply sat_bind;
    [tc_solve
    |destruct (_ =? 0)%nat; [apply keeps_pairs_part_two | apply sat_ret; tc_solve]
    |intros n2].
  apply sat_bind;
    [tc_solve
    |destruct (_ =? 0)%nat;
       [apply sat_for_each; [tc_solve..|]; intros;
        apply keeps_pairs_part_three_pair
       |apply sat_ret; tc_solve]
    |intros p].
  repeat pairs_step.
Qed.

Lemma keeps_pairs_on_tick cfg w : sat keeps_pairs (on_tick cfg w).
Proof.
  unfold on_tick, emit.
  apply sat_bind; [tc_solve | apply sat_read; tc_solve | intros is_started].
  destruct (negb _); [repeat pairs_step|].
  destruct (bid_ask_markets_json w) as [| |d]; [repeat pairs_step..|].
  apply sat_bind; [tc_solve | pairs_step | intros _].
  apply sat_bind; [tc_solve | apply keeps_pairs_snapshot | intros _].
  apply sat_bind; [tc_solve | apply keeps_pairs_reconcile | intros r].
  apply sat_ret; tc_solve.
Qed.

Lemma keeps_pairs_class_body cfg w : sat keeps_pairs (class_body cfg w).
Proof.
  unfold class_body, init_last_cancel_time, init_last_order_time, init_orders.
  repeat pairs_step.
Qed.

Lemma init_orders_loop_orders l s tp :
  tp ∈ l → is_Some (orders (for_each l init_orders tt s).2 !! tp).
Proof.
  revert s. induction l as [|x l IH]; intros s Hin;
    [by apply not_elem_of_nil in Hin|].
  cbn [for_each]. rewrite run_bind, init_orders_run.
  destruct (decide (tp ∈ l)) as [?|Hn]; [by apply IH|].
  apply elem_of_cons in Hin as [->|?]; [|done].
  assert (sat keeps_pairs (for_each l init_orders tt)) as H.
  { unfold init_orders. repeat pairs_step. }
  apply H. cbn. rewrite lookup_insert_eq. by eexists.
Qed.

Lemma tracked_startup cfg w : tracked cfg (startup cfg w).
Proof.
  intros tp Hin.
  destruct (startup_times cfg w) as (_ & Hc & Ho).
  split; [|split].
  - unfold startup, class_body.
    destruct (init_last_cancel_time_loop (trading_pairs cfg) empty_state)
      as (s1 & E1 & _).
    rewrite (run_bind_ok _ _ _ _ _ E1).
    destruct (init_last_order_time_loop w (trading_pairs cfg) s1)
      as (s2 & E2 & _).
    rewrite (run_bind_ok _ _ _ _ _ E2). rewrite run_bind.
    pose proof (init_orders_loop_orders (trading_pairs cfg) s2 tp Hin) as H3.
    destruct (init_orders_loop (trading_pairs cfg) s2) as (s3 & E3 & _).
    rewrite E3 in *. cbn [snd] in H3.
    assert (sat keeps_pairs
              (for_each (trading_pairs cfg)
                 (λ tp (_ : unit), modify (set_trading_pair tp)) tt)) as H.
    { repeat pairs_step. }
    by apply H.
  - destruct (Ho tp Hin) as (i & _ & ->). by eexists.
  - rewrite (Hc tp Hin). by eexists.
Qed.

Lemma tracked_kept cfg s s' : tracked cfg s → keeps_pairs s s' → tracked cfg s'.
Proof.
  intros H K tp Hin. destruct (H tp Hin) as (?&?&?), (K tp) as (?&?&?).
  repeat split; auto.
Qed.

(** X20 (class body, on_tick): the dictionaries that are keyed by trading
    pair never lose an entry.  After the class body and any number of
    cycles, whatever the worlds of these cycles were and whether or not
    they raised, every trading pair has its entry in [orders], in
    [last_order_time] and in [last_cancel_time]: the subscripts of these
    three dictionaries by a trading pair never raise KeyError. *)
Theorem dictionaries_keep_their_pairs cfg w0 ws tp :
  tp ∈ trading_pairs cfg →
  let s := foldl (λ s w, (on_tick cfg w s).2) (startup cfg w0) ws in
  is_Some (orders s !! tp)
  ∧ is_Some (last_order_time s !! tp)
  ∧ is_Some (last_cancel_time s !! tp).
Proof.
  intros Hin s.
  assert (tracked cfg s) as H; [|by apply H].
  unfold s. clear s. generalize (tracked_startup cfg w0).
  generalize (startup cfg w0). induction ws as [|w ws IH]; intros s Hs; [done|].
  cbn [foldl]. apply IH. eapply tracked_kept; [exact Hs|].
  apply keeps_pairs_on_tick.
Qed.

Lemma dictionaries_keep_their_pairs_witness :
  let cfg := default_config ["X-BTC"; "Y-BTC"]%string in
  let s :=
    foldl (λ s w, (on_tick cfg w s).2) (startup cfg early_world)
      [early_world; two_sided_world] in
  is_Some (orders s !! "Y-BTC"%string)
  ∧ is_Some (last_order_time s !! "Y-BTC"%string)
  ∧ is_Some (last_cancel_time s !! "Y-BTC"%string).
Proof.
  intros cfg.
  refine (dictionaries_keep_their_pairs cfg early_world
            [early_world; two_sided_world] "Y-BTC" _).
  apply elem_of_cons. right. apply elem_of_cons. by left.
Defined.


(** ** Cycles that do not raise *)

Lemma keeps_pairs_part_one_pair cfg w tp n :
  sat keeps_pairs (part_one_pair cfg w tp n).
Proof.
  unfold part_one_pair, cancel_if_above, cancel_if_below, cancel, emit.
  repeat pairs_step.
Qed.

Lemma keeps_pairs_part_two_pair cfg w tp n :
  sat keeps_pairs (part_two_pair cfg w tp n).
Proof.
  unfold part_two_pair, cancel_if_above, cancel_if_below, cancel, emit.
  repeat pairs_step.
Qed.

Lemma keeps_snapshots_part_three_pair cfg w tp c :
  sat keeps_snapshots (part_three_pair cfg w tp c).
Proof.
  unfold part_three_pair, propose_buy, propose_sell, place_orders,
    place_order, emit.
  repeat frame_step.
Qed.

Lemma keeps_snapshots_propose_buy cfg w tp quote_cur buy_price_max ob_bid
    c proposal :
  sat keeps_snapshots
    (propose_buy cfg w tp quote_cur buy_price_max ob_bid c proposal).
Proof. unfold propose_buy, emit. repeat frame_step. Qed.

Lemma ready_kept cfg w d s s' :
  ready cfg w d s → keeps_snapshots s s' → keeps_pairs s s' → ready cfg w d s'.
Proof.
  intros [Hd H] (D & O & B & A & _) K. split; [congruence|].
  intros tp Hin. destruct (H tp Hin) as (?&?&?&?), (K tp) as (_&?&_).
  rewrite O, B, A. repeat split; auto.
Qed.

Lemma for_each_ok {X A} (I : state → Prop) (l : list X) (body : X → A → M A) :
  (∀ x a s, x ∈ l → I s →
     (∃ a', (body x a s).1 = Ok a') ∧ I (body x a s).2) →
  ∀ a s, I s →
    (∃ a', (for_each l body a s).1 = Ok a') ∧ I (for_each l body a s).2.
Proof.
  induction l as [|x l IH]; intros H a s Hs; cbn [for_each].
  { split; [by eexists | done]. }
  rewrite run_bind. destruct (H x a s) as [[a' Ha] Hi]; [by left | done|].
  destruct (body x a s) as [[?|?] s']; cbn in Ha, Hi; [|done].
  apply IH; [|done]. intros. apply H; [by right | done].
Qed.

Lemma part_one_pair_ok cfg w d tp n s :
  well_formed cfg w d → ready cfg w d s → tp ∈ trading_pairs cfg →
  (∃ n', (part_one_pair cfg w tp n s).1 = Ok n')
  ∧ ready cfg w d (part_one_pair cfg w tp n s).2.
Proof.
  intros (Hj & Hp & Ha & Hr) R Hin. split.
  - destruct R as [Hd R]. destruct (R tp Hin) as ([sides Ho] & Hb & Hk & _).
    destruct (Hp tp Hin) as ((rb & ra & Hl & ? & ?) & _). rewrite <- Hd in Hl.
    rewrite (part_one_pair_run cfg w tp n s _ _ _ _ _ Hl Hb Hk Ho) by done.
    by eexists.
  - eapply ready_kept;
      [done | apply keeps_snapshots_part_one_pair | apply keeps_pairs_part_one_pair].
Qed.

Lemma part_two_pair_ok cfg w d tp n s :
  well_formed cfg w d → ready cfg w d s → tp ∈ trading_pairs cfg →
  (∃ n', (part_two_pair cfg w tp n s).1 = Ok n')
  ∧ ready cfg w d (part_two_pair cfg w tp n s).2.
Proof.
  intros (Hj & Hp & Ha & Hr) R Hin. split.
  - destruct R as [Hd R]. destruct (R tp Hin) as ([sides Ho] & Hb & Hk & _).
    destruct (Hp tp Hin) as ((rb & ra & Hl & ? & ?) & _ & (b & a & Eb & Ea & _)).
    rewrite <- Hd in Hl. rewrite Eb in Hb. rewrite Ea in Hk.
    rewrite (part_two_pair_run cfg w tp n s _ _ _ _ _ Hl Hb Hk Ho) by done.
    by eexists.
  - eapply ready_kept;
      [done | apply keeps_snapshots_part_two_pair | apply keeps_pairs_part_two_pair].
Qed.

Lemma buy_price_positive (buy_price_max ob_bid : Q) :
  0 < buy_price_max → 0 <= ob_bid → 0 < buy_price buy_price_max ob_bid.
Proof.
  intros Hm Hb. unfold buy_price. destruct (Qlt_bool _ _); [|done].
  apply round28_positive.
  assert (0 < round28 (buy_price_max + ob_bid)) by (apply round28_positive; lra).
  apply Qlt_shift_div_l; [done|]. lra.
Qed.

Lemma propose_buy_ok cfg w tp quote_cur buy_price_max ob_bid c proposal s :
  is_Some (orders s !! tp) → is_Some (quote_curs cfg !! quote_cur) →
  0 < buy_price_max → 0 <= ob_bid →
  ∃ r,
    (propose_buy cfg w tp quote_cur buy_price_max (Fin ob_bid) c proposal s).1
    = Ok r.
Proof.
  intros [sides Ho] [size Hq] Hm Hb. unfold propose_buy.
  rewrite run_read, (run_getitem _ _ _ _ _ Ho).
  destruct (_ && _); [|by eexists].
  rewrite run_lift. cbn [compared].
  destruct (Qlt_bool _ ob_bid); [by eexists|].
  rewrite (run_getitem _ _ _ _ _ Hq), run_lift.
  assert (Qeq_bool (buy_price buy_price_max ob_bid) 0 = false) as E.
  { apply not_true_is_false. intros E%Qeq_bool_iff.
    pose proof (buy_price_positive buy_price_max ob_bid Hm Hb). lra. }
  unfold dec_div. rewrite E. rewrite run_lift.
  destruct (Qlt_bool _ _); by eexists.
Qed.

Lemma propose_sell_ok cfg w tp base_cur quote_cur sell_price_min ob_ask
    c proposal s :
  is_Some (orders s !! tp) → is_Some (quote_curs cfg !! quote_cur) →
  ∃ r,
    (propose_sell cfg w tp base_cur quote_cur sell_price_min (Fin ob_ask)
       c proposal s).1
    = Ok r.
Proof.
  intros [sides Ho] [size Hq]. unfold propose_sell.
  rewrite run_read, (run_getitem _ _ _ _ _ Ho).
  destruct (_ =? _)%nat; [|by eexists].
  rewrite run_lift. cbn [compared].
  destruct (Qlt_bool ob_ask _); [by eexists|].
  rewrite (run_getitem _ _ _ _ _ Hq).
  destruct (Qle_bool _ _); by eexists.
Qed.

Lemma part_three_pair_ok cfg w d tp c s :
  well_formed cfg w d → ready cfg w d s → tp ∈ trading_pairs cfg →
  (∃ c', (part_three_pair cfg w tp c s).1 = Ok c')
  ∧ ready cfg w d (part_three_pair cfg w tp c s).2.
Proof.
  intros (Hj & Hp & Ha & Hr) R Hin. split; cycle 1.
  { eapply ready_kept;
      [done | apply keeps_snapshots_part_three_pair
      | apply keeps_pairs_part_three_pair]. }
  destruct R as [Hd R]. destruct (R tp Hin) as (Ho & Hb & Hk & [last Hl]).
  destruct (Hp tp Hin)
    as ((rb & ra & Href & Hrb & Hra) & (base & quote & Hsplit & Hq)
        & (top_bid & top_ask & Eb & Ea & Hbid)).
  rewrite <- Hd in Href. rewrite Eb in Hb. rewrite Ea in Hk.
  unfold part_three_pair. destruct (0 <? num_orders c)%nat; [by eexists|].
  rewrite run_time_time, run_read. cbn [last_order_time tick].
  rewrite (run_getitem _ _ _ _ _ Hl).
  destruct (Qlt_bool _ _); [by eexists|].
  rewrite run_modify, run_read. cbn [bid_ask_markets_dict set_trading_pair].
  rewrite (run_getitem _ _ _ _ _ Href). cbn [bid ask Decimal dec_mul].
  rewrite run_read. cbn [orderbook_bid]. rewrite (run_getitem _ _ _ _ _ Hb).
  rewrite run_read. cbn [orderbook_ask]. rewrite (run_getitem _ _ _ _ _ Hk).
  unfold split_pair at 1. rewrite Hsplit, run_ret. cbn [fst snd].
  set (s0 := set_trading_pair tp (tick s)).
  set (buy_price_max := round28 (rb * float_sub 1 (buy_place_ratio cfg))).
  assert (0 < buy_price_max) as Hmax.
  { apply round28_positive, Qmult_lt_0_compat; [done|].
    apply fl_positive. lra. }
  rewrite run_bind.
  destruct (propose_buy_ok cfg w tp quote buy_price_max top_bid c [] s0
              Ho Hq Hmax Hbid) as [r1 E1].
  pose proof (keeps_snapshots_propose_buy cfg w tp quote buy_price_max
                (Fin top_bid) c [] s0)
    as (_ & O1 & _).
  destruct (propose_buy _ _ _ _ _ _ _ _ s0) as [[r1'|e] s1];
    cbn [fst snd] in E1, O1; [|done].
  rewrite run_bind.
  destruct (propose_sell_ok cfg w tp base quote
              (round28 (ra * float_add 1 (sell_place_ratio cfg)))
              top_ask r1'.1 r1'.2 s1) as [r2 E2];
    [by rewrite O1 | done|].
  destruct (propose_sell _ _ _ _ _ _ _ _ _ s1) as [[r2'|e] s2];
    cbn [fst snd] in E2; [|done].
  rewrite run_bind.
  destruct (place_orders_run (adjust_proposal_to_budget w r2'.2) s2) as [E3 _].
  destruct (place_orders _ s2) as [[[]|e] s3]; cbn [fst] in E3; [|done].
  by eexists.
Qed.

Lemma reconcile_ok cfg w d s :
  well_formed cfg w d → ready cfg w d s →
  ∃ r, (reconcile cfg w s).1 = Ok r.
Proof.
  intros Hw R. unfold reconcile. cbv zeta. rewrite run_bind.
  destruct (for_each_ok (ready cfg w d) (trading_pairs cfg) (part_one_pair cfg w)
              (λ tp n s Hin H, part_one_pair_ok cfg w d tp n s Hw H Hin)
              0%nat s R) as [[n1 E1] R1].
  fold (part_one cfg w) in E1, R1.
  destruct (part_one cfg w s) as [[n1'|e] s1]; cbn [fst snd] in E1, R1; [|done].
  rewrite run_bind.
  assert (∃ n2 s2,
            (if ((if (0 <? n1')%nat then 1 else 0) =? 0)%nat
             then part_two cfg w else mret 0%nat) s1 = (Ok n2, s2)
            ∧ ready cfg w d s2) as (n2 & s2 & -> & R2).
  { destruct (_ =? 0)%nat; [|by eexists _, _].
    destruct (for_each_ok (ready cfg w d) (trading_pairs cfg)
                (part_two_pair cfg w)
                (λ tp n s Hin H, part_two_pair_ok cfg w d tp n s Hw H Hin)
                0%nat s1 R1) as [[n2 E2] R2].
    fold (part_two cfg w) in E2, R2.
    destruct (part_two cfg w s1) as [[n2'|e] s2]; cbn [fst snd] in E2, R2;
      [by eexists _, _ | done]. }
  rewrite run_bind.
  assert (∃ p s3,
            (if ((if (0 <? n2)%nat then 1
                  else if (0 <? n1')%nat then 1 else 0) =? 0)%nat
             then part_three cfg w else mret no_proposals) s2 = (Ok p, s3))
    as (p & s3 & ->).
  { destruct (_ =? 0)%nat; [|by eexists _, _].
    destruct (for_each_ok (ready cfg w d) (trading_pairs cfg)
                (part_three_pair cfg w)
                (λ tp c s Hin H, part_three_pair_ok cfg w d tp c s Hw H Hin)
                no_proposals s2 R2) as [[p E3] _].
    fold (part_three cfg w) in E3.
    destruct (part_three cfg w s2) as [[p'|e] s3]; cbn [fst] in E3;
      [by eexists _, _ | done]. }
  rewrite run_time_time. by eexists.
Qed.

(** X21 (on_tick): a cycle whose inputs are in order does not raise.  When
    the payload parses, every trading pair has a positive reference bid and
    ask, a name base-quote whose quote currency has an order size, a best
    bid and a best ask that are numbers (not the NaN of an empty order
    book) and a best bid that is not negative, every active order is of a
    trading pair and the buy place ratio is below 1, then [on_tick]
    returns, from every state in which the trading pairs have the entries
    of the class body; and they still have them afterwards, so that the
    next such cycle returns as well. *)
Theorem well_formed_cycles_do_not_raise cfg w d s :
  well_formed cfg w d → tracked cfg s →
  (∃ r, (on_tick cfg w s).1 = Ok r) ∧ tracked cfg (on_tick cfg w s).2.
Proof.
  intros Hw Ht. split; [|by eapply tracked_kept, keeps_pairs_on_tick].
  unfold on_tick. rewrite run_read.
  destruct (started s); cbn [negb]; [|by eexists].
  pose proof Hw as (-> & Hp & Ha & _).
  rewrite run_modify. set (s1 := set_bid_ask_markets_dict d s).
  rewrite run_bind.
  destruct (snapshot_run cfg w s1) as [E H].
  { intros tp Hin. by apply Ht. }
  { intros o Hin. by apply Ht, Ha. }
  pose proof (keeps_reference_snapshot cfg w s1) as D.
  destruct (quiet_snapshot cfg w s1) as (_ & _ & L & _).
  destruct (snapshot cfg w s1) as [[[]|e] s2]; cbn [fst snd] in *; [|done].
  rewrite run_bind.
  destruct (reconcile_ok cfg w d s2 Hw) as [r E2].
  { split; [exact D|]. intros tp Hin. destruct (H tp Hin) as (Ho & Hb & Hk).
    rewrite Ho, L. repeat split; try done. by apply Ht. }
  destruct (reconcile cfg w s2) as [[r'|e] s3]; cbn [fst] in E2; [|done].
  by eexists.
Qed.

Lemma well_formed_cycles_do_not_raise_witness :
  let cfg := default_config ["X-BTC"; "Y-BTC"]%string in
  ∃ r, (on_tick cfg two_sided_world (running cfg two_sided_world)).1 = Ok r.
Proof.
  intros cfg.
  refine (proj1 (well_formed_cycles_do_not_raise cfg two_sided_world
                   (list_to_map [("X-BTC", fair); ("Y-BTC", fair)]%string)
                   (running cfg two_sided_world) _ _)).
  - split; [reflexivity|]. split; [|split].
    + intros tp Hin. repeat apply elem_of_cons in Hin as [->|Hin];
        [..|by apply not_elem_of_nil in Hin].
      * split; [exists (fl 0.0010), (fl 0.0011); by vm_compute|].
        split; [exists "X"%string, "BTC"%string; split; vm_compute; eauto|].
        exists 0.00098, 0.00112. by vm_compute.
      * split; [exists (fl 0.0010), (fl 0.0011); by vm_compute|].
        split; [exists "Y"%string, "BTC"%string; split; vm_compute; eauto|].
        exists 0.00098, 0.00112. by vm_compute.
    + intros o Hin. by apply not_elem_of_nil in Hin.
    + by vm_compute.
  - intros tp Hin. repeat apply elem_of_cons in Hin as [->|Hin];
      [repeat split; vm_compute; eauto..|by apply not_elem_of_nil in Hin].
Defined.

(** ** Best prices that are not numbers *)

(** X22 (on_tick, Parts Two and Three): a best bid or ask that is NaN is
    not caught.  In Part Two the threshold of a pair with a positive
    reference is then NaN, and the comparison with the price of the first
    open buy order raises InvalidOperation.  In Part Three the distance
    check of a side that is looked at raises InvalidOperation.  In a cycle
    for X-BTC with a fair reference, no open order, a best bid of 0.00098
    and a best ask that is NaN, the buy is accepted and arms
    [last_order_time], then the sell side raises: the cycle ends with
    InvalidOperation and the accepted buy is never placed. *)
Theorem nan_best_price_raises :
  (∀ cfg w tp n s ref_bid ref_ask top_ask o buys sells,
     bid_ask_markets_dict s !! tp
     = Some (BidAsk (JNum ref_bid) (JNum ref_ask)) →
     0 < ref_bid → 0 < ref_ask →
     orderbook_bid s !! tp = Some NaN →
     orderbook_ask s !! tp = Some top_ask →
     orders s !! tp = Some (o :: buys, sells) →
     part_two_pair cfg w tp n s
     = (Raise InvalidOperation, set_trading_pair tp s))
  ∧ (∀ cfg w tp quote_cur buy_price_max c proposal s sells,
       orders s !! tp = Some ([], sells) → tp ≠ "IRIS-BTC"%string →
       propose_buy cfg w tp quote_cur buy_price_max NaN c proposal s
       = (Raise InvalidOperation, s))
  ∧ (∀ cfg w tp base_cur quote_cur sell_price_min c proposal s buys,
       orders s !! tp = Some (buys, []) →
       propose_sell cfg w tp base_cur quote_cur sell_price_min NaN c proposal s
       = (Raise InvalidOperation, s))
  ∧ (let cfg := default_config ["X-BTC"%string] in
     let run := on_tick cfg empty_book_world (running cfg empty_book_world) in
     get_price empty_book_world "X-BTC" true = NaN
     ∧ run.1 = Raise InvalidOperation
     ∧ (∃ price amount, events run.2 = [EvProposal BUY "X-BTC" price amount])
     ∧ last_order_time (running cfg empty_book_world) !! "X-BTC"%string = Some 0
     ∧ last_order_time run.2 !! "X-BTC"%string = Some 1000).
Proof.
  split; [|split; [|split]].
  - intros cfg w tp n s rb ra a o buys sells Hd Hrb Hra Hb Ha Ho.
    unfold part_two_pair.
    rewrite run_modify, run_read, (run_getitem _ _ _ _ _ Hd).
    rewrite run_read, (run_getitem _ _ _ _ _ Hb).
    rewrite run_read, (run_getitem _ _ _ _ _ Ha).
    cbn [bid ask]. rewrite !jnum_le0_positive by done. cbn [orb].
    rewrite run_read, (run_getitem _ _ _ _ _ Ho). cbn [fst snd for_each].
    rewrite !run_bind. unfold cancel_if_below at 1. by rewrite run_lift.
  - intros cfg w tp quote_cur buy_price_max c proposal s sells Ho Hi.
    unfold propose_buy. rewrite run_read, (run_getitem _ _ _ _ _ Ho).
    cbn [fst length Nat.eqb andb]. apply String.eqb_neq in Hi. rewrite Hi.
    cbn [negb]. by rewrite run_lift.
  - intros cfg w tp base_cur quote_cur sell_price_min c proposal s buys Ho.
    unfold propose_sell. rewrite run_read, (run_getitem _ _ _ _ _ Ho).
    cbn [snd length Nat.eqb]. by rewrite run_lift.
  - cbv zeta. split; [reflexivity|]. split; [by vm_compute|].
    split; [eexists _, _; by vm_compute|]. split; by vm_compute.
Qed.

(** ** The cancellation loops of a cycle *)

Lemma cancel_events_app r hits l1 l2 :
  cancel_events r hits (l1 ++ l2)
  = cancel_events r hits l1 ++ cancel_events r hits l2.
Proof. unfold cancel_events. by rewrite fmap_app, concat_app. Qed.

Lemma cancel_events_cons r hits tp l :
  cancel_events r hits (tp :: l)
  = ((λ o, EvCancel r tp (o_client_order_id o)) <$> hits tp)
    ++ cancel_events r hits l.
Proof. done. Qed.

Lemma cancel_events_nil r hits l :
  cancel_events r hits l = [] ↔ ∀ tp, tp ∈ l → hits tp = [].
Proof.
  induction l as [|tp l IH]; [by split; [intros _ ? ?%not_elem_of_nil|]|].
  rewrite cancel_events_cons. split.
  - intros [E1 E2]%app_eq_nil tp' [->|Hin]%elem_of_cons.
    + by apply fmap_nil_inv in E1.
    + by apply IH.
  - intros H. rewrite (H tp) by left. apply IH. intros tp' Hin. apply H. by right.
Qed.

Lemma cancel_all_cons w r hits tp l s :
  cancel_all w r hits (tp :: l) s
  = cancel_all w r hits l (cancelled w r tp (hits tp) (set_trading_pair tp s)).
Proof. done. Qed.

Lemma cancel_all_app w r hits l1 l2 s :
  cancel_all w r hits (l1 ++ l2) s
  = cancel_all w r hits l2 (cancel_all w r hits l1 s).
Proof. apply foldl_app. Qed.

(** What the loop leaves alone, and the events and clock readings it
    makes. *)
Lemma cancel_all_frame w r hits l s :
  let s' := cancel_all w r hits l s in
  started s' = started s
  ∧ bid_ask_markets_dict s' = bid_ask_markets_dict s
  ∧ orders s' = orders s
  ∧ orderbook_bid s' = orderbook_bid s
  ∧ orderbook_ask s' = orderbook_ask s
  ∧ last_order_time s' = last_order_time s
  ∧ events s' = events s ++ cancel_events r hits l
  ∧ ticks s' = (ticks s + length (cancel_events r hits l))%nat.
Proof.
  revert s. induction l as [|tp l IH]; intros s; cbv zeta.
  { cbn. rewrite app_nil_r, Nat.add_0_r. done. }
  rewrite cancel_all_cons.
  destruct (IH (cancelled w r tp (hits tp) (set_trading_pair tp s)))
    as (-> & -> & -> & -> & -> & -> & -> & ->).
  rewrite cancel_events_cons, length_app, length_fmap. cbn.
  rewrite <- app_assoc, Nat.add_assoc. done.
Qed.

(** The time of the last cancellation of a pair is the reading of the
    clock made right after the last of its orders was cancelled. *)
Lemma cancel_all_last_cancel_time w r hits before tp after s :
  tp ∉ after → hits tp ≠ [] →
  last_cancel_time (cancel_all w r hits (before ++ tp :: after) s) !! tp
  = Some (clock w (ticks s + length (cancel_events r hits before)
                   + length (hits tp) - 1)).
Proof.
  intros Hnot Hne. rewrite cancel_all_app, cancel_all_cons.
  set (s1 := cancel_all w r hits before s).
  assert (ticks s1 = (ticks s + length (cancel_events r hits before))%nat) as T
    by apply cancel_all_frame.
  set (s2 := cancelled w r tp (hits tp) (set_trading_pair tp s1)).
  assert (last_cancel_time s2 !! tp
          = Some (clock w (ticks s + length (cancel_events r hits before)
                           + length (hits tp) - 1))) as L.
  { subst s2. unfold cancelled. cbn. destruct (hits tp) as [|o l]; [done|].
    by rewrite lookup_insert_eq, T. }
  clearbody s2. clear s1 T. revert s2 L.
  induction after as [|tp' after IH]; intros s2 L; [done|].
  rewrite cancel_all_cons. apply IH.
  { intros Hin. apply Hnot. by right. }
  unfold cancelled. cbn. destruct (hits tp') as [|o l]; [done|].
  rewrite lookup_insert_ne; [done|]. intros ->. apply Hnot. by left.
Qed.

(** A pair none of whose orders is cancelled keeps its time. *)
Lemma cancel_all_kept w r hits l tp s :
  (tp ∈ l → hits tp = []) →
  last_cancel_time (cancel_all w r hits l s) !! tp = last_cancel_time s !! tp.
Proof.
  revert s. induction l as [|tp' l IH]; intros s H; [done|].
  rewrite cancel_all_cons.
  rewrite IH by (intros Hin; apply H; by right).
  unfold cancelled. cbn. destruct (hits tp') as [|o l'] eqn:E; [done|].
  rewrite lookup_insert_ne; [done|]. intros ->.
  rewrite H in E by left. done.
Qed.

(** A loop whose body cancels the orders [hits tp] of each pair. *)
Lemma cancel_loop_run w r hits (I : state → Prop) (body : string → nat → M nat) l :
  (∀ tp n s, tp ∈ l → I s →
     body tp n s
     = (Ok (n + length (hits tp))%nat,
        cancelled w r tp (hits tp) (set_trading_pair tp s))) →
  (∀ tp s, I s → I (cancelled w r tp (hits tp) (set_trading_pair tp s))) →
  ∀ n s, I s →
    for_each l body n s
    = (Ok (n + length (cancel_events r hits l))%nat, cancel_all w r hits l s).
Proof.
  intros Hbody Hkeep. induction l as [|tp l IH]; intros n s Hs.
  { cbn. by rewrite Nat.add_0_r. }
  cbn [for_each]. rewrite run_bind, Hbody by (by left || done).
  rewrite IH; [|intros; apply Hbody; by (right || done)|by apply Hkeep].
  rewrite cancel_events_cons, length_app, length_fmap, Nat.add_assoc. done.
Qed.

Lemma snapshots_taken_cancelled cfg w d r tp hit s :
  snapshots_taken cfg w d s →
  snapshots_taken cfg w d (cancelled w r tp hit (set_trading_pair tp s)).
Proof. done. Qed.

(** Part One of a cycle whose snapshots are taken, for references that are
    numbers. *)
Lemma part_one_run cfg w d s :
  snapshots_taken cfg w d s →
  (∀ tp, tp ∈ trading_pairs cfg →
     ∃ ref_bid ref_ask, d !! tp = Some (BidAsk (JNum ref_bid) (JNum ref_ask))) →
  part_one cfg w s
  = (Ok (length (cancel_events Unprofitable (part_one_cancels cfg w d)
                   (trading_pairs cfg))),
     cancel_all w Unprofitable (part_one_cancels cfg w d) (trading_pairs cfg) s).
Proof.
  intros Hs Hd. unfold part_one.
  apply (cancel_loop_run w Unprofitable (part_one_cancels cfg w d)
           (snapshots_taken cfg w d)); [|by intros; apply snapshots_taken_cancelled|done].
  intros tp n s0 Hin [D H]. destruct (H tp Hin) as (Ho & Hb & Ha).
  destruct (Hd tp Hin) as (rb & ra & E). unfold part_one_cancels. rewrite E.
  rewrite <- D in E.
  destruct (Qle_bool rb 0 || Qle_bool ra 0) eqn:Hle.
  - rewrite (part_one_pair_stale cfg w tp n s0 _ _ _ E Hb Ha Hle).
    by rewrite cancelled_nil, Nat.add_0_r.
  - apply orb_false_elim in Hle as [H1 H2].
    apply (part_one_pair_run cfg w tp n s0 rb ra _ _ _ E Hb Ha Ho).
    + apply Qnot_le_lt. intros Hle. apply Qle_bool_iff in Hle. congruence.
    + apply Qnot_le_lt. intros Hle. apply Qle_bool_iff in Hle. congruence.
Qed.

(** Part Two likewise, for best prices that are numbers. *)
Lemma part_two_run cfg w d s :
  snapshots_taken cfg w d s →
  (∀ tp, tp ∈ trading_pairs cfg →
     (∃ ref_bid ref_ask, d !! tp = Some (BidAsk (JNum ref_bid) (JNum ref_ask)))
     ∧ ∃ top_bid top_ask,
         get_price w tp false = Fin top_bid ∧ get_price w tp true = Fin top_ask) →
  part_two cfg w s
  = (Ok (length (cancel_events Outbid (part_two_cancels cfg w d)
                   (trading_pairs cfg))),
     cancel_all w Outbid (part_two_cancels cfg w d) (trading_pairs cfg) s).
Proof.
  intros Hs Hd. unfold part_two.
  apply (cancel_loop_run w Outbid (part_two_cancels cfg w d)
           (snapshots_taken cfg w d)); [|by intros; apply snapshots_taken_cancelled|done].
  intros tp n s0 Hin [D H]. destruct (H tp Hin) as (Ho & Hb & Ha).
  destruct (Hd tp Hin) as ((rb & ra & E) & (b & a & Eb & Ea)).
  unfold part_two_cancels. rewrite E, Eb, Ea.
  rewrite <- D in E. rewrite Eb in Hb. rewrite Ea in Ha.
  destruct (Qle_bool rb 0 || Qle_bool ra 0) eqn:Hle.
  - rewrite (part_two_pair_stale cfg w tp n s0 _ _ _ E Hb Ha Hle).
    by rewrite cancelled_nil, Nat.add_0_r.
  - apply orb_false_elim in Hle as [H1 H2].
    apply (part_two_pair_run cfg w tp n s0 rb ra _ _ _ E Hb Ha Ho).
    + apply Qnot_le_lt. intros Hle. apply Qle_bool_iff in Hle. congruence.
    + apply Qnot_le_lt. intros Hle. apply Qle_bool_iff in Hle. congruence.
Qed.

(** A started cycle whose payload parses takes its snapshots and runs the
    three parts on them. *)
Lemma on_tick_run cfg w d s :
  started s = true →
  bid_ask_markets_json w = PayloadJSON d →
  (∀ tp, tp ∈ trading_pairs cfg → is_Some (orders s !! tp)) →
  (∀ o, o ∈ get_active_orders w → o_trading_pair o ∈ trading_pairs cfg) →
  ∃ s0,
    snapshots_taken cfg w d s0
    ∧ quiet s s0
    ∧ on_tick cfg w s
      = (match (reconcile cfg w s0).1 with
         | Ok r => Ok (Some r)
         | Raise e => Raise e
         end, (reconcile cfg w s0).2).
Proof.
  intros Hs Hj Ht Ha. unfold on_tick. rewrite run_read, Hs, Hj. cbn [negb].
  rewrite run_modify. set (s1 := set_bid_ask_markets_dict d s).
  destruct (snapshot_run cfg w s1) as [E H]; [done|by intros o ?%Ha%Ht|].
  pose proof (keeps_reference_snapshot cfg w s1) as D.
  pose proof (quiet_snapshot cfg w s1) as Q.
  rewrite run_bind.
  destruct (snapshot cfg w s1) as [[[]|e] s2]; cbn [fst snd] in *; [|done].
  exists s2. split; [by split|]. split; [exact Q|].
  rewrite run_bind. by destruct (reconcile cfg w s2) as [[r|e] s3].
Qed.

(** The cycle after Part One: when it cancelled something the cycle goes
    to its summary; otherwise the later parts make no cancellation for an
    unprofitable price. *)
Lemma reconcile_after_part_one cfg w s n s1 :
  part_one cfg w s = (Ok n, s1) →
  (n ≠ 0%nat →
     reconcile cfg w s = (Ok (Summary n 0 no_proposals), tick s1))
  ∧ (∃ rest,
       events (reconcile cfg w s).2 = events s1 ++ rest
       ∧ Forall (λ e, is_cancel Unprofitable e = false) rest)
  ∧ ∀ sm, (reconcile cfg w s).1 = Ok sm → num_cancels_unprofitable sm = n.
Proof.
  intros H1. unfold reconcile. cbv zeta. rewrite (run_bind_ok _ _ _ _ _ H1).
  destruct n as [|n]; cbn [Nat.ltb Nat.leb Nat.eqb]; cycle 1.
  { rewrite run_ret. cbn [Nat.ltb Nat.leb Nat.eqb]. rewrite run_ret, run_time_time.
    split; [done|]. split; [exists []; by rewrite app_nil_r|].
    by intros sm [= <-]. }
  split; [done|]. rewrite run_bind.
  destruct (sat_part_two cfg w s1) as (new2 & E2 & F2 & _).
  assert (Forall (λ e, is_cancel Unprofitable e = false) new2) as F2'.
  { eapply Forall_impl; [exact F2|]. intros e (tp & id & ->)%is_cancel_inv. done. }
  destruct (part_two cfg w s1) as [[n2|e] s2]; cbn [snd] in E2; cycle 1.
  { split; [by exists new2|]. done. }
  assert (∀ (p3 : M proposals), sat proposing p3 →
    (∃ rest,
       events ((p3 ≫= λ p, _ ← time_time w; mret (Summary 0 n2 p)) s2).2
       = events s1 ++ rest
       ∧ Forall (λ e, is_cancel Unprofitable e = false) rest)
    ∧ ∀ sm, ((p3 ≫= λ p, _ ← time_time w; mret (Summary 0 n2 p)) s2).1 = Ok sm →
        num_cancels_unprofitable sm = 0%nat) as Hrest.
  { intros p3 P3. rewrite run_bind.
    destruct (P3 s2) as (new3 & E3 & F3 & _).
    assert (Forall (λ e, is_cancel Unprofitable e = false) new3) as F3'.
    { eapply Forall_impl; [exact F3|]. by intros [| | | |]. }
    destruct (p3 s2) as [[p|e] s3]; cbn [snd] in E3.
    - rewrite run_time_time. cbn.
      split; [|by intros sm [= <-]].
      exists (new2 ++ new3). rewrite E3, E2, app_assoc.
      split; [done | by apply Forall_app].
    - split; [|done]. exists (new2 ++ new3). cbn.
      rewrite E3, E2, app_assoc. split; [done | by apply Forall_app]. }
  destruct n2 as [|n2]; cbn [Nat.ltb Nat.leb Nat.eqb].
  - apply Hrest, proposing_part_three.
  - apply Hrest. apply sat_ret; tc_solve.
Qed.

(** ** Part One cancels the unprofitable orders *)

(** C4 does not hold as stated: the threshold of the program is not
    [ref_ask * (1 + sell_cancel_unprofitable_ratio)].  With the class
    attributes of the source, the reference ask 1.0 and an open sell order
    at 0.9995, the price is not below [1.0 * (1 + -0.0005) = 0.9995], yet
    the cycle cancels the order: [1 + sell_cancel_unprofitable_ratio] is a
    float sum, 0.99950000000000005506..., and the threshold is its product
    with [Decimal(1.0)], 0.9995000000000000550670620214. *)
Lemma boundary_sell_is_cancelled :
  let cfg := default_config ["X-BTC"%string] in
  let run := on_tick cfg boundary_world (running cfg boundary_world) in
  bid_ask_markets_json boundary_world
  = PayloadJSON {[ "X-BTC"%string := BidAsk (JNum (fl 0.999)) (JNum 1) ]}
  ∧ get_active_orders boundary_world = [Order "X-BTC" false "sell-1" 0.9995]
  ∧ ¬ (0.9995 < 1 * (1 + -0.0005))
  ∧ ¬ (0.9995 < 1 * (1 + sell_cancel_unprofitable_ratio cfg))
  ∧ float_add 1 (sell_cancel_unprofitable_ratio cfg)
    == 0.9995000000000000550670620214077644050121307373046875
  ∧ unprofitable_sell_threshold cfg 1 == 0.9995000000000000550670620214
  ∧ new_events (on_tick cfg boundary_world) (running cfg boundary_world)
    = [EvCancel Unprofitable "X-BTC" "sell-1"]
  ∧ run.1 = Ok (Some (Summary 1 0 no_proposals)).
Proof.
  cbv zeta. split; [reflexivity|]. split; [reflexivity|].
  split; [by vm_compute|]. split; [by vm_compute|]. split; [by vm_compute|].
  split; [by vm_compute|]. split; by vm_compute.
Qed.

(** C4, as the program has it.  In a started cycle whose payload parses,
    whose trading pairs all have a reference bid and ask that are numbers
    and whose active orders are all of trading pairs, Part One cancels,
    pair by pair in the order of the loop, for every pair with a positive
    reference bid and ask: the open buy orders whose price is above
    [Decimal(ref_bid) * Decimal(1 - buy_cancel_unprofitable_ratio)] and
    then the open sell orders whose price is below
    [Decimal(ref_ask) * Decimal(1 + sell_cancel_unprofitable_ratio)], the
    sum a float and the product rounded to 28 digits; and nothing else is
    cancelled for an unprofitable price in the cycle.  The counter of the
    summary is the number of these cancellations; when there is one the
    cycle ends after Part One.  Each cancellation reads the clock and
    stores the reading as [last_cancel_time] of the pair, so that the pair
    ends the cycle with the reading made after its last cancellation. *)
Theorem unprofitable_orders_are_cancelled cfg w d s :
  started s = true →
  bid_ask_markets_json w = PayloadJSON d →
  (∀ tp, tp ∈ trading_pairs cfg →
     is_Some (orders s !! tp)
     ∧ ∃ ref_bid ref_ask,
         d !! tp = Some (BidAsk (JNum ref_bid) (JNum ref_ask))) →
  (∀ o, o ∈ get_active_orders w → o_trading_pair o ∈ trading_pairs cfg) →
  let hits := part_one_cancels cfg w d in
  let cancels := cancel_events Unprofitable hits (trading_pairs cfg) in
  (∀ tp ref_bid ref_ask o,
     d !! tp = Some (BidAsk (JNum ref_bid) (JNum ref_ask)) →
     0 < ref_bid → 0 < ref_ask →
     (o ∈ hits tp ↔
        (o ∈ (open_orders w tp).1
         ∧ round28 (ref_bid * float_sub 1 (buy_cancel_unprofitable_ratio cfg))
           < o_price o)
        ∨ (o ∈ (open_orders w tp).2
           ∧ o_price o
             < round28 (ref_ask
                        * float_add 1 (sell_cancel_unprofitable_ratio cfg)))))
  ∧ (∀ tp, tp ∈ trading_pairs cfg →
       orders (on_tick cfg w s).2 !! tp = Some (open_orders w tp))
  ∧ (∃ rest,
       new_events (on_tick cfg w) s = cancels ++ rest
       ∧ Forall (λ e, is_cancel Unprofitable e = false) rest)
  ∧ (∀ r, (on_tick cfg w s).1 = Ok (Some r) →
       num_cancels_unprofitable r = length cancels)
  ∧ (cancels ≠ [] →
       (on_tick cfg w s).1 = Ok (Some (Summary (length cancels) 0 no_proposals))
       ∧ new_events (on_tick cfg w) s = cancels)
  ∧ (∀ tp o n s0,
       cancel w Unprofitable tp o n s0
       = (Ok (S n),
          set_last_cancel_time tp (clock w (ticks s0))
            (tick (record (EvCancel Unprofitable tp (o_client_order_id o)) s0))))
  ∧ (∀ before tp after,
       trading_pairs cfg = before ++ tp :: after → tp ∉ after → hits tp ≠ [] →
       last_cancel_time (on_tick cfg w s).2 !! tp
       = Some (clock w (ticks s + length (cancel_events Unprofitable hits before)
                        + length (hits tp) - 1))).
Proof.
  intros Hs Hj Hp Ha hits cancels.
  destruct (on_tick_run cfg w d s Hs Hj) as (s0 & S0 & Q0 & Hrun);
    [by intros tp [? _]%Hp | done|].
  destruct Q0 as (E0 & T0 & _ & L0 & _).
  pose proof (part_one_run cfg w d s0 S0 (λ tp Hin, proj2 (Hp tp Hin))) as H1.
  fold hits in H1. fold cancels in H1.
  set (s1 := cancel_all w Unprofitable hits (trading_pairs cfg) s0) in *.
  destruct (cancel_all_frame w Unprofitable hits (trading_pairs cfg) s0)
    as (_ & _ & O1 & _ & _ & _ & E1 & T1).
  fold s1 cancels in O1, E1, T1.
  destruct (reconcile_after_part_one cfg w s0 _ s1 H1)
    as (Hstop & (rest & Erest & Frest) & Hcount).
  pose proof (keeps_snapshots_reconcile cfg w s0) as (_ & O & _).
  split; [|split; [|split; [|split; [|split; [|split]]]]].
  - intros tp rb ra o Hd Hb Hk. subst hits. unfold part_one_cancels. rewrite Hd.
    assert (Qle_bool rb 0 = false) as ->.
    { apply not_true_is_false. intros H%Qle_bool_iff. lra. }
    assert (Qle_bool ra 0 = false) as ->.
    { apply not_true_is_false. intros H%Qle_bool_iff. lra. }
    cbn [orb]. unfold unprofitable. rewrite elem_of_app, !list_elem_of_filter.
    unfold unprofitable_buy_threshold, unprofitable_sell_threshold. tauto.
  - intros tp Hin. rewrite Hrun. cbn [snd]. rewrite O. by apply S0.
  - exists rest. unfold new_events. rewrite Hrun. cbn [snd].
    by rewrite Erest, E1, E0, <- app_assoc, drop_app_length.
  - intros r. rewrite Hrun. cbn [fst].
    destruct (reconcile cfg w s0).1 as [sm|e] eqn:Er; [|done].
    intros [= <-]. by apply Hcount.
  - intros Hne.
    assert (length cancels ≠ 0%nat) as Hn by (by destruct cancels).
    rewrite Hrun, (Hstop Hn). cbn [fst snd]. split; [done|].
    unfold new_events. rewrite Hrun, (Hstop Hn). cbn [snd tick events].
    by rewrite E1, E0, drop_app_length.
  - intros tp o n s1'. reflexivity.
  - intros before tp after Hl Hnot Hne. rewrite Hrun.
    assert (cancels ≠ []) as Hc.
    { subst cancels. rewrite cancel_events_nil. intros H. apply Hne, H.
      rewrite Hl. apply elem_of_app. right. by left. }
    assert (length cancels ≠ 0%nat) as Hn by (by destruct cancels).
    rewrite (Hstop Hn). cbn [snd tick last_cancel_time]. subst s1.
    rewrite Hl, cancel_all_last_cancel_time by done. by rewrite T0.
Qed.

(** Scenario C of the specification: the buy order at 0.00105 is above the
    threshold 0.0009975000000000000740553451894 and the sell order at
    0.00109 is below 0.001099450000000000126807071787; both are cancelled,
    the other orders of X-BTC and the order of the stale Y-BTC stay, and
    X-BTC keeps the reading of the clock made after the second
    cancellation. *)
Lemma unprofitable_orders_are_cancelled_witness :
  let cfg := default_config ["X-BTC"; "Y-BTC"]%string in
  let run := on_tick cfg scenario_c_world (running cfg scenario_c_world) in
  new_events (on_tick cfg scenario_c_world) (running cfg scenario_c_world)
  = [EvCancel Unprofitable "X-BTC" "buy-1";
     EvCancel Unprofitable "X-BTC" "sell-2"]
  ∧ run.1 = Ok (Some (Summary 2 0 no_proposals))
  ∧ last_cancel_time run.2 !! "X-BTC"%string = Some (clock scenario_c_world 3).
Proof.
  intros cfg run.
  destruct (unprofitable_orders_are_cancelled cfg scenario_c_world
              (list_to_map [("X-BTC", fair);
                            ("Y-BTC", BidAsk (JNum 0) (JNum 0))]%string)
              (running cfg scenario_c_world))
    as (_ & _ & _ & _ & Hstop & _ & Hlast).
  - reflexivity.
  - reflexivity.
  - intros tp Hin. repeat apply elem_of_cons in Hin as [->|Hin];
      [split; [vm_compute; eauto | eexists _, _; by vm_compute]..
      |by apply not_elem_of_nil in Hin].
  - intros o Hin. repeat apply elem_of_cons in Hin as [->|Hin];
      [cbn; set_solver..
      |by apply not_elem_of_nil in Hin].
  - assert (cancel_events Unprofitable
              (part_one_cancels cfg scenario_c_world
                 (list_to_map [("X-BTC", fair);
                               ("Y-BTC", BidAsk (JNum 0) (JNum 0))]%string))
              (trading_pairs cfg)
            = [EvCancel Unprofitable "X-BTC" "buy-1";
               EvCancel Unprofitable "X-BTC" "sell-2"]) as E
      by (by vm_compute).
    rewrite E in Hstop. destruct Hstop as [H1 H2]; [done|].
    split; [exact H2|]. split; [exact H1|].
    refine (Hlast [] "X-BTC"%string ["Y-BTC"%string] eq_refl _ _).
    + intros Hin. apply list_elem_of_singleton in Hin. discriminate Hin.
    + by vm_compute.
Defined.

(** ** Part Two cancels the outbid orders *)

(** The cycle after Part Two, when Part One cancelled nothing. *)
Lemma reconcile_after_part_two cfg w s s1 n s2 :
  part_one cfg w s = (Ok 0%nat, s1) →
  part_two cfg w s1 = (Ok n, s2) →
  (n ≠ 0%nat →
     reconcile cfg w s = (Ok (Summary 0 n no_proposals), tick s2))
  ∧ (∃ rest,
       events (reconcile cfg w s).2 = events s2 ++ rest
       ∧ Forall (λ e, is_part_three e = true) rest)
  ∧ ∀ sm, (reconcile cfg w s).1 = Ok sm →
      num_cancels_unprofitable sm = 0%nat ∧ num_cancels_outbid sm = n.
Proof.
  intros H1 H2. unfold reconcile. cbv zeta. rewrite (run_bind_ok _ _ _ _ _ H1).
  cbn [Nat.ltb Nat.leb Nat.eqb]. rewrite (run_bind_ok _ _ _ _ _ H2).
  destruct n as [|n]; cbn [Nat.ltb Nat.leb Nat.eqb]; cycle 1.
  { rewrite run_ret, run_time_time.
    split; [done|]. split; [exists []; by rewrite app_nil_r|].
    by intros sm [= <-]. }
  split; [done|]. rewrite run_bind.
  destruct (proposing_part_three cfg w s2) as (new3 & E3 & F3 & _).
  destruct (part_three cfg w s2) as [[p|e] s3]; cbn [snd] in E3.
  - rewrite run_time_time. cbn.
    split; [by exists new3 | by intros sm [= <-]].
  - split; [by exists new3 | done].
Qed.

(** C5 does not hold as stated: the threshold of the program is not
    [top_of_book.bid * (1 - buy_cancel_outbid_ratio)].  With the class
    attributes of the source and a best bid of 1, an open buy order at
    0.96999999999999999 is below [1 * (1 - 0.03) = 0.97], yet the cycle
    does not cancel it: [1 - buy_cancel_outbid_ratio] is a float
    difference, 0.96999999999999997335..., and the threshold is
    0.9699999999999999733546474090.  With the ratio 0.1 an open buy order
    at 0.9 is not below [1 * (1 - 0.1) = 0.9], yet the cycle cancels it:
    the float difference is 0.90000000000000002220.... *)
Lemma outbid_threshold_is_rounded :
  let cfg := default_config ["X-BTC"%string] in
  let w := outbid_world 0.96999999999999999 in
  let cfg' := with_buy_cancel_outbid_ratio (fl 0.1) cfg in
  let w' := outbid_world 0.9 in
  (get_price w "X-BTC" false = Fin 1
   ∧ get_active_orders w = [Order "X-BTC" true "buy-1" 0.96999999999999999]
   ∧ 0.96999999999999999 < 1 * (1 - 0.03)
   ∧ 0.96999999999999999 < 1 * (1 - buy_cancel_outbid_ratio cfg)
   ∧ float_sub 1 (buy_cancel_outbid_ratio cfg)
     == 0.9699999999999999733546474089962430298328399658203125
   ∧ outbid_buy_threshold cfg 1 == 0.9699999999999999733546474090
   ∧ new_events (on_tick cfg w) (running cfg w) = []
   ∧ (on_tick cfg w (running cfg w)).1
     = Ok (Some (Summary 0 0 (incr_balance no_proposals))))
  ∧ (get_price w' "X-BTC" false = Fin 1
     ∧ get_active_orders w' = [Order "X-BTC" true "buy-1" 0.9]
     ∧ ¬ (0.9 < 1 * (1 - 0.1))
     ∧ ¬ (0.9 < 1 * (1 - buy_cancel_outbid_ratio cfg'))
     ∧ float_sub 1 (buy_cancel_outbid_ratio cfg')
       == 0.90000000000000002220446049250313080847263336181640625
     ∧ outbid_buy_threshold cfg' 1 == 0.9000000000000000222044604925
     ∧ new_events (on_tick cfg' w') (running cfg' w')
       = [EvCancel Outbid "X-BTC" "buy-1"]
     ∧ (on_tick cfg' w' (running cfg' w')).1
       = Ok (Some (Summary 0 1 no_proposals))).
Proof.
  cbv zeta. split.
  - split; [reflexivity|]. split; [reflexivity|]. split; [by vm_compute|].
    split; [by vm_compute|]. split; [by vm_compute|]. split; [by vm_compute|].
    split; by vm_compute.
  - split; [reflexivity|]. split; [reflexivity|]. split; [by vm_compute|].
    split; [by vm_compute|]. split; [by vm_compute|]. split; [by vm_compute|].
    split; by vm_compute.
Qed.

(** C5, as the program has it.  In a started cycle whose payload parses,
    whose trading pairs all have a reference bid and ask and a best bid
    and ask that are numbers and whose active orders are all of trading
    pairs: when Part One cancels something no order is cancelled as
    outbid in the cycle; when it cancels nothing Part Two cancels, pair by
    pair in the order of the loop, for every pair with a positive
    reference bid and ask: the open buy orders whose price is below
    [Decimal(orderbook_bid) * Decimal(1 - buy_cancel_outbid_ratio)] and
    then the open sell orders whose price is above
    [Decimal(orderbook_ask) * Decimal(1 + sell_cancel_outbid_ratio)], the
    sum a float and the product rounded to 28 digits, and the rest of the
    cycle is Part Three.  The counter [num_cancels_outbid] of the summary
    is the number of these cancellations; when there is one the cycle ends
    after Part Two.  Each cancellation reads the clock and stores the
    reading as [last_cancel_time] of the pair, as in Part One. *)
Theorem outbid_orders_are_cancelled cfg w d s :
  started s = true →
  bid_ask_markets_json w = PayloadJSON d →
  (∀ tp, tp ∈ trading_pairs cfg →
     is_Some (orders s !! tp)
     ∧ (∃ ref_bid ref_ask,
          d !! tp = Some (BidAsk (JNum ref_bid) (JNum ref_ask)))
     ∧ ∃ top_bid top_ask,
         get_price w tp false = Fin top_bid
         ∧ get_price w tp true = Fin top_ask) →
  (∀ o, o ∈ get_active_orders w → o_trading_pair o ∈ trading_pairs cfg) →
  let unprofitable_cancels :=
    cancel_events Unprofitable (part_one_cancels cfg w d) (trading_pairs cfg) in
  let hits := part_two_cancels cfg w d in
  let cancels := cancel_events Outbid hits (trading_pairs cfg) in
  (∀ tp ref_bid ref_ask top_bid top_ask o,
     d !! tp = Some (BidAsk (JNum ref_bid) (JNum ref_ask)) →
     get_price w tp false = Fin top_bid →
     get_price w tp true = Fin top_ask →
     0 < ref_bid → 0 < ref_ask →
     (o ∈ hits tp ↔
        (o ∈ (open_orders w tp).1
         ∧ o_price o
           < round28 (top_bid * float_sub 1 (buy_cancel_outbid_ratio cfg)))
        ∨ (o ∈ (open_orders w tp).2
           ∧ round28 (top_ask * float_add 1 (sell_cancel_outbid_ratio cfg))
             < o_price o)))
  ∧ (unprofitable_cancels ≠ [] →
       Forall (λ e, is_cancel Outbid e = false) (new_events (on_tick cfg w) s)
       ∧ ∃ r, (on_tick cfg w s).1 = Ok (Some r) ∧ num_cancels_outbid r = 0%nat)
  ∧ (unprofitable_cancels = [] →
       (∃ rest,
          new_events (on_tick cfg w) s = cancels ++ rest
          ∧ Forall (λ e, is_part_three e = true) rest)
       ∧ (∀ r, (on_tick cfg w s).1 = Ok (Some r) →
            num_cancels_unprofitable r = 0%nat
            ∧ num_cancels_outbid r = length cancels)
       ∧ (cancels ≠ [] →
            (on_tick cfg w s).1
            = Ok (Some (Summary 0 (length cancels) no_proposals))
            ∧ new_events (on_tick cfg w) s = cancels)
       ∧ (∀ before tp after,
            trading_pairs cfg = before ++ tp :: after → tp ∉ after →
            hits tp ≠ [] →
            last_cancel_time (on_tick cfg w s).2 !! tp
            = Some (clock w (ticks s
                             + length (cancel_events Outbid hits before)
                             + length (hits tp) - 1))))
  ∧ (∀ tp o n s0,
       cancel w Outbid tp o n s0
       = (Ok (S n),
          set_last_cancel_time tp (clock w (ticks s0))
            (tick (record (EvCancel Outbid tp (o_client_order_id o)) s0)))).
Proof.
  intros Hs Hj Hp Ha unprofitable_cancels hits cancels.
  destruct (on_tick_run cfg w d s Hs Hj) as (s0 & S0 & Q0 & Hrun);
    [by intros tp [? _]%Hp | done|].
  destruct Q0 as (E0 & T0 & _ & L0 & _).
  pose proof (part_one_run cfg w d s0 S0
                (λ tp Hin, proj1 (proj2 (Hp tp Hin)))) as H1.
  fold unprofitable_cancels in H1.
  set (hits1 := part_one_cancels cfg w d) in *.
  set (s1 := cancel_all w Unprofitable hits1 (trading_pairs cfg) s0) in *.
  destruct (cancel_all_frame w Unprofitable hits1 (trading_pairs cfg) s0)
    as (_ & D1 & O1 & B1 & A1 & _ & E1 & T1).
  fold s1 unprofitable_cancels in D1, O1, B1, A1, E1, T1.
  split; [|split; [|split]].
  - intros tp rb ra b a o Hd Hb Hk Hrb Hra. subst hits.
    unfold part_two_cancels. rewrite Hd, Hb, Hk.
    assert (Qle_bool rb 0 = false) as ->.
    { apply not_true_is_false. intros H%Qle_bool_iff. lra. }
    assert (Qle_bool ra 0 = false) as ->.
    { apply not_true_is_false. intros H%Qle_bool_iff. lra. }
    cbn [orb]. unfold outbid. rewrite elem_of_app, !list_elem_of_filter.
    unfold outbid_buy_threshold, outbid_sell_threshold. tauto.
  - intros Hne.
    assert (length unprofitable_cancels ≠ 0%nat) as Hn
      by (by destruct unprofitable_cancels).
    destruct (reconcile_after_part_one cfg w s0 _ s1 H1) as (Hstop & _).
    unfold new_events. rewrite Hrun, (Hstop Hn). cbn [fst snd tick events].
    rewrite E1, E0, drop_app_length. split; [|by eexists].
    subst unprofitable_cancels. unfold cancel_events.
    apply Forall_concat, Forall_fmap, Forall_forall. intros tp _.
    by apply Forall_fmap, Forall_forall.
  - intros Hnil. rewrite Hnil in H1, E1, T1. cbn [length] in H1, T1.
    rewrite app_nil_r in E1. rewrite Nat.add_0_r in T1.
    assert (snapshots_taken cfg w d s1) as S1.
    { destruct S0 as [D0 S0]. split; [congruence|].
      intros tp Hin. rewrite O1, B1, A1. by apply S0. }
    pose proof (part_two_run cfg w d s1 S1
                  (λ tp Hin, proj2 (Hp tp Hin))) as H2.
    fold hits in H2. fold cancels in H2.
    set (s2 := cancel_all w Outbid hits (trading_pairs cfg) s1) in *.
    destruct (cancel_all_frame w Outbid hits (trading_pairs cfg) s1)
      as (_ & _ & _ & _ & _ & _ & E2 & T2).
    fold s2 cancels in E2, T2.
    destruct (reconcile_after_part_two cfg w s0 s1 _ s2 H1 H2)
      as (Hstop & (rest & Erest & Frest) & Hcount).
    split; [|split; [|split]].
    + exists rest. unfold new_events. rewrite Hrun. cbn [snd].
      by rewrite Erest, E2, E1, E0, <- app_assoc, drop_app_length.
    + intros r. rewrite Hrun. cbn [fst].
      destruct (reconcile cfg w s0).1 as [sm|e] eqn:Er; [|done].
      intros [= <-]. by apply Hcount.
    + intros Hne.
      assert (length cancels ≠ 0%nat) as Hn by (by destruct cancels).
      rewrite Hrun, (Hstop Hn). cbn [fst snd]. split; [done|].
      unfold new_events. rewrite Hrun, (Hstop Hn). cbn [snd tick events].
      by rewrite E2, E1, E0, drop_app_length.
    + intros before tp after Hl Hnot Hne. rewrite Hrun.
      assert (cancels ≠ []) as Hc.
      { subst cancels. rewrite cancel_events_nil. intros H. apply Hne, H.
        rewrite Hl. apply elem_of_app. right. by left. }
      assert (length cancels ≠ 0%nat) as Hn by (by destruct cancels).
      rewrite (Hstop Hn). cbn [snd tick last_cancel_time]. subst s2.
      rewrite Hl, cancel_all_last_cancel_time by done. by rewrite T1, T0.
  - intros tp o n s1'. reflexivity.
Qed.

(** With a best bid of 0.00098 and a best ask of 0.00112 the thresholds
    are 0.0009505999999999999738875544608 and
    0.001153600000000000029842794902: the buy order at 0.0009 and the sell
    order at 0.0012 of X-BTC are cancelled as outbid, the other two stay,
    Part One having cancelled nothing; X-BTC keeps the reading of the clock
    made after the second cancellation. *)
Lemma outbid_orders_are_cancelled_witness :
  let cfg := default_config ["X-BTC"; "Y-BTC"]%string in
  let run :=
    on_tick cfg scenario_outbid_world (running cfg scenario_outbid_world) in
  new_events (on_tick cfg scenario_outbid_world)
    (running cfg scenario_outbid_world)
  = [EvCancel Outbid "X-BTC" "buy-2"; EvCancel Outbid "X-BTC" "sell-1"]
  ∧ run.1 = Ok (Some (Summary 0 2 no_proposals))
  ∧ last_cancel_time run.2 !! "X-BTC"%string
    = Some (clock scenario_outbid_world 3).
Proof.
  intros cfg run.
  destruct (outbid_orders_are_cancelled cfg scenario_outbid_world
              (list_to_map [("X-BTC", fair); ("Y-BTC", fair)]%string)
              (running cfg scenario_outbid_world))
    as (_ & _ & Htwo & _).
  - reflexivity.
  - reflexivity.
  - intros tp Hin. repeat apply elem_of_cons in Hin as [->|Hin];
      [split; [vm_compute; eauto|];
       split; eexists _, _; by vm_compute..
      |by apply not_elem_of_nil in Hin].
  - intros o Hin. repeat apply elem_of_cons in Hin as [->|Hin];
      [cbn; set_solver..|by apply not_elem_of_nil in Hin].
  - destruct Htwo as (_ & _ & Hstop & Hlast); [by vm_compute|].
    assert (cancel_events Outbid
              (part_two_cancels cfg scenario_outbid_world
                 (list_to_map [("X-BTC", fair); ("Y-BTC", fair)]%string))
              (trading_pairs cfg)
            = [EvCancel Outbid "X-BTC" "buy-2";
               EvCancel Outbid "X-BTC" "sell-1"]) as E
      by (by vm_compute).
    rewrite E in Hstop. destruct Hstop as [H1 H2]; [done|].
    split; [exact H2|]. split; [exact H1|].
    refine (Hlast [] "X-BTC"%string ["Y-BTC"%string] eq_refl _ _).
    + intros Hin. apply list_elem_of_singleton in Hin. discriminate Hin.
    + by vm_compute.
Defined.

(** ** The price of a proposal *)




#[export] Instance pricing_refl cfg : Reflexive (pricing cfg).
Proof. intros s. repeat split. exists []. by rewrite app_nil_r. Qed.

#[export] Instance pricing_trans cfg : Transitive (pricing cfg).
Proof.
  intros s1 s2 s3 (D1 & B1 & A1 & new1 & E1 & F1) (D2 & B2 & A2 & new2 & E2 & F2).
  split; [congruence|]. split; [congruence|]. split; [congruence|].
  exists (new1 ++ new2). split; [by rewrite E2, E1, app_assoc|].
  apply Forall_app. split; [done|].
  eapply Forall_impl; [exact F2|].
  intros [| | |[] tp price amount|]; cbn; try done; by rewrite D1, ?B1, ?A1.
Qed.

(** A run that keeps the snapshots and makes cancellations only. *)
Lemma pricing_cancelling cfg r s s' :
  keeps_snapshots s s' → cancelling r s s' → pricing cfg s s'.
Proof.
  intros (D & _ & B & A & _) (new & E & F & _).
  split; [done|]. split; [done|]. split; [done|]. exists new. split; [done|].
  eapply Forall_impl; [exact F|]. by intros e (tp & id & ->)%is_cancel_inv.
Qed.

(** A run without an event that keeps the snapshots. *)
Lemma pricing_quietly cfg s s' :
  bid_ask_markets_dict s' = bid_ask_markets_dict s →
  orderbook_bid s' = orderbook_bid s → orderbook_ask s' = orderbook_ask s →
  events s' = events s → pricing cfg s s'.
Proof. intros D B A E. repeat split; try done. exists []. by rewrite app_nil_r. Qed.

Lemma sat_for_each_in {X A} (R : state → state → Prop)
    `{!Reflexive R, !Transitive R} (l : list X) (body : X → A → M A) a :
  (∀ x a, x ∈ l → sat R (body x a)) → sat R (for_each l body a).
Proof.
  revert a. induction l as [|x l IH]; intros a Hb; cbn [for_each].
  - by apply sat_ret.
  - apply sat_bind; [done | apply Hb; by left|].
    intros a'. apply IH. intros. apply Hb. by right.
Qed.

Lemma keeps_snapshots_place_orders proposal :
  sat keeps_snapshots (place_orders proposal).
Proof. unfold place_orders, place_order, emit. repeat frame_step. Qed.

(** The proposals of a pair are priced from the snapshots. *)
Lemma pricing_part_three_pair cfg w tp c :
  tp ∈ trading_pairs cfg → sat (pricing cfg) (part_three_pair cfg w tp c).
Proof.
  intros Hin s. unfold part_three_pair.
  destruct (0 <? num_orders c)%nat; [reflexivity|].
  rewrite run_time_time, run_read.
  assert (∀ (r : res proposals) s',
            bid_ask_markets_dict s' = bid_ask_markets_dict s →
            orderbook_bid s' = orderbook_bid s →
            orderbook_ask s' = orderbook_ask s →
            events s' = events s → pricing cfg s (r, s').2) as Hquiet.
  { intros r s'. apply pricing_quietly. }
  destruct (last_order_time (tick s) !! tp) as [last|] eqn:Hl; cycle 1.
  { rewrite (run_getitem_none _ _ _ _ Hl). by apply Hquiet. }
  rewrite (run_getitem _ _ _ _ _ Hl).
  destruct (Qlt_bool _ _); [by apply Hquiet|].
  rewrite run_modify, run_read.
  set (s1 := set_trading_pair tp (tick s)).
  destruct (bid_ask_markets_dict s1 !! tp) as [[ref_bid ref_ask]|] eqn:Hd; cycle 1.
  { rewrite (run_getitem_none _ _ _ _ Hd). by apply Hquiet. }
  rewrite (run_getitem _ _ _ _ _ Hd), run_read.
  destruct (orderbook_bid s1 !! tp) as [ob_bid|] eqn:Hb; cycle 1.
  { rewrite (run_getitem_none _ _ _ _ Hb). by apply Hquiet. }
  rewrite (run_getitem _ _ _ _ _ Hb), run_read.
  destruct (orderbook_ask s1 !! tp) as [ob_ask|] eqn:Ha; cycle 1.
  { rewrite (run_getitem_none _ _ _ _ Ha). by apply Hquiet. }
  rewrite (run_getitem _ _ _ _ _ Ha). cbn [bid ask].
  assert (pricing cfg s ((emit (EvBadReference tp) ≫= λ _, mret c) s1).2)
    as Hbad.
  { split; [done|]. split; [done|]. split; [done|].
    exists [EvBadReference tp]. split; [done|]. by apply Forall_singleton. }
  destruct ref_bid as [rb|]; cbn [Decimal dec_mul]; [|exact Hbad].
  destruct ref_ask as [ra|]; cbn [Decimal dec_mul]; [|exact Hbad].
  clear Hbad. fold (buy_price_max cfg rb). fold (sell_price_min cfg ra).
  rewrite run_bind. unfold split_pair.
  destruct (split "-" tp) as [|base_cur [|quote_cur [|? ?]]];
    try (by apply Hquiet).
  cbn [ret fst snd]. rewrite run_bind.
  assert (∃ nb sb,
    (propose_buy cfg w tp quote_cur (buy_price_max cfg rb) ob_bid c [] s1).2 = sb
    ∧ bid_ask_markets_dict sb = bid_ask_markets_dict s
    ∧ orderbook_bid sb = orderbook_bid s
    ∧ orderbook_ask sb = orderbook_ask s
    ∧ events sb = events s ++ nb
    ∧ Forall (priced cfg s) nb) as (nb & sb & Rb & Db & Bb & Ab & Eb & Fb).
  { destruct (propose_buy_cases cfg w tp quote_cur (buy_price_max cfg rb)
                ob_bid c [] s1)
      as [(e & ->)|[->|[(b & _ & -> & _)|[(b & _ & -> & _)
          |(b & a & -> & -> & Hnear & _)]]]].
    1-4: exists [], s1; rewrite app_nil_r; by repeat split.
    eexists [_], _. split; [reflexivity|]. repeat split.
    apply Forall_singleton. cbn. split; [done|]. by exists rb, ra, b. }
  destruct (propose_buy cfg w tp quote_cur (buy_price_max cfg rb) ob_bid c [] s1)
    as [[[cb pb]|e] sb']; cbn [snd] in Rb; subst sb'; cycle 1.
  { by repeat split; [..|exists nb]. }
  cbn [fst snd]. rewrite run_bind.
  assert (∃ ns ss,
    (propose_sell cfg w tp base_cur quote_cur (sell_price_min cfg ra) ob_ask
       cb pb sb).2 = ss
    ∧ bid_ask_markets_dict ss = bid_ask_markets_dict s
    ∧ orderbook_bid ss = orderbook_bid s
    ∧ orderbook_ask ss = orderbook_ask s
    ∧ events ss = events s ++ nb ++ ns
    ∧ Forall (priced cfg s) ns) as (ns & ss & Rs & Ds & Bs & As & Es & Fs).
  { destruct (propose_sell_cases cfg w tp base_cur quote_cur
                (sell_price_min cfg ra) ob_ask cb pb sb)
      as [(e & ->)|[->|[(b & _ & -> & _)|[(b & _ & -> & _)
          |(b & a & -> & -> & Hnear & _)]]]].
    1-4: exists [], sb; rewrite app_nil_r; by repeat split.
    eexists [_], _. split; [reflexivity|]. cbn.
    split; [done|]. split; [done|]. split; [done|].
    split; [by rewrite Eb, <- app_assoc|].
    apply Forall_singleton. cbn. split; [done|]. by exists rb, ra, b. }
  destruct (propose_sell cfg w tp base_cur quote_cur (sell_price_min cfg ra)
              ob_ask cb pb sb) as [[[cs ps]|e] ss']; cbn [snd] in Rs; subst ss';
    cycle 1.
  { split; [done|]. split; [done|]. split; [done|]. exists (nb ++ ns).
    split; [done | by apply Forall_app]. }
  cbn [fst snd]. rewrite run_bind.
  destruct (place_orders_run (adjust_proposal_to_budget w ps) ss) as (Rp & Ep).
  pose proof (keeps_snapshots_place_orders (adjust_proposal_to_budget w ps) ss)
    as (Dp & _ & Bp & Ap & _).
  destruct (place_orders (adjust_proposal_to_budget w ps) ss) as [rp sp].
  cbn in Rp, Ep, Dp, Bp, Ap. subst rp. cbn.
  split; [congruence|]. split; [congruence|]. split; [congruence|].
  exists (nb ++ ns ++ (EvPlace <$> adjust_proposal_to_budget w ps)).
  split; [by rewrite Ep, Es, <- !app_assoc|].
  apply Forall_app. split; [done|]. apply Forall_app. split; [done|].
  by apply Forall_fmap, Forall_forall.
Qed.

Lemma pricing_part_one cfg w : sat (pricing cfg) (part_one cfg w).
Proof.
  intros s. eapply pricing_cancelling;
    [apply keeps_snapshots_part_one | apply sat_part_one].
Qed.

Lemma pricing_part_two cfg w : sat (pricing cfg) (part_two cfg w).
Proof.
  intros s. eapply pricing_cancelling;
    [apply keeps_snapshots_part_two | apply sat_part_two].
Qed.

Lemma pricing_part_three cfg w : sat (pricing cfg) (part_three cfg w).
Proof.
  apply sat_for_each_in; try tc_solve.
  intros tp c Hin. by apply pricing_part_three_pair.
Qed.

Lemma pricing_reconcile cfg w : sat (pricing cfg) (reconcile cfg w).
Proof.
  unfold reconcile. cbv zeta.
  apply sat_bind; [tc_solve | apply pricing_part_one | intros n1].
  apply sat_bind;
    [tc_solve
    |destruct (_ =? 0)%nat; [apply pricing_part_two | apply sat_ret; tc_solve]
    |intros n2].
  apply sat_bind;
    [tc_solve
    |destruct (_ =? 0)%nat; [apply pricing_part_three | apply sat_ret; tc_solve]
    |intros p].
  apply sat_bind; [tc_solve | | intros t; apply sat_ret; tc_solve].
  intros s. by apply pricing_quietly.
Qed.

(** The order books that a snapshot stores are the answers of
    [get_price]. *)
Lemma snapshot_order_books cfg w s :
  (snapshot cfg w s).1 = Ok tt →
  ∀ tp, tp ∈ trading_pairs cfg →
    orderbook_bid (snapshot cfg w s).2 !! tp = Some (get_price w tp false)
    ∧ orderbook_ask (snapshot cfg w s).2 !! tp = Some (get_price w tp true).
Proof.
  unfold snapshot. rewrite run_bind.
  destruct (for_each (trading_pairs cfg) reset_orders tt s) as [[[]|e] s1];
    [|done].
  rewrite run_bind.
  destruct (for_each (get_active_orders w) file_order tt s1) as [[[]|e] s2];
    [|done].
  destruct (fetch_orderbook_loop w (trading_pairs cfg) s2) as (s3 & -> & _ & H).
  intros _ tp Hin. cbn [snd]. destruct (H tp) as [-> ->].
  by rewrite !decide_True.
Qed.

(** The proposals of a cycle are priced from the payload of the cycle and
    from the answers of [get_price]. *)
Lemma on_tick_priced cfg w s :
  Forall
    (λ e, match e with
          | EvProposal side tp price _ =>
              ∃ d ref_bid ref_ask top,
                bid_ask_markets_json w = PayloadJSON d
                ∧ d !! tp = Some (BidAsk (JNum ref_bid) (JNum ref_ask))
                ∧ match side with
                  | BUY =>
                      get_price w tp false = Fin top
                      ∧ top <= buy_distance_bound cfg (buy_price_max cfg ref_bid)
                      ∧ price = buy_price (buy_price_max cfg ref_bid) top
                  | SELL =>
                      get_price w tp true = Fin top
                      ∧ sell_distance_bound cfg (sell_price_min cfg ref_ask)
                        <= top
                      ∧ price = sell_price (sell_price_min cfg ref_ask) top
                  end
          | _ => True
          end)
    (new_events (on_tick cfg w) s).
Proof.
  unfold new_events, on_tick. rewrite run_read.
  destruct (started s); cbn [negb]; cycle 1.
  { rewrite run_emit, run_modify. cbn. rewrite drop_app_length.
    by apply Forall_singleton. }
  destruct (bid_ask_markets_json w) as [| |d] eqn:Hj.
  - cbn. by rewrite drop_all.
  - cbn. by rewrite drop_all.
  - rewrite run_modify. set (s1 := set_bid_ask_markets_dict d s).
    rewrite run_bind.
    destruct (quiet_snapshot cfg w s1) as (E & _).
    pose proof (keeps_reference_snapshot cfg w s1) as D.
    pose proof (snapshot_order_books cfg w s1) as B.
    destruct (snapshot cfg w s1) as [[[]|e] s2]; cbn [fst snd] in E, D, B;
      cycle 1.
    { cbn. rewrite E. cbn. by rewrite drop_all. }
    specialize (B eq_refl).
    assert (events ((reconcile cfg w ≫= λ r, mret (Some r)) s2).2
            = events (reconcile cfg w s2).2) as ->.
    { rewrite run_bind. by destruct (reconcile cfg w s2) as [[r|e] s3]. }
    destruct (pricing_reconcile cfg w s2) as (_ & _ & _ & new & -> & F).
    rewrite E. change (events s1) with (events s). rewrite drop_app_length.
    eapply Forall_impl; [exact F|].
    intros [| | |[] tp price amount|]; cbn; try done.
    + intros (Hin & rb & ra & b & Hd & Hb & Hnear & ->).
      exists d, rb, ra, b. split; [done|]. split; [by rewrite <- Hd, D|].
      destruct (B tp Hin) as [Eb _]. rewrite Eb in Hb. by injection Hb as ->.
    + intros (Hin & rb & ra & a & Hd & Ha & Hnear & ->).
      exists d, rb, ra, a. split; [done|]. split; [by rewrite <- Hd, D|].
      destruct (B tp Hin) as [_ Ea]. rewrite Ea in Ha. by injection Ha as ->.
Qed.




(** ** The distance check of the buy side *)

(** C7 does not hold as stated: a best bid above the bound is recorded as
    a distance skip only when the buy side of the pair is looked at.
    X-BTC has a fair reference and an open buy order at 0.00099 that Part
    One and Part Two leave alone; the best bid 0.00102 is above
    [buy_price_max * (1 + buy_place_max_distance)], in exact terms
    0.0010149 and as the program computes it
    0.001014900000000000034271890881.  The cycle completes with a sell
    proposal and counts no distance skip. *)
Lemma far_bid_is_not_recorded :
  let cfg := default_config ["X-BTC"%string] in
  let run := on_tick cfg held_buy_world (running cfg held_buy_world) in
  bid_ask_markets_json held_buy_world = PayloadJSON {[ "X-BTC"%string := fair ]}
  ∧ get_active_orders held_buy_world = [Order "X-BTC" true "buy-1" 0.00099]
  ∧ get_price held_buy_world "X-BTC" false = Fin 0.00102
  ∧ 0.0010 * (1 - 0.005) * (1 + 0.02) < 0.00102
  ∧ buy_distance_bound cfg (buy_price_max cfg (fl 0.0010)) < 0.00102
  ∧ (∃ r, run.1 = Ok (Some r)
          ∧ num_cancels_unprofitable r = 0%nat
          ∧ num_cancels_outbid r = 0%nat
          ∧ skip_proposal_for_distance (proposed r) = 0%nat
          ∧ num_orders (proposed r) = 1%nat)
  ∧ accepts (events run.2) = [(SELL, "X-BTC"%string)].
Proof.
  cbv zeta. split; [reflexivity|]. split; [reflexivity|]. split; [reflexivity|].
  split; [by vm_compute|]. split; [by vm_compute|].
  split; [eexists; by vm_compute | by vm_compute].
Qed.

(** C7, as the program has it.  The buy side of a pair is looked at when
    the pair has no open buy order and is not IRIS-BTC; then a best bid
    above [Decimal(buy_price_max) * Decimal(1 + buy_place_max_distance)],
    the sum a float and the product rounded to 28 digits, is counted as a
    distance skip and nothing is proposed or changed; when the side is not
    looked at nothing is counted.  In no cycle is a buy proposed for a pair
    whose best bid is above the bound.  With the numbers of scenario A the
    program computes [buy_price_max] as 0.0009950000000000000162717062047
    and the bound as 0.001014900000000000034271890881; the best bid 0.00105
    is above it, and the cycle counts one distance skip and accepts a sell
    only. *)
Theorem far_bid_skips_the_open_buy_side :
  (∀ cfg w tp quote_cur buy_price_max top_bid c proposal s sides,
     orders s !! tp = Some sides →
     round28 (buy_price_max * float_add 1 (buy_place_max_distance cfg))
     < top_bid →
     propose_buy cfg w tp quote_cur buy_price_max (Fin top_bid) c proposal s
     = (Ok (if bool_decide (sides.1 = [] ∧ tp ≠ "IRIS-BTC"%string)
            then incr_distance c else c, proposal), s))
  ∧ (∀ cfg w s d tp ref_bid ref_ask top_bid,
       bid_ask_markets_json w = PayloadJSON d →
       d !! tp = Some (BidAsk (JNum ref_bid) (JNum ref_ask)) →
       get_price w tp false = Fin top_bid →
       round28 (round28 (ref_bid * float_sub 1 (buy_place_ratio cfg))
                * float_add 1 (buy_place_max_distance cfg))
       < top_bid →
       ∀ price amount,
         EvProposal BUY tp price amount ∉ new_events (on_tick cfg w) s)
  ∧ (let run :=
       on_tick scenario_a_config scenario_a_world
         (running scenario_a_config scenario_a_world) in
     bid_ask_markets_json scenario_a_world
     = PayloadJSON {[ "X-BTC"%string := BidAsk (JNum (fl 0.0010)) (JNum (fl 0.0011)) ]}
     ∧ get_price scenario_a_world "X-BTC" false = Fin 0.00105
     ∧ buy_price_max scenario_a_config (fl 0.0010)
       == 0.0009950000000000000162717062047
     ∧ buy_distance_bound scenario_a_config
         (buy_price_max scenario_a_config (fl 0.0010))
       == 0.001014900000000000034271890881
     ∧ buy_distance_bound scenario_a_config
         (buy_price_max scenario_a_config (fl 0.0010))
       < 0.00105
     ∧ ∃ r, run.1 = Ok (Some r)
            ∧ skip_proposal_for_distance (proposed r) = 1%nat
            ∧ accepts (events run.2) = [(SELL, "X-BTC"%string)]).
Proof.
  split; [|split].
  - intros cfg w tp quote_cur buy_price_max top_bid c proposal s sides Ho Hd.
    unfold propose_buy. rewrite run_read, (run_getitem _ _ _ _ _ Ho).
    destruct sides as [[|o buys] sells]; cbn [fst length Nat.eqb andb].
    + destruct (String.eqb tp "IRIS-BTC") eqn:Hi; cbn [negb].
      * apply String.eqb_eq in Hi. rewrite bool_decide_eq_false_2; [done|].
        by intros [_ ?].
      * apply String.eqb_neq in Hi. rewrite bool_decide_eq_true_2 by done.
        rewrite run_lift. cbn [compared].
        by rewrite (proj2 (Qlt_bool_true _ _) Hd).
    + rewrite bool_decide_eq_false_2; [done|]. by intros [? _].
  - intros cfg w s d tp rb ra b Hj Hd Hb Hfar price amount Hin.
    pose proof (on_tick_priced cfg w s) as H.
    rewrite Forall_forall in H. specialize (H _ Hin). cbn in H.
    destruct H as (d' & rb' & ra' & b' & Hj' & Hd' & Hb' & Hnear & _).
    rewrite Hj in Hj'. injection Hj' as <-.
    rewrite Hd in Hd'. injection Hd' as <- <-.
    rewrite Hb in Hb'. injection Hb' as <-.
    unfold buy_distance_bound, buy_price_max in Hnear. lra.
  - cbv zeta. split; [reflexivity|]. split; [reflexivity|].
    split; [by vm_compute|]. split; [by vm_compute|]. split; [by vm_compute|].
    eexists. by vm_compute.
Qed.

Lemma far_bid_skips_the_open_buy_side_witness :
  propose_buy scenario_a_config scenario_a_world "X-BTC" "BTC"
    (buy_price_max scenario_a_config (fl 0.0010)) (Fin 0.00105)
    no_proposals [] scenario_b_state
  = (Ok (incr_distance no_proposals, []), scenario_b_state)
  ∧ ∀ price amount,
      EvProposal BUY "X-BTC" price amount
      ∉ new_events (on_tick scenario_a_config scenario_a_world)
          (running scenario_a_config scenario_a_world).
Proof.
  split.
  - apply (proj1 far_bid_skips_the_open_buy_side scenario_a_config
             scenario_a_world "X-BTC" "BTC"
             (buy_price_max scenario_a_config (fl 0.0010)) 0.00105
             no_proposals [] scenario_b_state ([], []));
      [reflexivity | by vm_compute].
  - apply (proj1 (proj2 far_bid_skips_the_open_buy_side) scenario_a_config
             scenario_a_world (running scenario_a_config scenario_a_world)
             {[ "X-BTC"%string := fair ]} "X-BTC"%string
             (fl 0.0010) (fl 0.0011) 0.00105);
      [reflexivity | reflexivity | reflexivity | by vm_compute].
Defined.
